(** * Veo Storyweaver: frame chain and scene orchestration

    A shallow embedding of the storyboard pipeline of the repository:
    [types.ts] (the scene and application records), [services/geminiService.ts]
    (the calls to the generative gateway) and [App.tsx] (the React handlers
    that drive the scene list), with the properties of the specification
    proved or refuted on it.

    JavaScript strings are sequences of UTF-16 code units; asynchronous
    handlers are programs in a small state, trace and exception monad whose
    gateway answers, like the outcome of constructing the SDK client, are
    supplied by the environment. *)

From Stdlib Require Import String Ascii NArith Lia.
From stdpp Require Import list.

Set Default Proof Using "Type".
Local Open Scope N_scope.
Local Open Scope nat_scope.

(* ===================================================================== *)
(** ** JavaScript strings *)
(* ===================================================================== *)

Module JS.

(** A string is its sequence of UTF-16 code units. *)
Definition str := list N.

(** A source literal (ASCII only). *)
Definition lit (s : string) : str :=
  N_of_ascii <$> list_ascii_of_string s.

(** [a === b] on strings. *)
Fixpoint eqb (a b : str) : bool :=
  match a, b with
  | [], [] => true
  | x :: a', y :: b' => N.eqb x y && eqb a' b'
  | _, _ => false
  end.

(** Truthiness of a string: every string but the empty one. *)
Definition truthy (s : str) : bool :=
  match s with [] => false | _ :: _ => true end.

(** Truthiness of [string | null | undefined]. *)
Definition truthy_opt (o : option str) : bool :=
  match o with Some s => truthy s | None => false end.

(** [o || d] where [o] is [string | undefined]. *)
Definition or_else (o : option str) (d : str) : str :=
  match o with
  | Some s => if truthy s then s else d
  | None => d
  end.

(** ECMAScript WhiteSpace and LineTerminator code points, the set
    [String.prototype.trim] removes. *)
Definition isWhiteSpace (c : N) : bool :=
  ((9 <=? c) && (c <=? 13))%N          (* TAB LF VT FF CR *)
  || (c =? 32)%N                        (* SPACE *)
  || (c =? 160)%N                       (* NO-BREAK SPACE *)
  || (c =? 5760)%N                      (* U+1680 *)
  || ((8192 <=? c) && (c <=? 8202))%N   (* U+2000 .. U+200A *)
  || (c =? 8232)%N || (c =? 8233)%N     (* LS, PS *)
  || (c =? 8239)%N                      (* U+202F *)
  || (c =? 8287)%N                      (* U+205F *)
  || (c =? 12288)%N                     (* U+3000 *)
  || (c =? 65279)%N.                    (* U+FEFF *)

Fixpoint dropWhile (p : N -> bool) (s : str) : str :=
  match s with
  | [] => []
  | c :: s' => if p c then dropWhile p s' else s
  end.

Definition trimStart (s : str) : str := dropWhile isWhiteSpace s.
Definition trimEnd (s : str) : str := rev (dropWhile isWhiteSpace (rev s)).

(** [s.trim()] *)
Definition trim (s : str) : str := trimEnd (trimStart s).

(** [s.replace(/C/g, '')] for a one-character class [C], given as the
    predicate of the code units the class matches: every match is
    deleted. *)
Definition replaceAll_empty (matches : N -> bool) (s : str) : str :=
  List.filter (fun c => negb (matches c)) s.

(** Code units of ['0'] .. ['9'] and of ['.']. *)
Definition isDigit (c : N) : bool := ((48 <=? c) && (c <=? 57))%N.
Definition isDot (c : N) : bool := (c =? 46)%N.

(** The negated class [[^0-9.]]. *)
Definition notDigitOrDot (c : N) : bool := negb (isDigit c || isDot c).

(** [s.split(',')[1]]: the text between the first and the second comma,
    [undefined] when [s] has no comma. *)
Fixpoint afterComma (s : str) : option str :=
  match s with
  | [] => None
  | c :: s' => if (c =? 44)%N then Some s' else afterComma s'
  end.

Fixpoint untilComma (s : str) : str :=
  match s with
  | [] => []
  | c :: s' => if (c =? 44)%N then [] else c :: untilComma s'
  end.

Definition split_comma_1 (s : str) : option str :=
  untilComma <$> afterComma s.

(** [array.findIndex(p)], with [None] for [-1]. *)
Fixpoint findIndex {A} (p : A -> bool) (l : list A) : option nat :=
  match l with
  | [] => None
  | x :: l' => if p x then Some 0 else S <$> findIndex p l'
  end.

(** [array.find(p)], with [None] for [undefined]. *)
Fixpoint find {A} (p : A -> bool) (l : list A) : option A :=
  match l with
  | [] => None
  | x :: l' => if p x then Some x else find p l'
  end.

End JS.

Abbreviation str := JS.str.
Abbreviation lit := JS.lit.

Arguments JS.lit : simpl never.

(* ===================================================================== *)
(** ** The data model ([types.ts]) *)
(* ===================================================================== *)

(** An image payload as it flows at run time: base64 text, or [undefined]
    (what [split(',')[1]] gives for a data URL without a comma and what an
    inline part without [data] carries). *)
Abbreviation image := (option str).

Inductive Resolution := res_1080p | res_4k.

Inductive Status :=
  idle | analyzing_script | generating_video | complete | error.

Record SceneState := mkScene {
  id : str;
  index : nat;
  startImage : image;
  endImage : image;
  script : str;
  movementDescription : str;
  expressionDescription : str;
  recommendedDuration : option str;
  targetResolution : Resolution;
  endFrameActionPrompt : str;
  isRegeneratingImage : bool;
  generatedVideoUrl : option str;
  isProcessing : bool;
  status : Status;
  errorMessage : option str
}.

Inductive ImageGenerationModel :=
  gemini_3_pro_image_preview | gemini_2_5_flash_image.

Record GenerationConfig := mkConfig {
  mainImage : option str;
  faceReference : option str;
  numFrames : nat;
  selectedModel : ImageGenerationModel;
  poseDescription : str
}.

Inductive Step := upload | generating_frames | sequencing.

Record AppState := mkApp {
  step : Step;
  config : GenerationConfig;
  scenes : list SceneState;
  isApiKeySelected : bool
}.

(** Object spread with one overridden field, [{ ...s, field: v }]; several
    overrides compose. *)

Definition with_startImage (v : image) (s : SceneState) : SceneState :=
  mkScene
    (id s) (index s) v (endImage s) (script s)
    (movementDescription s) (expressionDescription s)
    (recommendedDuration s) (targetResolution s)
    (endFrameActionPrompt s) (isRegeneratingImage s)
    (generatedVideoUrl s) (isProcessing s)
    (status s) (errorMessage s).

Definition with_endImage (v : image) (s : SceneState) : SceneState :=
  mkScene
    (id s) (index s) (startImage s) v (script s)
    (movementDescription s) (expressionDescription s)
    (recommendedDuration s) (targetResolution s)
    (endFrameActionPrompt s) (isRegeneratingImage s)
    (generatedVideoUrl s) (isProcessing s)
    (status s) (errorMessage s).

Definition with_script (v : str) (s : SceneState) : SceneState :=
  mkScene
    (id s) (index s) (startImage s) (endImage s) v
    (movementDescription s) (expressionDescription s)
    (recommendedDuration s) (targetResolution s)
    (endFrameActionPrompt s) (isRegeneratingImage s)
    (generatedVideoUrl s) (isProcessing s)
    (status s) (errorMessage s).

Definition with_movementDescription (v : str) (s : SceneState) : SceneState :=
  mkScene
    (id s) (index s) (startImage s) (endImage s) (script s)
    v (expressionDescription s)
    (recommendedDuration s) (targetResolution s)
    (endFrameActionPrompt s) (isRegeneratingImage s)
    (generatedVideoUrl s) (isProcessing s)
    (status s) (errorMessage s).

Definition with_expressionDescription (v : str) (s : SceneState) : SceneState :=
  mkScene
    (id s) (index s) (startImage s) (endImage s) (script s)
    (movementDescription s) v
    (recommendedDuration s) (targetResolution s)
    (endFrameActionPrompt s) (isRegeneratingImage s)
    (generatedVideoUrl s) (isProcessing s)
    (status s) (errorMessage s).

Definition with_recommendedDuration (v : option str) (s : SceneState) : SceneState :=
  mkScene
    (id s) (index s) (startImage s) (endImage s) (script s)
    (movementDescription s) (expressionDescription s)
    v (targetResolution s)
    (endFrameActionPrompt s) (isRegeneratingImage s)
    (generatedVideoUrl s) (isProcessing s)
    (status s) (errorMessage s).

Definition with_targetResolution (v : Resolution) (s : SceneState) : SceneState :=
  mkScene
    (id s) (index s) (startImage s) (endImage s) (script s)
    (movementDescription s) (expressionDescription s)
    (recommendedDuration s) v
    (endFrameActionPrompt s) (isRegeneratingImage s)
    (generatedVideoUrl s) (isProcessing s)
    (status s) (errorMessage s).

Definition with_endFrameActionPrompt (v : str) (s : SceneState) : SceneState :=
  mkScene
    (id s) (index s) (startImage s) (endImage s) (script s)
    (movementDescription s) (expressionDescription s)
    (recommendedDuration s) (targetResolution s)
    v (isRegeneratingImage s)
    (generatedVideoUrl s) (isProcessing s)
    (status s) (errorMessage s).

Definition with_isRegeneratingImage (v : bool) (s : SceneState) : SceneState :=
  mkScene
    (id s) (index s) (startImage s) (endImage s) (script s)
    (movementDescription s) (expressionDescription s)
    (recommendedDuration s) (targetResolution s)
    (endFrameActionPrompt s) v
    (generatedVideoUrl s) (isProcessing s)
    (status s) (errorMessage s).

Definition with_generatedVideoUrl (v : option str) (s : SceneState) : SceneState :=
  mkScene
    (id s) (index s) (startImage s) (endImage s) (script s)
    (movementDescription s) (expressionDescription s)
    (recommendedDuration s) (targetResolution s)
    (endFrameActionPrompt s) (isRegeneratingImage s)
    v (isProcessing s)
    (status s) (errorMessage s).

Definition with_isProcessing (v : bool) (s : SceneState) : SceneState :=
  mkScene
    (id s) (index s) (startImage s) (endImage s) (script s)
    (movementDescription s) (expressionDescription s)
    (recommendedDuration s) (targetResolution s)
    (endFrameActionPrompt s) (isRegeneratingImage s)
    (generatedVideoUrl s) v
    (status s) (errorMessage s).

Definition with_status (v : Status) (s : SceneState) : SceneState :=
  mkScene
    (id s) (index s) (startImage s) (endImage s) (script s)
    (movementDescription s) (expressionDescription s)
    (recommendedDuration s) (targetResolution s)
    (endFrameActionPrompt s) (isRegeneratingImage s)
    (generatedVideoUrl s) (isProcessing s)
    v (errorMessage s).

Definition with_errorMessage (v : option str) (s : SceneState) : SceneState :=
  mkScene
    (id s) (index s) (startImage s) (endImage s) (script s)
    (movementDescription s) (expressionDescription s)
    (recommendedDuration s) (targetResolution s)
    (endFrameActionPrompt s) (isRegeneratingImage s)
    (generatedVideoUrl s) (isProcessing s)
    (status s) v.

Definition with_step (v : Step) (a : AppState) : AppState :=
  mkApp v (config a) (scenes a) (isApiKeySelected a).

Definition with_config (v : GenerationConfig) (a : AppState) : AppState :=
  mkApp (step a) v (scenes a) (isApiKeySelected a).

Definition with_scenes (v : list SceneState) (a : AppState) : AppState :=
  mkApp (step a) (config a) v (isApiKeySelected a).

Definition with_isApiKeySelected (v : bool) (a : AppState) : AppState :=
  mkApp (step a) (config a) (scenes a) v.

Definition with_mainImage (v : option str) (c : GenerationConfig)
    : GenerationConfig :=
  mkConfig v (faceReference c) (numFrames c) (selectedModel c)
    (poseDescription c).

Definition with_faceReference (v : option str) (c : GenerationConfig)
    : GenerationConfig :=
  mkConfig (mainImage c) v (numFrames c) (selectedModel c)
    (poseDescription c).

(* ===================================================================== *)
(** ** The run time: React store, event trace, exceptions *)
(* ===================================================================== *)

(** The pieces of state [App] holds through [useState]. *)
Record Store := mkStore {
  state : AppState;
  loadingMsg : str;
  contextDesc : str;
  faceFeaturesCache : str;
  sceneFeaturesCache : str
}.

Definition with_state (v : AppState) (s : Store) : Store :=
  mkStore v (loadingMsg s) (contextDesc s)
    (faceFeaturesCache s) (sceneFeaturesCache s).

(** The outbound calls of the vendor SDK and of the browser. *)
Inductive Endpoint :=
| generateContent (model : str)
| generateVideos (model : str)
| getVideosOperation
| fetchVideo.

(** What a run does to the outside world, in order. *)
Inductive Event :=
| GatewayCall (endpoint : Endpoint)
| SelectKeyDialog
| Sleep (ms : nat)
| ConsoleError
| Alert (msg : str).

Inductive JsError :=
| Rejected            (* the environment failed: a promise it rejected,
                         a constructor of the SDK that threw *)
| TypeError           (* property access on null or undefined *)
| Error (msg : str).  (* [new Error(msg)] *)

Record World := mkWorld {
  store : Store;
  trace : list Event
}.

(** The result of an [async] body: it returns, throws, or stays suspended
    on an [await] the environment never settles. *)
Inductive Res (A : Type) :=
| Return (a : A)
| Throw (e : JsError)
| Pending.
Arguments Return {A} a.
Arguments Throw {A} e.
Arguments Pending {A}.

Definition M (A : Type) : Type := World -> Res A * World.

#[global] Instance M_ret : MRet M := fun A a w => (Return a, w).

#[global] Instance M_bind : MBind M := fun A B f m w =>
  match m w with
  | (Return a, w') => f a w'
  | (Throw e, w') => (Throw e, w')
  | (Pending, w') => (Pending, w')
  end.

Definition throw {A} (e : JsError) : M A := fun w => (Throw e, w).

Definition pending {A} : M A := fun w => (Pending, w).

(** [try { body } catch (e) { handler }] *)
Definition try_catch {A} (body : M A) (handler : JsError -> M A) : M A :=
  fun w =>
    match body w with
    | (Throw e, w') => handler e w'
    | r => r
    end.

Definition emit (e : Event) : M unit :=
  fun w => (Return tt, mkWorld (store w) (trace w ++ [e])).

Definition modifyStore (f : Store -> Store) : M unit :=
  fun w => (Return tt, mkWorld (f (store w)) (trace w)).

(** How the environment settles an awaited promise. *)
Inductive Outcome (A : Type) :=
| Resolves (a : A)
| Rejects.
Arguments Resolves {A} a.
Arguments Rejects {A}.

Definition settle {A} (o : Outcome A) : M A :=
  match o with
  | Resolves a => mret a
  | Rejects => throw Rejected
  end.

(** [await] of a gateway call: the request goes out, the environment's
    answer comes back. *)
Definition await_gateway {A} (endpoint : Endpoint) (o : Outcome A) : M A :=
  emit (GatewayCall endpoint);; settle o.

(* ===================================================================== *)
(** ** The gateway services ([services/geminiService.ts]) *)
(* ===================================================================== *)

Module GeminiService.

(** An inline image of a response part; [data] may be absent. *)
Record InlineData := mkInline { data : image }.

Record Part := mkPart { inlineData : option InlineData }.

(** What the code reads of a [generateContent] response: the [text]
    accessor and [candidates?.[0]?.content?.parts || []]. *)
Record ContentResponse := mkResponse {
  text : option str;
  parts : list Part
}.

(** What the code reads of a video operation: [done] and
    [response?.generatedVideos?.[0]?.video?.uri]. *)
Record Operation := mkOperation {
  done : bool;
  videoUri : option str
}.

(** The answers of the environment to one [generateVeoSegment]. *)
Record VeoEnv := mkVeo {
  client : Outcome unit;     (* [getAIClient()] *)
  submission : Outcome Operation;
  polls : list (Outcome Operation);
  download : Outcome unit;   (* [fetch] followed by [response.blob()] *)
  objectUrlId : str          (* what follows [blob:] in the object URL *)
}.

(** [requestApiKey]; [aistudio] is [None] when the host offers no
    [openSelectKey], else the outcome of the dialog. *)
Definition requestApiKey (aistudio : option (Outcome unit)) : M unit :=
  match aistudio with
  | Some dialog => emit SelectKeyDialog;; settle dialog
  | None => mret tt
  end.

(** [getAIClient]: a fresh client on the key of the moment; the
    constructor of the SDK throws when it has no key to work with. *)
Definition getAIClient (client : Outcome unit) : M unit :=
  settle client.

Definition analyzeFaceFeatures (faceImage : image)
    (client : Outcome unit) (gw : Outcome ContentResponse) : M str :=
  getAIClient client;;
  response ← await_gateway (generateContent (lit "gemini-2.5-flash-image")) gw;
  mret (JS.or_else (text response) (lit "Detailed face reference.")).

Definition analyzeSceneFeatures (sceneImage : image)
    (client : Outcome unit) (gw : Outcome ContentResponse) : M str :=
  getAIClient client;;
  response ← await_gateway (generateContent (lit "gemini-2.5-flash-image")) gw;
  mret (JS.or_else (text response) (lit "Cinematic scene description.")).

Definition estimateSpeakingDuration (script : str)
    (client : Outcome unit) (gw : Outcome ContentResponse) : M str :=
  if negb (JS.truthy script) || (length (JS.trim script) =? 0)
  then mret (lit "0s")
  else
    getAIClient client;;
    try_catch
      (response ← await_gateway
                    (generateContent (lit "gemini-2.5-flash-latest")) gw;
       let text := JS.or_else (JS.trim <$> text response) [] in
       mret (JS.replaceAll_empty JS.notDigitOrDot text))
      (fun e => emit ConsoleError;; mret (lit "8")).

(** [for (const part of parts) if (part.inlineData) return
    part.inlineData.data; return null], with [None] for [null]. *)
Fixpoint firstInlineData (ps : list Part) : option image :=
  match ps with
  | [] => None
  | part :: ps' =>
      match inlineData part with
      | Some d => Some (data d)
      | None => firstInlineData ps'
      end
  end.

(** One of the concurrent frame requests after its call went out. *)
Definition frameResult (gw : Outcome ContentResponse) : M (option image) :=
  try_catch
    (response ← settle gw; mret (firstInlineData (parts response)))
    (fun e => emit ConsoleError;; mret None).

Fixpoint issueAll (model : str) (count : nat) : M unit :=
  match count with
  | 0 => mret tt
  | S n => emit (GatewayCall (generateContent model));; issueAll model n
  end.

Fixpoint settleAll (gw : nat -> Outcome ContentResponse) (indices : list nat)
    : M (list (option image)) :=
  match indices with
  | [] => mret []
  | i :: indices' =>
      r ← frameResult (gw i); rs ← settleAll gw indices'; mret (r :: rs)
  end.

(** The [count] requests go out before any is awaited; [Promise.all]
    orders the results by request index, whatever the order of arrival.
    [results.filter(f => f !== null)] drops the failed ones. *)
Definition generateCharacterFrames (sceneImage faceImage : image)
    (sceneDesc faceDesc poseDescription : str) (count : nat) (model : str)
    (client : Outcome unit) (gw : nat -> Outcome ContentResponse)
    : M (list image) :=
  getAIClient client;;
  issueAll model count;;
  results ← settleAll gw (seq 0 count);
  mret (omap (fun f => f) results).

Definition regenerateSingleFrame (sceneImage faceImage : image)
    (userActionPrompt sceneDesc faceDesc model globalPoseConstraint : str)
    (client : Outcome unit) (gw : Outcome ContentResponse)
    : M (option image) :=
  getAIClient client;;
  try_catch
    (response ← await_gateway (generateContent model) gw;
     mret (firstInlineData (parts response)))
    (fun e => emit ConsoleError;; throw e).

(** [while (!operation.done) { sleep 5 s; operation = poll }]: one
    iteration per answer of the environment; when the answers run out
    before a job is done, the loop pauses, polls once more and stays
    suspended on that poll. *)
Fixpoint pollUntilDone (operation : Operation)
    (answers : list (Outcome Operation)) : M Operation :=
  if done operation then mret operation
  else
    match answers with
    | [] =>
        emit (Sleep 5000);;
        emit (GatewayCall getVideosOperation);;
        pending
    | answer :: answers' =>
        emit (Sleep 5000);;
        operation' ← await_gateway getVideosOperation answer;
        pollUntilDone operation' answers'
    end.

Definition generateVeoSegment (startImage endImage : image)
    (movement expression script context : str) (resolution : Resolution)
    (env : VeoEnv) : M (option str) :=
  getAIClient (client env);;
  try_catch
    (operation ← await_gateway
                   (generateVideos (lit "veo-3.1-generate-preview"))
                   (submission env);
     operation ← pollUntilDone operation (polls env);
     if negb (JS.truthy_opt (videoUri operation)) then mret None
     else
       await_gateway fetchVideo (download env);;
       mret (Some (lit "blob:" ++ objectUrlId env)))
    (fun e => emit ConsoleError;; throw e).

(** [checkApiKey]; [host] is [None] when the host offers no
    [hasSelectedApiKey], else the outcome of asking it. *)
Definition checkApiKey (host : option (Outcome bool)) : M bool :=
  match host with
  | Some asked => settle asked
  | None => mret false
  end.

(** [analyzeContext]: the two descriptions on two labelled lines. *)
Definition analyzeContext (sceneDesc faceDesc : str) : M str :=
  mret (lit "Scene: " ++ sceneDesc ++ [10%N] ++ lit "Character: " ++ faceDesc).

End GeminiService.

(* ===================================================================== *)
(** ** The scene card ([components/SceneCard.tsx]) *)
(* ===================================================================== *)

Module SceneCard.

(** [`${x}`] of an image payload. *)
Definition template (o : image) : str :=
  match o with
  | Some s => s
  | None => lit "undefined"
  end.

Definition is_generating (s : Status) : bool :=
  match s with
  | generating_video => true
  | _ => false
  end.

Definition is_4k (r : Resolution) : bool :=
  match r with
  | res_4k => true
  | res_1080p => false
  end.

(** What the video panel shows. *)
Inductive VideoPanel :=
| Player (src : str)
| Directing
| ReadyToGenerate.

(** What a card shows of its scene, and which of its buttons respond. *)
Record View := mkView {
  segment : nat;
  badge : str;
  startSrc : str;
  endSrc : str;
  lockedToInput : bool;
  regenerating : bool;
  regenerateDisabled : bool;
  analyzeDisabled : bool;
  analyzeLabel : str;
  durationNote : option str;
  proKey : bool;
  videoPanel : VideoPanel;
  generateDisabled : bool;
  generateLabel : str;
  errorNote : option str
}.

Definition render (scene : SceneState) : View :=
  {| segment := index scene + 1;
     badge :=
       match recommendedDuration scene with
       | Some d =>
           if JS.truthy d then lit "AI Target: " ++ d ++ lit "s"
           else lit "9:16 Vertical"
       | None => lit "9:16 Vertical"
       end;
     startSrc := lit "data:image/jpeg;base64," ++ template (startImage scene);
     endSrc := lit "data:image/jpeg;base64," ++ template (endImage scene);
     lockedToInput := index scene =? 0;
     regenerating := isRegeneratingImage scene;
     regenerateDisabled :=
       isRegeneratingImage scene
       || negb (JS.truthy (JS.trim (endFrameActionPrompt scene)));
     analyzeDisabled :=
       negb (JS.truthy (JS.trim (script scene))) || isProcessing scene;
     analyzeLabel :=
       if isProcessing scene then lit "Analyzing..." else lit "Check Timing";
     durationNote :=
       match recommendedDuration scene with
       | Some d =>
           if JS.truthy d
           then Some (lit "Estimated video duration: " ++ d ++ lit "s")
           else None
       | None => None
       end;
     proKey := is_4k (targetResolution scene);
     videoPanel :=
       match generatedVideoUrl scene with
       | Some url =>
           if JS.truthy url then Player url
           else if is_generating (status scene) then Directing
                else ReadyToGenerate
       | None =>
           if is_generating (status scene) then Directing
           else ReadyToGenerate
       end;
     generateDisabled :=
       isProcessing scene || is_generating (status scene)
       || isRegeneratingImage scene;
     generateLabel :=
       if is_generating (status scene) then lit "Generating..."
       else if JS.truthy_opt (generatedVideoUrl scene)
            then lit "Regenerate Video"
            else lit "Generate "
                   ++ (if is_4k (targetResolution scene) then lit "4K" else [])
                   ++ lit " Video";
     errorNote :=
       match errorMessage scene with
       | Some m => if JS.truthy m then Some m else None
       | None => None
       end |}.

End SceneCard.

(* ===================================================================== *)
(** ** The application ([App.tsx]) *)
(* ===================================================================== *)

Module App.

Import GeminiService.

Definition modelName (m : ImageGenerationModel) : str :=
  match m with
  | gemini_3_pro_image_preview => lit "gemini-3-pro-image-preview"
  | gemini_2_5_flash_image => lit "gemini-2.5-flash-image"
  end.

(** The [useState] setters. *)
Definition setState (f : AppState -> AppState) : M unit :=
  modifyStore (fun s => with_state (f (state s)) s).

Definition setLoadingMsg (v : str) : M unit :=
  modifyStore (fun s =>
    mkStore (state s) v (contextDesc s)
      (faceFeaturesCache s) (sceneFeaturesCache s)).

Definition setContextDesc (v : str) : M unit :=
  modifyStore (fun s =>
    mkStore (state s) (loadingMsg s) v
      (faceFeaturesCache s) (sceneFeaturesCache s)).

Definition setFaceFeaturesCache (v : str) : M unit :=
  modifyStore (fun s =>
    mkStore (state s) (loadingMsg s) (contextDesc s)
      v (sceneFeaturesCache s)).

Definition setSceneFeaturesCache (v : str) : M unit :=
  modifyStore (fun s =>
    mkStore (state s) (loadingMsg s) (contextDesc s)
      (faceFeaturesCache s) v).

(** [prev.scenes.map(s => s.id === id ? f(s) : s)] as a state updater. *)
Definition mapScene (i : str) (f : SceneState -> SceneState)
    (prev : AppState) : AppState :=
  with_scenes
    ((fun s => if JS.eqb (id s) i then f s else s) <$> scenes prev) prev.

(** The scene the chain builder pushes at iteration [i]. *)
Definition freshScene (uuid : str) (i : nat) (allFrames : list image)
    : SceneState :=
  {| id := uuid;
     index := i;
     startImage := mjoin (allFrames !! i);
     endImage := mjoin (allFrames !! (i + 1));
     script := [];
     movementDescription := [];
     expressionDescription := [];
     recommendedDuration := None;
     targetResolution := res_1080p;
     endFrameActionPrompt := [];
     isRegeneratingImage := false;
     isProcessing := false;
     generatedVideoUrl := None;
     status := idle;
     errorMessage := None |}.

(** [for (let i = 0; i < allFrames.length - 1; i++) newScenes.push(..)];
    [randomUUID i] is the identifier drawn at iteration [i]. *)
Definition newScenes (randomUUID : nat -> str) (allFrames : list image)
    : list SceneState :=
  (fun i => freshScene (randomUUID i) i allFrames)
    <$> seq 0 (length allFrames - 1).

(** The updater of a successful regeneration:
    [updatedScenes[sceneIndex] = {...}] and, when a next scene exists,
    [updatedScenes[sceneIndex + 1] = {...}].  [sceneIndex] is within
    [prev.scenes] in every run (scene lists keep their length once
    created, see [findIndex_lt]); beyond it JavaScript would append an
    object with none of the scene's own fields, which [SceneState] cannot
    hold, and the model leaves the list as it is. *)
Definition chainUpdate (sceneIndex : nat) (newImage : image)
    (prev : AppState) : AppState :=
  let updatedScenes := scenes prev in
  let updatedScenes :=
    alter (fun s =>
             with_status idle
               (with_generatedVideoUrl None
                  (with_isRegeneratingImage false
                     (with_endImage newImage s))))
          sceneIndex updatedScenes in
  let updatedScenes :=
    if sceneIndex + 1 <? length updatedScenes
    then alter (fun s =>
                  with_status idle
                    (with_generatedVideoUrl None
                       (with_startImage newImage s)))
               (sceneIndex + 1) updatedScenes
    else updatedScenes in
  with_scenes updatedScenes prev.

(** Truthiness of [string | undefined | null] as [regenerateSingleFrame]
    returns it. *)
Definition truthy_image (r : option image) : bool :=
  match r with
  | Some (Some s) => JS.truthy s
  | _ => false
  end.

(** The answers of the environment to one run of the pipeline. *)
Record PipelineEnv := mkPipeline {
  aistudio : option (Outcome unit);
  faceClient : Outcome unit;      (* [getAIClient()] of the face analysis *)
  faceAnalysis : Outcome ContentResponse;
  sceneClient : Outcome unit;     (* of the scene analysis *)
  sceneAnalysis : Outcome ContentResponse;
  framesClient : Outcome unit;    (* of the frame synthesis *)
  frameAnswers : nat -> Outcome ContentResponse;
  randomUUID : nat -> str
}.

(** The two upload slots of the configuration. *)
Inductive ImageKey := key_mainImage | key_faceReference.

(** [handleImageUpload(key)(base64)]; [null] clears the slot. *)
Definition handleImageUpload (key : ImageKey) (base64 : option str) : M unit :=
  setState (fun prev =>
    with_config
      (match key with
       | key_mainImage => with_mainImage base64 (config prev)
       | key_faceReference => with_faceReference base64 (config prev)
       end) prev).

(** The effect run once on mount. *)
Definition initKey (host : option (Outcome bool)) : M unit :=
  hasKey ← checkApiKey host;
  setState (with_isApiKeySelected hasKey).

(** [disabled] of the button that starts the pipeline. *)
Definition startDisabled (a : AppState) : bool :=
  negb (JS.truthy_opt (mainImage (config a)))
  || negb (JS.truthy_opt (faceReference (config a))).

Section Render.

(** The handlers close over the values of the render that created
    them; [setState] updaters receive the store of the moment. *)
Variable snapshot : Store.

Definition handleKeySelect (key : option (Outcome unit)) : M unit :=
  requestApiKey key;;
  setState (with_isApiKeySelected true).

Definition startAnalysisAndGeneration (env : PipelineEnv) : M unit :=
  match mainImage (config (state snapshot)),
        faceReference (config (state snapshot)) with
  | Some main, Some face =>
      if negb (JS.truthy main) || negb (JS.truthy face) then mret tt
      else
        (if negb (isApiKeySelected (state snapshot))
         then handleKeySelect (aistudio env) else mret tt);;
        setState (with_step generating_frames);;
        try_catch
          (let cleanMain := JS.split_comma_1 main in
           let cleanFace := JS.split_comma_1 face in
           setLoadingMsg
             (lit "Calling Nano Banana: Analyzing Face Topology...");;
           faceFeatures ← analyzeFaceFeatures cleanFace (faceClient env)
                            (faceAnalysis env);
           setFaceFeaturesCache faceFeatures;;
           setLoadingMsg
             (lit "Calling Nano Banana: Analyzing Scene Lighting & Lens...");;
           sceneFeatures ← analyzeSceneFeatures cleanMain
                             (sceneClient env) (sceneAnalysis env);
           setSceneFeaturesCache sceneFeatures;;
           setContextDesc
             (lit "Scene: " ++ sceneFeatures ++ lit ". Face: "
                ++ faceFeatures);;
           setLoadingMsg
             (lit "Generating 4K Keyframes using "
                ++ match selectedModel (config (state snapshot)) with
                   | gemini_3_pro_image_preview => lit "Gemini 3 Pro"
                   | gemini_2_5_flash_image => lit "Gemini 2.5"
                   end
                ++ lit "...");;
           generatedFrames ←
             generateCharacterFrames cleanMain cleanFace sceneFeatures
               faceFeatures (poseDescription (config (state snapshot))) 9
               (modelName (selectedModel (config (state snapshot))))
               (framesClient env) (frameAnswers env);
           let allFrames := cleanMain :: generatedFrames in
           if length allFrames <? 2
           then throw (Error (lit "Failed to generate enough frames."))
           else
             setState (fun prev =>
               with_scenes (newScenes (randomUUID env) allFrames)
                 (with_step sequencing prev)))
          (fun e =>
             emit ConsoleError;;
             emit (Alert
               (lit "An error occurred during generation. Please try again."));;
             setState (with_step upload))
  | _, _ => mret tt
  end.

Definition updateScript (i : str) (text : str) : M unit :=
  setState (mapScene i (fun s =>
    with_recommendedDuration None (with_script text s))).

Definition updateMovement (i : str) (text : str) : M unit :=
  setState (mapScene i (with_movementDescription text)).

Definition updateExpression (i : str) (text : str) : M unit :=
  setState (mapScene i (with_expressionDescription text)).

Definition updateActionPrompt (i : str) (text : str) : M unit :=
  setState (mapScene i (with_endFrameActionPrompt text)).

Definition updateResolution (i : str) (resolution : Resolution) : M unit :=
  setState (mapScene i (with_targetResolution resolution)).

Definition analyzeDuration (i : str) (client : Outcome unit)
    (gw : Outcome ContentResponse) : M unit :=
  match JS.find (fun s => JS.eqb (id s) i) (scenes (state snapshot)) with
  | None => mret tt
  | Some scene =>
      if negb (JS.truthy (JS.trim (script scene))) then mret tt
      else
        setState (mapScene i (with_isProcessing true));;
        try_catch
          (duration ← estimateSpeakingDuration (script scene) client gw;
           setState (mapScene i (fun s =>
             with_isProcessing false
               (with_recommendedDuration (Some duration) s))))
          (fun e => setState (mapScene i (with_isProcessing false)))
  end.

Definition regenerateEndFrame (i : str) (client : Outcome unit)
    (gw : Outcome ContentResponse) : M unit :=
  match JS.findIndex (fun s => JS.eqb (id s) i) (scenes (state snapshot))
  with
  | None => mret tt
  | Some sceneIndex =>
      match scenes (state snapshot) !! sceneIndex with
      | None => throw TypeError
      | Some scene =>
          if negb (JS.truthy (JS.trim (endFrameActionPrompt scene)))
          then mret tt
          else
            setState (mapScene i (with_isRegeneratingImage true));;
            try_catch
              (match mainImage (config (state snapshot)),
                     faceReference (config (state snapshot)) with
               | Some main, Some face =>
                   let cleanMain := JS.split_comma_1 main in
                   let cleanFace := JS.split_comma_1 face in
                   newImage ←
                     regenerateSingleFrame cleanMain cleanFace
                       (endFrameActionPrompt scene)
                       (sceneFeaturesCache snapshot)
                       (faceFeaturesCache snapshot)
                       (modelName (selectedModel (config (state snapshot))))
                       (poseDescription (config (state snapshot)))
                       client gw;
                   if truthy_image newImage
                   then setState (chainUpdate sceneIndex (mjoin newImage))
                   else throw (Error (lit "Failed to regenerate image"))
               | _, _ => throw TypeError
               end)
              (fun e =>
                 emit ConsoleError;;
                 emit (Alert (lit "Failed to regenerate image. Try again."));;
                 setState (mapScene i (with_isRegeneratingImage false)))
      end
  end.

Definition generateVideo (i : str) (key : option (Outcome unit))
    (env : VeoEnv) : M unit :=
  match JS.find (fun s => JS.eqb (id s) i) (scenes (state snapshot)) with
  | None => mret tt
  | Some scene =>
      (if negb (isApiKeySelected (state snapshot))
       then handleKeySelect key else mret tt);;
      setState (mapScene i (fun s =>
        with_errorMessage None (with_status generating_video s)));;
      try_catch
        (videoUrl ←
           generateVeoSegment (startImage scene) (endImage scene)
             (movementDescription scene) (expressionDescription scene)
             (script scene) (contextDesc snapshot)
             (targetResolution scene) env;
         if negb (JS.truthy_opt videoUrl)
         then throw (Error (lit "Video generation returned no URL"))
         else
           setState (mapScene i (fun s =>
             with_generatedVideoUrl videoUrl (with_status complete s))))
        (fun e =>
           emit ConsoleError;;
           setState (mapScene i (fun s =>
             with_errorMessage
               (Some (lit "Veo generation failed. Ensure billing is enabled."))
               (with_status error s))))
  end.

(** A click on a button of the card of [scene]: a disabled button does
    not respond, an enabled one calls the handler with the scene's
    identifier. *)
Definition clickRegenerate (scene : SceneState)
    (client : Outcome unit) (gw : Outcome ContentResponse) : M unit :=
  if SceneCard.regenerateDisabled (SceneCard.render scene) then mret tt
  else regenerateEndFrame (id scene) client gw.

Definition clickAnalyze (scene : SceneState)
    (client : Outcome unit) (gw : Outcome ContentResponse) : M unit :=
  if SceneCard.analyzeDisabled (SceneCard.render scene) then mret tt
  else analyzeDuration (id scene) client gw.

Definition clickGenerate (scene : SceneState)
    (key : option (Outcome unit)) (env : VeoEnv) : M unit :=
  if SceneCard.generateDisabled (SceneCard.render scene) then mret tt
  else generateVideo (id scene) key env.

(** A click on the button that starts the pipeline. *)
Definition clickStart (env : PipelineEnv) : M unit :=
  if startDisabled (state snapshot) then mret tt
  else startAnalysisAndGeneration env.

End Render.

(** A handler invoked on the current render: it closes over the store as
    it is at that moment, and nothing else touches the store while it
    runs. *)
Definition invoke {A} (handler : Store -> M A) : M A :=
  fun w => handler (store w) w.

End App.

(* ===================================================================== *)
(** ** Vocabulary of the properties *)
(* ===================================================================== *)

(** The scene list a world holds. *)
Definition scenes_of (w : World) : list SceneState :=
  scenes (state (store w)).

(** Everything of the application state but the scene list. *)
Definition same_frame (a a' : AppState) : Prop :=
  step a' = step a /\ config a' = config a /\
  isApiKeySelected a' = isApiKeySelected a.

(** Every field of a scene but [script] and [recommendedDuration]. *)
Definition same_but_script (s s' : SceneState) : Prop :=
  id s' = id s /\ index s' = index s /\
  startImage s' = startImage s /\ endImage s' = endImage s /\
  movementDescription s' = movementDescription s /\
  expressionDescription s' = expressionDescription s /\
  targetResolution s' = targetResolution s /\
  endFrameActionPrompt s' = endFrameActionPrompt s /\
  isRegeneratingImage s' = isRegeneratingImage s /\
  generatedVideoUrl s' = generatedVideoUrl s /\
  isProcessing s' = isProcessing s /\
  status s' = status s /\ errorMessage s' = errorMessage s.

(** Every field of a scene but [isRegeneratingImage]. *)
Definition same_but_regenerating (s s' : SceneState) : Prop :=
  with_isRegeneratingImage (isRegeneratingImage s) s' = s.

(** A regeneration answer that carries no usable image: the call is
    rejected, or no part has inline data, or the data is absent or empty. *)
Definition yields_no_image
    (gw : Outcome GeminiService.ContentResponse) : bool :=
  match gw with
  | Rejects => true
  | Resolves r =>
      negb (App.truthy_image
              (GeminiService.firstInlineData (GeminiService.parts r)))
  end.

(** A regeneration answer whose first inline part carries the non-empty
    image [img]. *)
Definition yields_image
    (gw : Outcome GeminiService.ContentResponse) (img : str) : Prop :=
  exists r, gw = Resolves r /\
    GeminiService.firstInlineData (GeminiService.parts r) = Some (Some img)
    /\ img <> [].

(** Both reference images are in the configuration, as they are from the
    start of the pipeline on. *)
Definition references_present (a : AppState) : Prop :=
  is_Some (mainImage (config a)) /\ is_Some (faceReference (config a)).

(** The characters the duration parse keeps. *)
Definition digitOrDot (c : N) : bool := JS.isDigit c || JS.isDot c.

(** The answers a video job gets, in order: to the submission, then to
    each poll. *)
Definition answers (env : GeminiService.VeoEnv)
    : list (Outcome GeminiService.Operation) :=
  GeminiService.submission env :: GeminiService.polls env.

(** An answer after which the poll loop goes on: the job is not done. *)
Definition still_running (o : Outcome GeminiService.Operation) : Prop :=
  exists op, o = Resolves op /\ GeminiService.done op = false.

(** How the gateway settles a video job: with no video, for one of the
    failures, or with the object URL of the downloaded video. *)
Inductive GatewayVerdict (env : GeminiService.VeoEnv) : option str -> Prop :=
| client_error :
    GeminiService.client env = Rejects ->
    GatewayVerdict env None
| submission_error :
    GeminiService.submission env = Rejects ->
    GatewayVerdict env None
| polling_error waiting rest :
    waiting <> [] ->
    Forall still_running waiting ->
    answers env = waiting ++ Rejects :: rest ->
    GatewayVerdict env None
| no_video_reference waiting op rest :
    Forall still_running waiting ->
    answers env = waiting ++ Resolves op :: rest ->
    GeminiService.done op = true ->
    JS.truthy_opt (GeminiService.videoUri op) = false ->
    GatewayVerdict env None
| download_error waiting op rest :
    Forall still_running waiting ->
    answers env = waiting ++ Resolves op :: rest ->
    GeminiService.done op = true ->
    JS.truthy_opt (GeminiService.videoUri op) = true ->
    GeminiService.download env = Rejects ->
    GatewayVerdict env None
| video_ready waiting op rest :
    Forall still_running waiting ->
    answers env = waiting ++ Resolves op :: rest ->
    GeminiService.done op = true ->
    JS.truthy_opt (GeminiService.videoUri op) = true ->
    GeminiService.download env = Resolves tt ->
    GeminiService.client env = Resolves tt ->
    GatewayVerdict env (Some (lit "blob:" ++ GeminiService.objectUrlId env)).

(** The frame a request of the synthesis stage contributes: the data of
    the first inline part of its answer, nothing when the request fails or
    its answer has no inline part. *)
Definition frameOf (o : Outcome GeminiService.ContentResponse)
    : option image :=
  match o with
  | Resolves r => GeminiService.firstInlineData (GeminiService.parts r)
  | Rejects => None
  end.

(** The frames the synthesis stage returns for the answers [gw]. *)
Definition synthesizedFrames
    (gw : nat -> Outcome GeminiService.ContentResponse) (count : nat)
    : list image :=
  omap (fun i => frameOf (gw i)) (seq 0 count).

(** The events of the synthesis stage: the requests, then one console
    error per rejected request. *)
Definition synthesisEvents (model : str)
    (gw : nat -> Outcome GeminiService.ContentResponse) (count : nat)
    : list Event :=
  repeat (GatewayCall (generateContent model)) count
  ++ concat ((fun i => match gw i with
                       | Rejects => [ConsoleError]
                       | Resolves _ => []
                       end) <$> seq 0 count).

Arguments synthesizedFrames : simpl never.
Arguments synthesisEvents : simpl never.

(** The environment of a pipeline run whose first gateway call fails. *)
Definition failing_gateway (env : App.PipelineEnv) : App.PipelineEnv :=
  App.mkPipeline (App.aistudio env) (App.faceClient env) Rejects
    (App.sceneClient env) (App.sceneAnalysis env)
    (App.framesClient env) (App.frameAnswers env) (App.randomUUID env).

(** A scene list whose every scene ends on the image the next one starts
    with. *)
Definition chained (l : list SceneState) : Prop :=
  forall j s t, l !! j = Some s -> l !! (j + 1) = Some t ->
    endImage s = startImage t.

(** The gateway calls among the events of a run. *)
Definition isGatewayCall (e : Event) : bool :=
  match e with
  | GatewayCall _ => true
  | _ => false
  end.

Definition gatewayCalls (events : list Event) : nat :=
  length (List.filter isGatewayCall events).


(** The events of a video job that was polled [n] times. *)
Fixpoint pollEvents (n : nat) : list Event :=
  match n with
  | 0 => []
  | S n' => Sleep 5000 :: GatewayCall getVideosOperation :: pollEvents n'
  end.

(** Every field of a scene that no regeneration writes: all but the two
    images, the video reference, the status and the regeneration flag. *)
Definition same_but_frames (s s' : SceneState) : Prop :=
  id s' = id s /\ index s' = index s /\ script s' = script s /\
  movementDescription s' = movementDescription s /\
  expressionDescription s' = expressionDescription s /\
  recommendedDuration s' = recommendedDuration s /\
  targetResolution s' = targetResolution s /\
  endFrameActionPrompt s' = endFrameActionPrompt s /\
  isProcessing s' = isProcessing s /\
  errorMessage s' = errorMessage s.


(** Every field of a scene that duration analysis does not write: all but
    the recommended duration and the processing flag. *)
Definition same_but_duration (s s' : SceneState) : Prop :=
  with_isProcessing (isProcessing s)
    (with_recommendedDuration (recommendedDuration s) s') = s.

(** The five edits a card sends to the application, and the handler each
    one calls. *)
Inductive Edit :=
| EditScript (text : str)
| EditMovement (text : str)
| EditExpression (text : str)
| EditActionPrompt (text : str)
| EditResolution (resolution : Resolution).

Definition applyEdit (i : str) (e : Edit) : M unit :=
  match e with
  | EditScript text => App.updateScript i text
  | EditMovement text => App.updateMovement i text
  | EditExpression text => App.updateExpression i text
  | EditActionPrompt text => App.updateActionPrompt i text
  | EditResolution resolution => App.updateResolution i resolution
  end.

(** The scene updater of an edit. *)
Definition editUpdater (e : Edit) : SceneState -> SceneState :=
  match e with
  | EditScript text =>
      fun s => with_recommendedDuration None (with_script text s)
  | EditMovement text => with_movementDescription text
  | EditExpression text => with_expressionDescription text
  | EditActionPrompt text => with_endFrameActionPrompt text
  | EditResolution resolution => with_targetResolution resolution
  end.

(** The control an edit comes from. *)
Definition editKind (e : Edit) : nat :=
  match e with
  | EditScript _ => 0
  | EditMovement _ => 1
  | EditExpression _ => 2
  | EditActionPrompt _ => 3
  | EditResolution _ => 4
  end.

(** A credential is selected, or the selection dialog does not fail. *)
Definition credential_ready (a : AppState) (key : option (Outcome unit))
    : Prop :=
  isApiKeySelected a = true \/ key <> Some Rejects.

(** What an awaited answer becomes in the program. *)
Definition settled {A} (o : Outcome A) : Res A :=
  match o with
  | Resolves a => Return a
  | Rejects => Throw Rejected
  end.

(** Unfolding of the monad, for running a program on symbolic worlds. *)
Ltac run_monad :=
  unfold App.invoke, await_gateway, settle, try_catch, throw, pending, emit,
    App.setState, modifyStore, mbind, M_bind, mret, M_ret; cbn;
  rewrite <- ?app_assoc; cbn [app].

(** Sample data for the worked instances. *)
Module Sample.

Definition scene (i : string) (k : nat) (prompt text : str) : SceneState :=
  {| id := lit i; index := k;
     startImage := Some (lit "frame") ; endImage := Some (lit "frame'");
     script := text; movementDescription := [];
     expressionDescription := []; recommendedDuration := None;
     targetResolution := res_1080p; endFrameActionPrompt := prompt;
     isRegeneratingImage := false; generatedVideoUrl := Some (lit "blob:old");
     isProcessing := false; status := complete; errorMessage := None |}.

Definition world (l : list SceneState) : World :=
  mkWorld
    (mkStore
       (mkApp sequencing
          (mkConfig (Some (lit "data:image/jpeg;base64,AAAA"))
             (Some (lit "data:image/jpeg;base64,BBBB")) 10
             gemini_3_pro_image_preview [])
          l true)
       [] (lit "Scene: s. Face: f") (lit "f") (lit "s"))
    [].

Definition answer (t : string) : Outcome GeminiService.ContentResponse :=
  Resolves (GeminiService.mkResponse (Some (lit t)) []).

Definition picture (d : string) : Outcome GeminiService.ContentResponse :=
  Resolves (GeminiService.mkResponse None
              [GeminiService.mkPart None;
               GeminiService.mkPart
                 (Some (GeminiService.mkInline (Some (lit d))))]).

End Sample.

(* ===================================================================== *)
(** ** Facts about the JavaScript primitives *)
(* ===================================================================== *)

Section JSFacts.

Lemma eqb_eq (a b : str) : JS.eqb a b = true <-> a = b.
Proof.
  revert b; induction a as [|x a IH]; intros [|y b]; simpl;
    try (split; [discriminate | congruence]); [tauto|].
  rewrite andb_true_iff, N.eqb_eq, IH. split.
  - intros [-> ->]; reflexivity.
  - intros [= -> ->]; auto.
Qed.

Lemma eqb_refl (a : str) : JS.eqb a a = true.
Proof. apply eqb_eq; reflexivity. Qed.

Lemma eqb_neq (a b : str) : JS.eqb a b = false <-> a <> b.
Proof.
  rewrite <- eqb_eq. destruct (JS.eqb a b); split; congruence.
Qed.

Lemma dropWhile_nil (p : N -> bool) (s : str) :
  JS.dropWhile p s = [] <-> forallb p s = true.
Proof.
  induction s as [|c s IH]; simpl; [tauto|].
  destruct (p c); simpl; [exact IH | split; discriminate].
Qed.

Lemma forallb_dropWhile (p : N -> bool) (s : str) :
  forallb p (JS.dropWhile p s) = forallb p s.
Proof.
  induction s as [|c s IH]; simpl; [reflexivity|].
  destruct (p c) eqn:E; simpl; [exact IH | now rewrite E].
Qed.

Lemma forallb_rev (p : N -> bool) (s : str) :
  forallb p (rev s) = forallb p s.
Proof.
  induction s as [|c s IH]; simpl; [reflexivity|].
  rewrite forallb_app, IH; simpl. rewrite andb_true_r. apply andb_comm.
Qed.

(** [!s.trim()] holds exactly for the empty and the whitespace-only
    strings. *)
Lemma trim_blank (s : str) :
  JS.truthy (JS.trim s) = false <-> forallb JS.isWhiteSpace s = true.
Proof.
  unfold JS.trim, JS.trimEnd, JS.trimStart.
  rewrite <- (forallb_dropWhile JS.isWhiteSpace s).
  rewrite <- (forallb_rev _ (JS.dropWhile _ s)).
  rewrite <- dropWhile_nil.
  destruct (JS.dropWhile JS.isWhiteSpace (rev _)) as [|c r]; simpl.
  - tauto.
  - destruct (rev r ++ [c]) eqn:E; simpl.
    + destruct (rev r); discriminate.
    + split; discriminate.
Qed.

Lemma filter_dropWhile (p q : N -> bool) (s : str) :
  (forall c, p c = true -> q c = false) ->
  List.filter q (JS.dropWhile p s) = List.filter q s.
Proof.
  intros Hpq; induction s as [|c s IH]; simpl; [reflexivity|].
  destruct (p c) eqn:E; simpl; [|reflexivity].
  now rewrite (Hpq c E).
Qed.

Lemma filter_trim (q : N -> bool) (s : str) :
  (forall c, JS.isWhiteSpace c = true -> q c = false) ->
  List.filter q (JS.trim s) = List.filter q s.
Proof.
  intros Hq. unfold JS.trim, JS.trimEnd, JS.trimStart.
  rewrite List.filter_rev, (filter_dropWhile _ _ _ Hq).
  rewrite List.filter_rev, rev_involutive.
  apply filter_dropWhile, Hq.
Qed.

Lemma whitespace_not_numeric (c : N) :
  JS.isWhiteSpace c = true -> negb (JS.notDigitOrDot c) = false.
Proof.
  unfold JS.isWhiteSpace, JS.notDigitOrDot, JS.isDigit, JS.isDot.
  rewrite negb_involutive.
  repeat rewrite orb_true_iff. repeat rewrite andb_true_iff.
  repeat rewrite N.leb_le. repeat rewrite N.eqb_eq.
  intros H. apply orb_false_iff; split.
  - apply andb_false_iff.
    destruct (N.leb_spec 48 c); [right; apply N.leb_gt; lia | now left].
  - apply N.eqb_neq; lia.
Qed.

Lemma findIndex_Some {A} (p : A -> bool) (l : list A) (i : nat) :
  JS.findIndex p l = Some i ->
  exists x, l !! i = Some x /\ p x = true /\
            forall j y, j < i -> l !! j = Some y -> p y = false.
Proof.
  revert i; induction l as [|x l IH]; intros i; simpl; [discriminate|].
  destruct (p x) eqn:E.
  - intros [= <-]. exists x; repeat split; auto. intros j y Hj; lia.
  - destruct (JS.findIndex p l) as [k|]; simpl; [|discriminate].
    intros [= <-]. destruct (IH k eq_refl) as (z & Hz & Hp & Hmin).
    exists z; repeat split; auto.
    intros [|j] y Hj; simpl.
    + intros [= <-]; exact E.
    + apply Hmin; lia.
Qed.

Lemma findIndex_lt {A} (p : A -> bool) (l : list A) (i : nat) :
  JS.findIndex p l = Some i -> i < length l.
Proof.
  intros H. destruct (findIndex_Some _ _ _ H) as (x & Hx & _).
  eapply lookup_lt_Some; eauto.
Qed.

Lemma find_findIndex {A} (p : A -> bool) (l : list A) :
  JS.find p l = (JS.findIndex p l ≫= fun i => l !! i).
Proof.
  induction l as [|x l IH]; simpl; [reflexivity|].
  destruct (p x); simpl; [reflexivity|].
  rewrite IH. destruct (JS.findIndex p l); reflexivity.
Qed.

(** With pairwise distinct identifiers, the scene found for the
    identifier of scene [i] is scene [i]. *)
Lemma findIndex_unique (l : list SceneState) (i : nat) (s : SceneState) :
  NoDup (id <$> l) -> l !! i = Some s ->
  JS.findIndex (fun x => JS.eqb (id x) (id s)) l = Some i.
Proof.
  revert i; induction l as [|x l IH]; intros i Hnd Hi; [discriminate|].
  rewrite fmap_cons in Hnd. apply NoDup_cons in Hnd as [Hx Hnd].
  destruct i as [|i]; simpl in *.
  - injection Hi as ->. now rewrite eqb_refl.
  - destruct (JS.eqb (id x) (id s)) eqn:E.
    + apply eqb_eq in E. exfalso; apply Hx. rewrite E.
      apply list_elem_of_fmap. exists s; split; auto.
      eapply list_elem_of_lookup_2; eauto.
    + now rewrite (IH i Hnd Hi).
Qed.

End JSFacts.


(* ===================================================================== *)
(** ** Scene updaters *)
(* ===================================================================== *)

Section Updaters.

Lemma lookup_mapScene (i : str) f (a : AppState) (j : nat) :
  scenes (App.mapScene i f a) !! j
  = (fun s => if JS.eqb (id s) i then f s else s) <$> scenes a !! j.
Proof. unfold App.mapScene; simpl. apply list_lookup_fmap. Qed.

Lemma length_mapScene (i : str) f (a : AppState) :
  length (scenes (App.mapScene i f a)) = length (scenes a).
Proof. unfold App.mapScene; simpl. apply length_fmap. Qed.

Lemma mapScene_frame (i : str) f (a : AppState) :
  same_frame a (App.mapScene i f a).
Proof. repeat split. Qed.

End Updaters.

(* ===================================================================== *)
(** ** Editing a script *)
(* ===================================================================== *)

(** C10. [updateScript id text] returns without an event and touches the
    scene list only: the scene at any position [j] keeps its place; when its
    identifier is [id] its script becomes [text], its recommended duration
    is reset to [null] and every other field is as before; a scene with
    another identifier is unchanged. *)
Theorem updateScript_resets_duration
    (w : World) (i text : str) (j : nat) (s : SceneState) :
  scenes_of w !! j = Some s ->
  exists w' s',
    App.updateScript i text w = (Return tt, w') /\
    trace w' = trace w /\
    same_frame (state (store w)) (state (store w')) /\
    length (scenes_of w') = length (scenes_of w) /\
    scenes_of w' !! j = Some s' /\
    (id s = i ->
       script s' = text /\ recommendedDuration s' = None /\
       same_but_script s s') /\
    (id s <> i -> s' = s).
Proof.
  intros Hj.
  exists (mkWorld
            (with_state (App.mapScene i (fun s =>
                           with_recommendedDuration None (with_script text s))
                           (state (store w)))
               (store w))
            (trace w)).
  exists (if JS.eqb (id s) i
          then with_recommendedDuration None (with_script text s) else s).
  split; [reflexivity|]. split; [reflexivity|].
  split; [apply mapScene_frame|].
  split; [apply length_mapScene|].
  split.
  - unfold scenes_of in *; cbn [store state with_state].
    now rewrite lookup_mapScene, Hj.
  - split.
    + intros E. apply eqb_eq in E. rewrite E. repeat split.
    + intros E. apply eqb_neq in E. now rewrite E.
Qed.

Lemma updateScript_resets_duration_witness :
  let s0 := mkScene (lit "a") 0 (Some (lit "f0")) (Some (lit "f1"))
              (lit "old") [] [] (Some (lit "4.5")) res_1080p [] false None
              false idle None in
  let w0 := mkWorld
              (mkStore (mkApp sequencing (mkConfig None None 10
                          gemini_3_pro_image_preview []) [s0] true)
                 [] [] [] []) [] in
  exists w' s',
    App.updateScript (lit "a") (lit "new") w0 = (Return tt, w') /\
    trace w' = trace w0 /\
    same_frame (state (store w0)) (state (store w')) /\
    length (scenes_of w') = length (scenes_of w0) /\
    scenes_of w' !! 0 = Some s' /\
    (id s0 = lit "a" ->
       script s' = lit "new" /\ recommendedDuration s' = None /\
       same_but_script s0 s') /\
    (id s0 <> lit "a" -> s' = s0).
Proof.
  intros s0 w0.
  apply (updateScript_resets_duration w0 (lit "a") (lit "new") 0 s0).
  reflexivity.
Defined.

(* ===================================================================== *)
(** ** The chain builder *)
(* ===================================================================== *)

Lemma lookup_newScenes uuid (frames : list image) (i : nat) :
  i < length frames - 1 ->
  App.newScenes uuid frames !! i = Some (App.freshScene (uuid i) i frames).
Proof.
  intros Hi. unfold App.newScenes.
  rewrite list_lookup_fmap, lookup_seq_lt by exact Hi. reflexivity.
Qed.

Lemma length_newScenes uuid (frames : list image) :
  length (App.newScenes uuid frames) = length frames - 1.
Proof. unfold App.newScenes. now rewrite length_fmap, length_seq. Qed.

(** C2. From a frame sequence of at least two images the chain builder
    makes exactly [length frames - 1] scenes; scene [i] starts at
    [frames[i]] and ends at [frames[i+1]], its director-control texts are
    empty, its target resolution is 1080p and its status is idle; hence
    each scene ends on the image the next one starts with. *)
Theorem newScenes_chain (uuid : nat -> str) (frames : list image) :
  2 <= length frames ->
  length (App.newScenes uuid frames) = length frames - 1 /\
  (forall i, i < length frames - 1 ->
     exists s,
       App.newScenes uuid frames !! i = Some s /\
       frames !! i = Some (startImage s) /\
       frames !! (i + 1) = Some (endImage s) /\
       script s = [] /\ movementDescription s = [] /\
       expressionDescription s = [] /\ endFrameActionPrompt s = [] /\
       targetResolution s = res_1080p /\ status s = idle) /\
  (forall i s t,
     App.newScenes uuid frames !! i = Some s ->
     App.newScenes uuid frames !! (i + 1) = Some t ->
     endImage s = startImage t).
Proof.
  intros Hlen. split; [apply length_newScenes|]. split.
  - intros i Hi. exists (App.freshScene (uuid i) i frames).
    split; [now apply lookup_newScenes|].
    destruct (lookup_lt_is_Some_2 frames i) as [a Ha]; [lia|].
    destruct (lookup_lt_is_Some_2 frames (i + 1)) as [b Hb]; [lia|].
    unfold App.freshScene; cbn [startImage endImage script status
      movementDescription expressionDescription endFrameActionPrompt
      targetResolution].
    rewrite Ha, Hb. repeat split.
  - intros i s t Hs Ht.
    assert (Hi : i + 1 < length frames - 1).
    { apply lookup_lt_Some in Ht. now rewrite length_newScenes in Ht. }
    rewrite lookup_newScenes in Hs by lia.
    rewrite lookup_newScenes in Ht by lia.
    injection Hs as <-. injection Ht as <-. reflexivity.
Qed.

Lemma newScenes_chain_witness :
  let frames := [Some (lit "f0"); Some (lit "f1"); Some (lit "f2")] in
  let uuid := fun i : nat => lit "scene-" ++ [N.of_nat (48 + i)] in
  length (App.newScenes uuid frames) = length frames - 1 /\
  (forall i, i < length frames - 1 ->
     exists s,
       App.newScenes uuid frames !! i = Some s /\
       frames !! i = Some (startImage s) /\
       frames !! (i + 1) = Some (endImage s) /\
       script s = [] /\ movementDescription s = [] /\
       expressionDescription s = [] /\ endFrameActionPrompt s = [] /\
       targetResolution s = res_1080p /\ status s = idle) /\
  (forall i s t,
     App.newScenes uuid frames !! i = Some s ->
     App.newScenes uuid frames !! (i + 1) = Some t ->
     endImage s = startImage t).
Proof.
  intros frames uuid. apply (newScenes_chain uuid frames). simpl. lia.
Defined.

(* ===================================================================== *)
(** ** The analysis stage *)
(* ===================================================================== *)

Lemma or_else_truthy (o : option str) (d : str) :
  JS.truthy d = true -> JS.truthy (JS.or_else o d) = true.
Proof.
  intros Hd. destruct o as [s|]; simpl; auto.
  destruct (JS.truthy s) eqn:E; auto.
Qed.

Lemma truthy_nonempty (s : str) : JS.truthy s = true <-> s <> [].
Proof. destruct s; simpl; split; congruence. Qed.

(** C9. Whatever text the gateway answers with, [analyzeFaceFeatures] and
    [analyzeSceneFeatures] return a non-empty description: the text of the
    answer when it has one, else the static fallback.  (A rejected gateway
    call returns nothing, and neither does a client that cannot be
    constructed: the failure propagates to the caller.) *)
Theorem analysis_never_empty
    (img : image) (r : GeminiService.ContentResponse) (w : World) :
  exists face scene,
    fst (GeminiService.analyzeFaceFeatures img (Resolves tt) (Resolves r) w)
      = Return face /\
    fst (GeminiService.analyzeSceneFeatures img (Resolves tt) (Resolves r) w)
      = Return scene /\
    face <> [] /\ scene <> [] /\
    face = (if JS.truthy_opt (GeminiService.text r)
            then default [] (GeminiService.text r)
            else lit "Detailed face reference.") /\
    scene = (if JS.truthy_opt (GeminiService.text r)
             then default [] (GeminiService.text r)
             else lit "Cinematic scene description.") /\
    fst (GeminiService.analyzeFaceFeatures img (Resolves tt) Rejects w)
      = Throw Rejected /\
    fst (GeminiService.analyzeSceneFeatures img (Resolves tt) Rejects w)
      = Throw Rejected /\
    (forall gw,
       fst (GeminiService.analyzeFaceFeatures img Rejects gw w)
         = Throw Rejected /\
       fst (GeminiService.analyzeSceneFeatures img Rejects gw w)
         = Throw Rejected).
Proof.
  exists (JS.or_else (GeminiService.text r) (lit "Detailed face reference.")).
  exists (JS.or_else (GeminiService.text r)
            (lit "Cinematic scene description.")).
  split; [reflexivity|]. split; [reflexivity|].
  split; [apply truthy_nonempty, or_else_truthy; reflexivity|].
  split; [apply truthy_nonempty, or_else_truthy; reflexivity|].
  destruct (GeminiService.text r) as [t|]; simpl;
    [destruct (JS.truthy t)|]; repeat split.
Qed.

(* ===================================================================== *)
(** ** Duration analysis *)
(* ===================================================================== *)

Lemma replace_keeps_digits_and_dots (t : str) :
  JS.replaceAll_empty JS.notDigitOrDot (JS.trim t) = List.filter digitOrDot t.
Proof.
  unfold JS.replaceAll_empty.
  rewrite filter_trim by apply whitespace_not_numeric.
  apply List.filter_ext. intros c. unfold JS.notDigitOrDot, digitOrDot.
  apply negb_involutive.
Qed.

Lemma not_blank_guard (script : str) :
  forallb JS.isWhiteSpace script = false ->
  negb (JS.truthy script) || (length (JS.trim script) =? 0) = false.
Proof.
  intros H. apply orb_false_iff; split.
  - destruct script; [discriminate | reflexivity].
  - destruct (JS.truthy (JS.trim script)) eqn:E.
    + destruct (JS.trim script); [discriminate | reflexivity].
    + apply trim_blank in E. congruence.
Qed.

Lemma estimateSpeakingDuration_resolves script r (w : World) :
  forallb JS.isWhiteSpace script = false ->
  GeminiService.estimateSpeakingDuration script (Resolves tt) (Resolves r) w
  = (Return (List.filter digitOrDot (default [] (GeminiService.text r))),
     mkWorld (store w)
       (trace w ++ [GatewayCall (generateContent
                                   (lit "gemini-2.5-flash-latest"))])).
Proof.
  intros H. unfold GeminiService.estimateSpeakingDuration.
  rewrite (not_blank_guard _ H). run_monad.
  do 2 f_equal. destruct (GeminiService.text r) as [t|]; simpl; [|reflexivity].
  rewrite <- replace_keeps_digits_and_dots.
  destruct (JS.trim t); reflexivity.
Qed.

Lemma estimateSpeakingDuration_rejects script (w : World) :
  forallb JS.isWhiteSpace script = false ->
  GeminiService.estimateSpeakingDuration script (Resolves tt) Rejects w
  = (Return (lit "8"),
     mkWorld (store w)
       (trace w ++ [GatewayCall (generateContent
                                   (lit "gemini-2.5-flash-latest"));
                    ConsoleError])).
Proof.
  intros H. unfold GeminiService.estimateSpeakingDuration.
  rewrite (not_blank_guard _ H). run_monad. reflexivity.
Qed.

(** Without a client nothing is requested: the constructor throws ahead
    of the [try]. *)
Lemma estimateSpeakingDuration_no_client script gw (w : World) :
  forallb JS.isWhiteSpace script = false ->
  GeminiService.estimateSpeakingDuration script Rejects gw w
  = (Throw Rejected, w).
Proof.
  intros H. unfold GeminiService.estimateSpeakingDuration.
  rewrite (not_blank_guard _ H). destruct w. reflexivity.
Qed.

(** The run of [analyzeDuration] on a scene whose script is not blank. *)
Lemma analyzeDuration_run (w : World) (i : str) (scene : SceneState) gw :
  JS.find (fun s => JS.eqb (id s) i) (scenes_of w) = Some scene ->
  forallb JS.isWhiteSpace (script scene) = false ->
  App.invoke (fun snapshot =>
      App.analyzeDuration snapshot i (Resolves tt) gw) w
  = (Return tt,
     mkWorld
       (with_state
          (App.mapScene i
             (fun s =>
                with_isProcessing false
                  (with_recommendedDuration
                     (Some match gw with
                           | Resolves r =>
                               List.filter digitOrDot
                                 (default [] (GeminiService.text r))
                           | Rejects => lit "8"
                           end) s))
             (App.mapScene i (with_isProcessing true) (state (store w))))
          (store w))
       (trace w
          ++ GatewayCall (generateContent (lit "gemini-2.5-flash-latest"))
             :: match gw with
                | Resolves _ => []
                | Rejects => [ConsoleError]
                end)).
Proof.
  intros Hfind Hscript. unfold App.invoke, App.analyzeDuration.
  unfold scenes_of in Hfind. rewrite Hfind.
  assert (Hguard : negb (JS.truthy (JS.trim (script scene))) = false).
  { destruct (JS.truthy (JS.trim (script scene))) eqn:E; [reflexivity|].
    apply trim_blank in E. congruence. }
  rewrite Hguard.
  unfold try_catch, App.setState, modifyStore, mbind, M_bind.
  cbn [fst snd store trace].
  destruct gw as [r|].
  - rewrite estimateSpeakingDuration_resolves by exact Hscript. reflexivity.
  - rewrite estimateSpeakingDuration_rejects by exact Hscript. reflexivity.
Qed.

(** The run of [analyzeDuration] when no client can be constructed: the
    handler's own [catch] clears the flag and stores nothing. *)
Lemma analyzeDuration_no_client_run (w : World) (i : str)
    (scene : SceneState) gw :
  JS.find (fun s => JS.eqb (id s) i) (scenes_of w) = Some scene ->
  forallb JS.isWhiteSpace (script scene) = false ->
  App.invoke (fun snapshot => App.analyzeDuration snapshot i Rejects gw) w
  = (Return tt,
     mkWorld
       (with_state
          (App.mapScene i (with_isProcessing false)
             (App.mapScene i (with_isProcessing true) (state (store w))))
          (store w))
       (trace w)).
Proof.
  intros Hfind Hscript. unfold App.invoke, App.analyzeDuration.
  unfold scenes_of in Hfind. rewrite Hfind.
  assert (Hguard : negb (JS.truthy (JS.trim (script scene))) = false).
  { destruct (JS.truthy (JS.trim (script scene))) eqn:E; [reflexivity|].
    apply trim_blank in E. congruence. }
  rewrite Hguard.
  unfold try_catch, App.setState, modifyStore, mbind, M_bind.
  cbn [fst snd store trace].
  rewrite estimateSpeakingDuration_no_client by exact Hscript. reflexivity.
Qed.

(** What [analyzeDuration] stores for a scene whose script is not blank:
    the gateway's text with every character but the digits and ['.']
    removed, so that the raw text ["approx. 4.5 seconds"] is stored as
    [".4.5"] (the full stop of ["approx."] stays); when the gateway call
    fails the fallback ["8"] is stored. *)
Theorem analyzeDuration_stores_digits_and_dots
    (w : World) (i : str) (scene : SceneState) (j : nat) (s : SceneState)
    (gw : Outcome GeminiService.ContentResponse) :
  JS.find (fun s => JS.eqb (id s) i) (scenes_of w) = Some scene ->
  forallb JS.isWhiteSpace (script scene) = false ->
  scenes_of w !! j = Some s ->
  id s = i ->
  exists w' s',
    App.invoke (fun snapshot =>
        App.analyzeDuration snapshot i (Resolves tt) gw) w
      = (Return tt, w') /\
    scenes_of w' !! j = Some s' /\
    isProcessing s' = false /\
    recommendedDuration s'
      = Some match gw with
             | Resolves r =>
                 List.filter digitOrDot (default [] (GeminiService.text r))
             | Rejects => lit "8"
             end /\
    List.filter digitOrDot (lit "approx. 4.5 seconds") = lit ".4.5".
Proof.
  intros Hfind Hscript Hj Hid.
  eexists; eexists.
  split; [apply (analyzeDuration_run w i scene gw Hfind Hscript)|].
  unfold scenes_of in *; cbn [store state with_state].
  rewrite !lookup_mapScene, Hj. cbn [fmap option_fmap option_map].
  apply eqb_eq in Hid. rewrite Hid. cbn [id with_isProcessing].
  rewrite Hid. repeat split.
Qed.

Lemma analyzeDuration_stores_digits_and_dots_witness :
  let w := Sample.world [Sample.scene "a" 0 [] (lit "Hello there.")] in
  exists w' s',
    App.invoke (fun snapshot =>
        App.analyzeDuration snapshot (lit "a") (Resolves tt)
          (Sample.answer "approx. 4.5 seconds")) w
      = (Return tt, w') /\
    scenes_of w' !! 0 = Some s' /\
    isProcessing s' = false /\
    recommendedDuration s'
      = Some (List.filter digitOrDot
                (default [] (Some (lit "approx. 4.5 seconds")))) /\
    List.filter digitOrDot (lit "approx. 4.5 seconds") = lit ".4.5".
Proof.
  intros w.
  apply (analyzeDuration_stores_digits_and_dots w (lit "a")
           (Sample.scene "a" 0 [] (lit "Hello there.")) 0
           (Sample.scene "a" 0 [] (lit "Hello there."))
           (Sample.answer "approx. 4.5 seconds")); reflexivity.
Defined.

(** C3. On the specification's own example the code does not extract the
    number: for the raw gateway text ["approx. 4.5 seconds"] (the scene's
    script is ["Hello there."]) [estimateSpeakingDuration] returns
    [".4.5"], and [".4.5"], not ["4.5"], is what [analyzeDuration] stores.
    The filter [/[^0-9.]/g], which the source comments with
    [// Extract just the number], keeps the full stop of ["approx."]. *)
Lemma duration_example_keeps_first_dot :
  let w := Sample.world [Sample.scene "a" 0 [] (lit "Hello there.")] in
  let w' := snd (App.invoke (fun snapshot =>
                   App.analyzeDuration snapshot (lit "a") (Resolves tt)
                     (Sample.answer "approx. 4.5 seconds")) w) in
  fst (GeminiService.estimateSpeakingDuration (lit "Hello there.")
         (Resolves tt) (Sample.answer "approx. 4.5 seconds") w)
    = Return (lit ".4.5") /\
  recommendedDuration <$> scenes_of w' !! 0 = Some (Some (lit ".4.5")) /\
  recommendedDuration <$> scenes_of w' !! 0 <> Some (Some (lit "4.5")).
Proof.
  vm_compute. repeat split. discriminate.
Qed.

(* ===================================================================== *)
(** ** Validation no-ops *)
(* ===================================================================== *)

Lemma find_Some_findIndex (l : list SceneState) (i : str) (scene : SceneState) :
  JS.find (fun s => JS.eqb (id s) i) l = Some scene ->
  exists k, JS.findIndex (fun s => JS.eqb (id s) i) l = Some k /\
            l !! k = Some scene.
Proof.
  rewrite find_findIndex.
  destruct (JS.findIndex _ l) as [k|]; simpl; [|discriminate].
  intros H; exists k; auto.
Qed.

(** C6. On a scene whose script is empty or all whitespace,
    [analyzeDuration] returns at once: the world, store and trace alike, is
    as before, so no gateway call went out and no state changed, whatever
    the gateway would have answered and whether or not a client could have
    been constructed.  The same holds of
    [regenerateEndFrame] on a scene whose action prompt is empty or all
    whitespace. *)
Theorem blank_input_is_noop
    (w : World) (i : str) (scene : SceneState)
    (client : Outcome unit) (gw : Outcome GeminiService.ContentResponse) :
  JS.find (fun s => JS.eqb (id s) i) (scenes_of w) = Some scene ->
  (forallb JS.isWhiteSpace (script scene) = true ->
   App.invoke (fun snapshot => App.analyzeDuration snapshot i client gw) w
   = (Return tt, w)) /\
  (forallb JS.isWhiteSpace (endFrameActionPrompt scene) = true ->
   App.invoke (fun snapshot => App.regenerateEndFrame snapshot i client gw) w
   = (Return tt, w)).
Proof.
  intros Hfind. split; intros Hblank; apply trim_blank in Hblank.
  - unfold App.invoke, App.analyzeDuration.
    unfold scenes_of in Hfind. rewrite Hfind, Hblank. reflexivity.
  - destruct (find_Some_findIndex _ _ _ Hfind) as (k & Hk & Hscene).
    unfold App.invoke, App.regenerateEndFrame.
    unfold scenes_of in Hk, Hscene. rewrite Hk, Hscene, Hblank. reflexivity.
Qed.

Lemma blank_input_is_noop_witness :
  let scene := Sample.scene "a" 0 (lit "  ") [] in
  let w := Sample.world [scene] in
  App.invoke (fun snapshot =>
      App.analyzeDuration snapshot (lit "a") (Resolves tt)
        (Sample.answer "4.5")) w
  = (Return tt, w) /\
  App.invoke (fun snapshot =>
      App.regenerateEndFrame snapshot (lit "a") (Resolves tt)
        (Sample.picture "NEW")) w
  = (Return tt, w).
Proof.
  intros scene w. split.
  - apply (blank_input_is_noop w (lit "a") scene (Resolves tt)
             (Sample.answer "4.5")); reflexivity.
  - apply (blank_input_is_noop w (lit "a") scene (Resolves tt)
             (Sample.picture "NEW")); reflexivity.
Defined.

(* ===================================================================== *)
(** ** Regenerating an end frame *)
(* ===================================================================== *)

Section Regeneration.

Variable w : World.
Variable i : str.
Variable sceneIndex : nat.
Variable scene : SceneState.

Hypothesis found :
  JS.findIndex (fun s => JS.eqb (id s) i) (scenes_of w) = Some sceneIndex.
Hypothesis at_index : scenes_of w !! sceneIndex = Some scene.
Hypothesis prompted :
  forallb JS.isWhiteSpace (endFrameActionPrompt scene) = false.

Lemma prompt_guard :
  negb (JS.truthy (JS.trim (endFrameActionPrompt scene))) = false.
Proof using prompted.
  destruct (JS.truthy (JS.trim (endFrameActionPrompt scene))) eqn:E;
    [reflexivity|].
  apply trim_blank in E. congruence.
Qed.

(** A failed regeneration: the flag goes up, then down, around an alert. *)
Lemma regenerateEndFrame_failure_run client gw :
  client = Rejects \/ yields_no_image gw = true ->
  exists events,
    App.invoke (fun snapshot =>
        App.regenerateEndFrame snapshot i client gw) w
    = (Return tt,
       mkWorld
         (with_state
            (App.mapScene i (with_isRegeneratingImage false)
               (App.mapScene i (with_isRegeneratingImage true)
                  (state (store w))))
            (store w))
         (trace w ++ events
            ++ [ConsoleError;
                Alert (lit "Failed to regenerate image. Try again.")])).
Proof using found at_index prompted.
  intros Hgw. unfold App.invoke, App.regenerateEndFrame.
  unfold scenes_of in found, at_index. rewrite found, at_index, prompt_guard.
  unfold GeminiService.regenerateSingleFrame.
  destruct (mainImage (config (state (store w)))) as [main|];
    [destruct (faceReference (config (state (store w)))) as [face|]|].
  - destruct client as [[]|]; [|exists []; run_monad; reflexivity].
    destruct Hgw as [Hgw|Hgw]; [discriminate|].
    destruct gw as [r|]; simpl in Hgw.
    + apply negb_true_iff in Hgw.
      exists [GatewayCall (generateContent
                (App.modelName (selectedModel (config (state (store w))))))].
      run_monad. rewrite Hgw. cbn. rewrite <- ?app_assoc. reflexivity.
    + exists [GatewayCall (generateContent
                (App.modelName (selectedModel (config (state (store w))))));
              ConsoleError].
      run_monad. reflexivity.
  - exists []. run_monad. reflexivity.
  - exists []. run_monad. reflexivity.
Qed.

(** A successful regeneration: the flag goes up, then the chain update. *)
Lemma regenerateEndFrame_success_run gw img :
  references_present (state (store w)) ->
  yields_image gw img ->
  App.invoke (fun snapshot =>
      App.regenerateEndFrame snapshot i (Resolves tt) gw) w
  = (Return tt,
     mkWorld
       (with_state
          (App.chainUpdate sceneIndex (Some img)
             (App.mapScene i (with_isRegeneratingImage true)
                (state (store w))))
          (store w))
       (trace w
          ++ [GatewayCall (generateContent
                (App.modelName
                   (selectedModel (config (state (store w))))))])).
Proof using found at_index prompted.
  intros [[main Hmain] [face Hface]] (r & -> & Hr & Himg).
  unfold App.invoke, App.regenerateEndFrame.
  unfold scenes_of in found, at_index. rewrite found, at_index, prompt_guard.
  rewrite Hmain, Hface. unfold GeminiService.regenerateSingleFrame.
  run_monad. rewrite Hr. cbn.
  destruct img as [|c img']; [congruence|]. reflexivity.
Qed.

End Regeneration.

Section ChainUpdate.

Variables (k : nat) (img : image) (a : AppState).

Lemma length_chainUpdate :
  length (scenes (App.chainUpdate k img a)) = length (scenes a).
Proof.
  unfold App.chainUpdate; cbn [scenes with_scenes].
  destruct (_ <? _); now rewrite ?length_alter.
Qed.

Lemma lookup_chainUpdate_current :
  scenes (App.chainUpdate k img a) !! k
  = (fun s => with_status idle (with_generatedVideoUrl None
               (with_isRegeneratingImage false (with_endImage img s))))
      <$> scenes a !! k.
Proof.
  unfold App.chainUpdate; cbn [scenes with_scenes].
  destruct (_ <? _).
  - rewrite list_lookup_alter_ne by lia. apply list_lookup_alter_eq.
  - apply list_lookup_alter_eq.
Qed.

Lemma lookup_chainUpdate_next :
  k + 1 < length (scenes a) ->
  scenes (App.chainUpdate k img a) !! (k + 1)
  = (fun s => with_status idle (with_generatedVideoUrl None
               (with_startImage img s)))
      <$> scenes a !! (k + 1).
Proof.
  intros Hlt. unfold App.chainUpdate; cbn [scenes with_scenes].
  rewrite length_alter.
  destruct (Nat.ltb_spec (k + 1) (length (scenes a))) as [_|]; [|lia].
  rewrite list_lookup_alter_eq, list_lookup_alter_ne by lia. reflexivity.
Qed.

Lemma lookup_chainUpdate_other (j : nat) :
  j <> k -> (j <> k + 1 \/ length (scenes a) <= k + 1) ->
  scenes (App.chainUpdate k img a) !! j = scenes a !! j.
Proof.
  intros Hk Hnext. unfold App.chainUpdate; cbn [scenes with_scenes].
  rewrite length_alter.
  destruct (Nat.ltb_spec (k + 1) (length (scenes a))).
  - rewrite !list_lookup_alter_ne by lia. reflexivity.
  - rewrite list_lookup_alter_ne by lia. reflexivity.
Qed.

Lemma chainUpdate_frame : same_frame a (App.chainUpdate k img a).
Proof. repeat split. Qed.

End ChainUpdate.

(** C7. When the regeneration of a scene's end frame fails (no client
    can be constructed, or the gateway call is rejected or brings no usable
    image), the handler reports it
    with an alert and returns; afterwards the scenes with the given
    identifier have [isRegeneratingImage] cleared and are otherwise as
    before, every other scene is as before, and so every scene keeps its
    start and end image. *)
Theorem regenerateEndFrame_failure_keeps_images
    (w : World) (i : str) (scene : SceneState)
    (client : Outcome unit) (gw : Outcome GeminiService.ContentResponse)
    (j : nat) (s : SceneState) :
  JS.find (fun s => JS.eqb (id s) i) (scenes_of w) = Some scene ->
  forallb JS.isWhiteSpace (endFrameActionPrompt scene) = false ->
  client = Rejects \/ yields_no_image gw = true ->
  scenes_of w !! j = Some s ->
  exists w' s' events,
    App.invoke (fun snapshot =>
        App.regenerateEndFrame snapshot i client gw) w
      = (Return tt, w') /\
    trace w' = trace w ++ events
                 ++ [ConsoleError;
                     Alert (lit "Failed to regenerate image. Try again.")] /\
    same_frame (state (store w)) (state (store w')) /\
    length (scenes_of w') = length (scenes_of w) /\
    scenes_of w' !! j = Some s' /\
    startImage s' = startImage s /\ endImage s' = endImage s /\
    (id s = i ->
       isRegeneratingImage s' = false /\ same_but_regenerating s s') /\
    (id s <> i -> s' = s).
Proof.
  intros Hfind Hprompt Hgw Hj.
  destruct (find_Some_findIndex _ _ _ Hfind) as (k & Hk & Hscene).
  destruct (regenerateEndFrame_failure_run w i k scene Hk Hscene Hprompt
              client gw Hgw) as (events & Hrun).
  eexists; exists (if JS.eqb (id s) i
                   then with_isRegeneratingImage false
                          (with_isRegeneratingImage true s)
                   else s); exists events.
  split; [exact Hrun|]. split; [reflexivity|].
  split; [repeat split|].
  unfold scenes_of in *; cbn [store state with_state].
  split; [now rewrite !length_mapScene|].
  split.
  { rewrite !lookup_mapScene, Hj. cbn [fmap option_fmap option_map].
    destruct (JS.eqb (id s) i) eqn:E; cbn [id with_isRegeneratingImage];
      now rewrite E. }
  destruct (JS.eqb (id s) i) eqn:E.
  - do 2 (split; [reflexivity|]). split.
    + intros _. split; [reflexivity | destruct s; reflexivity].
    + intros Hne. apply eqb_eq in E. contradiction.
  - do 2 (split; [reflexivity|]). split; [|reflexivity].
    intros He. apply eqb_neq in E. contradiction.
Qed.

Lemma regenerateEndFrame_failure_keeps_images_witness :
  let a := Sample.scene "a" 0 (lit "look up") [] in
  let b := Sample.scene "b" 1 [] [] in
  let w := Sample.world [a; b] in
  exists w' s' events,
    App.invoke (fun snapshot =>
        App.regenerateEndFrame snapshot (lit "a") (Resolves tt) Rejects) w
      = (Return tt, w') /\
    trace w' = trace w ++ events
                 ++ [ConsoleError;
                     Alert (lit "Failed to regenerate image. Try again.")] /\
    same_frame (state (store w)) (state (store w')) /\
    length (scenes_of w') = length (scenes_of w) /\
    scenes_of w' !! 0 = Some s' /\
    startImage s' = startImage a /\ endImage s' = endImage a /\
    (id a = lit "a" ->
       isRegeneratingImage s' = false /\ same_but_regenerating a s') /\
    (id a <> lit "a" -> s' = a).
Proof.
  intros a b w.
  apply (regenerateEndFrame_failure_keeps_images w (lit "a") a (Resolves tt)
           Rejects 0 a); try reflexivity.
  right; reflexivity.
Defined.

(** C1. When [regenerateEndFrame] succeeds with a new image on scene
    [sceneIndex] and that scene is not the last, then afterwards the end
    image of scene [sceneIndex] and the start image of scene
    [sceneIndex + 1] are both the new image, and both scenes have no
    generated video and status idle. *)
Theorem regenerateEndFrame_updates_both_scenes
    (w : World) (i : str) (sceneIndex : nat) (scene : SceneState)
    (gw : Outcome GeminiService.ContentResponse) (img : str) :
  JS.findIndex (fun s => JS.eqb (id s) i) (scenes_of w) = Some sceneIndex ->
  scenes_of w !! sceneIndex = Some scene ->
  forallb JS.isWhiteSpace (endFrameActionPrompt scene) = false ->
  references_present (state (store w)) ->
  yields_image gw img ->
  sceneIndex + 1 < length (scenes_of w) ->
  exists w' current next,
    App.invoke (fun snapshot =>
        App.regenerateEndFrame snapshot i (Resolves tt) gw) w
      = (Return tt, w') /\
    length (scenes_of w') = length (scenes_of w) /\
    scenes_of w' !! sceneIndex = Some current /\
    scenes_of w' !! (sceneIndex + 1) = Some next /\
    endImage current = Some img /\ startImage next = Some img /\
    generatedVideoUrl current = None /\ generatedVideoUrl next = None /\
    status current = idle /\ status next = idle /\
    isRegeneratingImage current = false.
Proof.
  intros Hk Hscene Hprompt Hrefs Hgw Hnext.
  pose proof (regenerateEndFrame_success_run w i sceneIndex scene Hk Hscene
                Hprompt gw img Hrefs Hgw) as Hrun.
  destruct (lookup_lt_is_Some_2 (scenes_of w) (sceneIndex + 1) Hnext)
    as [t Ht].
  unfold scenes_of in *.
  eexists; eexists; eexists.
  split; [exact Hrun|]. cbn [store state with_state].
  split; [now rewrite length_chainUpdate, length_mapScene|].
  split.
  { rewrite lookup_chainUpdate_current, lookup_mapScene, Hscene.
    reflexivity. }
  split.
  { rewrite lookup_chainUpdate_next by now rewrite length_mapScene.
    rewrite lookup_mapScene, Ht. reflexivity. }
  repeat split.
Qed.

Lemma regenerateEndFrame_updates_both_scenes_witness :
  let a := Sample.scene "a" 0 (lit "look up") [] in
  let b := Sample.scene "b" 1 [] [] in
  let w := Sample.world [a; b] in
  exists w' current next,
    App.invoke (fun snapshot =>
        App.regenerateEndFrame snapshot (lit "a") (Resolves tt)
          (Sample.picture "NEW")) w
      = (Return tt, w') /\
    length (scenes_of w') = length (scenes_of w) /\
    scenes_of w' !! 0 = Some current /\
    scenes_of w' !! (0 + 1) = Some next /\
    endImage current = Some (lit "NEW") /\
    startImage next = Some (lit "NEW") /\
    generatedVideoUrl current = None /\ generatedVideoUrl next = None /\
    status current = idle /\ status next = idle /\
    isRegeneratingImage current = false.
Proof.
  intros a b w.
  apply (regenerateEndFrame_updates_both_scenes w (lit "a") 0 a
           (Sample.picture "NEW") (lit "NEW")).
  - reflexivity.
  - reflexivity.
  - reflexivity.
  - split; eexists; reflexivity.
  - eexists; repeat split. discriminate.
  - simpl. lia.
Defined.

(** C8. When [regenerateEndFrame] succeeds on the last scene of the list,
    the list keeps its length, the last scene takes the new end image (its
    video is cleared, its status idle), and the scene at every other
    position is exactly as before. *)
Theorem regenerateEndFrame_last_touches_one
    (w : World) (i : str) (sceneIndex : nat) (scene : SceneState)
    (gw : Outcome GeminiService.ContentResponse) (img : str) :
  JS.findIndex (fun s => JS.eqb (id s) i) (scenes_of w) = Some sceneIndex ->
  scenes_of w !! sceneIndex = Some scene ->
  forallb JS.isWhiteSpace (endFrameActionPrompt scene) = false ->
  references_present (state (store w)) ->
  yields_image gw img ->
  sceneIndex + 1 = length (scenes_of w) ->
  exists w',
    App.invoke (fun snapshot =>
        App.regenerateEndFrame snapshot i (Resolves tt) gw) w
      = (Return tt, w') /\
    same_frame (state (store w)) (state (store w')) /\
    length (scenes_of w') = length (scenes_of w) /\
    scenes_of w' !! sceneIndex
      = Some (with_status idle (with_generatedVideoUrl None
                (with_isRegeneratingImage false
                   (with_endImage (Some img) scene)))) /\
    (forall j, j <> sceneIndex -> scenes_of w' !! j = scenes_of w !! j).
Proof.
  intros Hk Hscene Hprompt Hrefs Hgw Hlast.
  pose proof (regenerateEndFrame_success_run w i sceneIndex scene Hk Hscene
                Hprompt gw img Hrefs Hgw) as Hrun.
  destruct (findIndex_Some _ _ _ Hk) as (x & Hx & Hid & Hfirst).
  unfold scenes_of in *.
  eexists. split; [exact Hrun|]. cbn [store state with_state].
  split; [repeat split|].
  split; [now rewrite length_chainUpdate, length_mapScene|].
  split.
  - rewrite lookup_chainUpdate_current, lookup_mapScene, Hscene.
    cbn [fmap option_fmap option_map].
    assert (x = scene) as -> by congruence. rewrite Hid.
    destruct scene; reflexivity.
  - intros j Hj.
    rewrite lookup_chainUpdate_other;
      [| exact Hj | right; rewrite length_mapScene; lia].
    rewrite lookup_mapScene.
    destruct (scenes (state (store w)) !! j) as [y|] eqn:Hy; [|reflexivity].
    assert (j < sceneIndex).
    { apply lookup_lt_Some in Hy. lia. }
    cbn [fmap option_fmap option_map].
    now rewrite (Hfirst j y).
Qed.

Lemma regenerateEndFrame_last_touches_one_witness :
  let a := Sample.scene "a" 0 [] [] in
  let b := Sample.scene "b" 1 (lit "wave") [] in
  let w := Sample.world [a; b] in
  exists w',
    App.invoke (fun snapshot =>
        App.regenerateEndFrame snapshot (lit "b") (Resolves tt)
          (Sample.picture "NEW")) w
      = (Return tt, w') /\
    same_frame (state (store w)) (state (store w')) /\
    length (scenes_of w') = length (scenes_of w) /\
    scenes_of w' !! 1
      = Some (with_status idle (with_generatedVideoUrl None
                (with_isRegeneratingImage false
                   (with_endImage (Some (lit "NEW")) b)))) /\
    (forall j, j <> 1 -> scenes_of w' !! j = scenes_of w !! j).
Proof.
  intros a b w.
  apply (regenerateEndFrame_last_touches_one w (lit "b") 1 b
           (Sample.picture "NEW") (lit "NEW")).
  - reflexivity.
  - reflexivity.
  - reflexivity.
  - split; eexists; reflexivity.
  - eexists; repeat split. discriminate.
  - reflexivity.
Defined.

(* ===================================================================== *)
(** ** Generating a video *)
(* ===================================================================== *)

Lemma bind_assoc {A B C} (m : M A) (f : A -> M B) (g : B -> M C) (w : World) :
  (x ← m; y ← f x; g y) w = (y ← (x ← m; f x); g y) w.
Proof.
  unfold mbind, M_bind. destruct (m w) as [[a|e|] w']; reflexivity.
Qed.

Lemma bind_return {A B} (m : M A) (f : A -> M B) (w w1 : World) (a : A) :
  m w = (Return a, w1) -> (x ← m; f x) w = f a w1.
Proof. intros H. unfold mbind, M_bind. now rewrite H. Qed.

Lemma bind_throw {A B} (m : M A) (f : A -> M B) (w w1 : World) e :
  m w = (Throw e, w1) -> (x ← m; f x) w = (Throw e, w1).
Proof. intros H. unfold mbind, M_bind. now rewrite H. Qed.

(** The poll loop runs through the answers of a job still running and
    stops at the first other one. *)
Lemma pollUntilDone_settles waiting :
  forall operation o rest (w : World),
    GeminiService.done operation = false ->
    Forall still_running waiting ->
    ~ still_running o ->
    exists events,
      GeminiService.pollUntilDone operation (waiting ++ o :: rest) w
      = (settled o, mkWorld (store w) (trace w ++ events)).
Proof.
  induction waiting as [|a waiting IH]; intros operation o rest w Hop Hall Ho.
  - exists [Sleep 5000; GatewayCall getVideosOperation].
    cbn [app GeminiService.pollUntilDone]. rewrite Hop.
    destruct o as [op|]; run_monad; [|reflexivity].
    destruct rest; cbn; destruct (GeminiService.done op) eqn:E;
      try reflexivity; exfalso; apply Ho; exists op; auto.
  - apply Forall_cons in Hall as [(op & -> & Hrun) Hall].
    destruct (IH op o rest
                (mkWorld (store w)
                   (trace w ++ [Sleep 5000; GatewayCall getVideosOperation]))
                Hrun Hall Ho) as (events & Hev).
    exists ([Sleep 5000; GatewayCall getVideosOperation] ++ events).
    cbn [app GeminiService.pollUntilDone]. rewrite Hop.
    run_monad. cbn [app] in Hev. rewrite Hev. cbn [store trace].
    now rewrite <- app_assoc.
Qed.

(** Submission and polling together. *)
Lemma job_settles (env : GeminiService.VeoEnv) waiting o rest (w : World) :
  Forall still_running waiting ->
  answers env = waiting ++ o :: rest ->
  ~ still_running o ->
  exists events,
    (operation ← await_gateway
                   (generateVideos (lit "veo-3.1-generate-preview"))
                   (GeminiService.submission env);
     GeminiService.pollUntilDone operation (GeminiService.polls env)) w
    = (settled o, mkWorld (store w) (trace w ++ events)).
Proof.
  intros Hall Hans Ho. unfold answers in Hans.
  destruct waiting as [|a waiting]; cbn [app] in Hans.
  - injection Hans as Hsub Hpolls. rewrite Hsub.
    exists [GatewayCall (generateVideos (lit "veo-3.1-generate-preview"))].
    destruct o as [op|]; run_monad; [|reflexivity].
    destruct (GeminiService.polls env); cbn;
      destruct (GeminiService.done op) eqn:E;
      try reflexivity; exfalso; apply Ho; exists op; auto.
  - injection Hans as Hsub Hpolls. rewrite Hsub, Hpolls.
    apply Forall_cons in Hall as [(op & -> & Hrun) Hall].
    destruct (pollUntilDone_settles waiting op o rest
                (mkWorld (store w)
                   (trace w ++ [GatewayCall (generateVideos
                                   (lit "veo-3.1-generate-preview"))]))
                Hrun Hall Ho) as (events & Hev).
    exists (GatewayCall (generateVideos (lit "veo-3.1-generate-preview"))
              :: events).
    run_monad. cbn [store trace] in Hev. rewrite Hev.
    cbn [store trace]. now rewrite <- app_assoc.
Qed.

Lemma done_not_running (op : GeminiService.Operation) :
  GeminiService.done op = true -> ~ still_running (Resolves op).
Proof. intros Hd (op' & [= <-] & Hr). congruence. Qed.

Lemma rejected_not_running :
  ~ still_running (@Rejects GeminiService.Operation).
Proof. intros (op & [=] & _). Qed.

(** What [generateVeoSegment] gives under each verdict of the gateway:
    the object URL, or [null], or an exception. *)
Lemma generateVeoSegment_verdict
    (env : GeminiService.VeoEnv) (verdict : option str)
    (startImage endImage : image) (movement expression script context : str)
    (resolution : Resolution) (w : World) :
  GatewayVerdict env verdict ->
  exists result events,
    GeminiService.generateVeoSegment startImage endImage movement expression
      script context resolution env w
    = (result, mkWorld (store w) (trace w ++ events)) /\
    match verdict with
    | Some url => result = Return (Some url)
    | None => result = Return None \/ exists e, result = Throw e
    end.
Proof.
  intros Hv. unfold GeminiService.generateVeoSegment.
  destruct (GeminiService.client env) as [[]|] eqn:Hclient.
  2: { exists (Throw Rejected), [].
       split; [destruct w; cbn; now rewrite app_nil_r|].
       destruct Hv; try (right; eauto). congruence. }
  erewrite bind_return by reflexivity. unfold try_catch.
  rewrite bind_assoc.
  assert (Hjob : forall waiting o rest,
    Forall still_running waiting ->
    answers env = waiting ++ o :: rest ->
    ~ still_running o ->
    exists events,
      (operation ← await_gateway
                     (generateVideos (lit "veo-3.1-generate-preview"))
                     (GeminiService.submission env);
       GeminiService.pollUntilDone operation (GeminiService.polls env)) w
      = (settled o, mkWorld (store w) (trace w ++ events)))
    by (intros; eapply job_settles; eauto).
  unfold mbind at 1. unfold M_bind at 1.
  destruct Hv as [Hc | Hsub | waiting rest _ Hall Hans
                  | waiting op rest Hall Hans Hdone Huri
                  | waiting op rest Hall Hans Hdone Huri Hdl
                  | waiting op rest Hall Hans Hdone Huri Hdl _].
  - congruence.
  - destruct (Hjob [] Rejects (GeminiService.polls env)) as (events & ->);
      [constructor | unfold answers; now rewrite Hsub
       | apply rejected_not_running |].
    eexists; eexists; split; [run_monad; reflexivity | right; eauto].
  - destruct (Hjob waiting Rejects rest Hall Hans rejected_not_running)
      as (events & ->).
    eexists; eexists; split; [run_monad; reflexivity | right; eauto].
  - destruct (Hjob waiting (Resolves op) rest Hall Hans
                (done_not_running op Hdone)) as (events & ->).
    cbn [settled]. rewrite Huri.
    eexists; exists events; split; [run_monad; reflexivity | left; auto].
  - destruct (Hjob waiting (Resolves op) rest Hall Hans
                (done_not_running op Hdone)) as (events & ->).
    cbn [settled]. rewrite Huri, Hdl.
    eexists; eexists; split; [run_monad; reflexivity | right; eauto].
  - destruct (Hjob waiting (Resolves op) rest Hall Hans
                (done_not_running op Hdone)) as (events & ->).
    cbn [settled]. rewrite Huri, Hdl.
    eexists; eexists; split; [run_monad; reflexivity | reflexivity].
Qed.

(** One returning step of a sequence, with the projections of the world
    it leaves reduced. *)
Ltac step_return :=
  erewrite bind_return by reflexivity;
  cbn [store trace state loadingMsg contextDesc faceFeaturesCache
       sceneFeaturesCache with_state].

(** The credential step of [generateVideo] leaves the scenes alone. *)
Lemma credential_step (key : option (Outcome unit)) (w : World) :
  credential_ready (state (store w)) key ->
  exists w1 events,
    (if negb (isApiKeySelected (state (store w)))
     then App.handleKeySelect key else mret tt) w = (Return tt, w1) /\
    scenes_of w1 = scenes_of w /\
    config (state (store w1)) = config (state (store w)) /\
    trace w1 = trace w ++ events.
Proof.
  intros Hready.
  destruct (isApiKeySelected (state (store w))) eqn:E; cbn [negb].
  - exists w, []. rewrite app_nil_r. repeat split.
  - destruct Hready as [Hsel | Hkey]; [congruence|].
    unfold App.handleKeySelect, GeminiService.requestApiKey.
    destruct key as [[[]|]|]; [| congruence |].
    + eexists; exists [SelectKeyDialog].
      split; [run_monad; reflexivity | repeat split].
    + eexists; exists [].
      split; [run_monad; reflexivity | rewrite app_nil_r; repeat split].
Qed.

(** C4. For a scene of the list and a ready credential, [generateVideo]
    returns; when the gateway delivers a video, the scene has status
    [complete] and holds the video's reference, which is not empty; when
    the gateway fails (no client can be constructed, the submission or a
    poll is rejected, the finished job carries no video reference, or the
    download is rejected), the scene
    has status [error] with the fixed message and its video reference is
    what it was before. *)
Theorem generateVideo_outcome
    (w : World) (i : str) (scene : SceneState)
    (key : option (Outcome unit)) (env : GeminiService.VeoEnv)
    (verdict : option str) (j : nat) (s : SceneState) :
  JS.find (fun s => JS.eqb (id s) i) (scenes_of w) = Some scene ->
  credential_ready (state (store w)) key ->
  GatewayVerdict env verdict ->
  scenes_of w !! j = Some s ->
  id s = i ->
  exists w' s',
    App.invoke (fun snapshot => App.generateVideo snapshot i key env) w
      = (Return tt, w') /\
    length (scenes_of w') = length (scenes_of w) /\
    scenes_of w' !! j = Some s' /\
    match verdict with
    | Some url =>
        status s' = complete /\ generatedVideoUrl s' = Some url /\
        url <> [] /\ errorMessage s' = None
    | None =>
        status s' = error /\
        errorMessage s'
          = Some (lit "Veo generation failed. Ensure billing is enabled.") /\
        generatedVideoUrl s' = generatedVideoUrl s
    end.
Proof.
  intros Hfind Hready Hverdict Hj Hid.
  destruct (credential_step key w Hready)
    as (w1 & _ & Hcred & Hscenes & _ & _).
  unfold App.invoke, App.generateVideo.
  unfold scenes_of in Hfind. rewrite Hfind.
  erewrite bind_return by exact Hcred.
  erewrite bind_return by reflexivity.
  unfold try_catch.
  match goal with
  | |- context [mbind _ _ ?w2] =>
      destruct (generateVeoSegment_verdict env verdict
                  (startImage scene) (endImage scene)
                  (movementDescription scene) (expressionDescription scene)
                  (script scene) (contextDesc (store w))
                  (targetResolution scene) w2 Hverdict)
        as (result & events & Hrun & Hresult);
      set (w2' := w2) in *
  end.
  assert (Hlookup : forall f,
    (forall x, id (f x) = id x) ->
    exists s',
      scenes (App.mapScene i f (state (store w2'))) !! j = Some s' /\
      s' = f (with_errorMessage None (with_status generating_video s))).
  { intros f Hf. eexists; split; [|reflexivity].
    subst w2'. cbn [store state with_state App.setState modifyStore].
    rewrite !lookup_mapScene. unfold scenes_of in Hscenes, Hj.
    rewrite Hscenes, Hj. cbn [fmap option_fmap option_map].
    apply eqb_eq in Hid. rewrite Hid.
    cbn [id with_errorMessage with_status]. now rewrite Hid. }
  assert (Hlen : forall f,
    length (scenes (App.mapScene i f (state (store w2'))))
    = length (scenes_of w)).
  { intros f. subst w2'. cbn [store state with_state].
    now rewrite !length_mapScene, <- Hscenes. }
  destruct verdict as [url|].
  - subst result. erewrite bind_return by exact Hrun.
    assert (Hurl : JS.truthy_opt (Some url) = true).
    { inversion Hverdict; reflexivity. }
    rewrite Hurl. cbn [negb].
    destruct (Hlookup (fun s => with_generatedVideoUrl (Some url)
                                  (with_status complete s)))
      as (s' & Hs' & ->); [reflexivity|].
    eexists; eexists. split; [run_monad; reflexivity|].
    unfold scenes_of; cbn [store state with_state].
    split; [apply Hlen|]. split; [exact Hs'|].
    repeat split. inversion Hverdict; discriminate.
  - destruct (Hlookup (fun s =>
                with_errorMessage
                  (Some (lit "Veo generation failed. Ensure billing is enabled."))
                  (with_status error s)))
      as (s' & Hs' & ->); [reflexivity|].
    destruct Hresult as [-> | [e ->]].
    + erewrite bind_return by exact Hrun. cbn [JS.truthy_opt negb].
      eexists; eexists. split; [run_monad; reflexivity|].
      unfold scenes_of; cbn [store state with_state].
      split; [apply Hlen|]. split; [exact Hs'|]. repeat split.
    + erewrite bind_throw by exact Hrun.
      eexists; eexists. split; [run_monad; reflexivity|].
      unfold scenes_of; cbn [store state with_state].
      split; [apply Hlen|]. split; [exact Hs'|]. repeat split.
Qed.

Lemma generateVideo_outcome_witness :
  let a := Sample.scene "a" 0 [] (lit "Good evening.") in
  let w := Sample.world [a] in
  let running := Resolves (GeminiService.mkOperation false None) in
  let finished :=
    Resolves (GeminiService.mkOperation true (Some (lit "https://v/1?x=1"))) in
  let env := GeminiService.mkVeo (Resolves tt) running [running; finished]
               (Resolves tt) (lit "7f3c") in
  exists w' s',
    App.invoke (fun snapshot =>
        App.generateVideo snapshot (lit "a") None env) w = (Return tt, w') /\
    length (scenes_of w') = length (scenes_of w) /\
    scenes_of w' !! 0 = Some s' /\
    status s' = complete /\
    generatedVideoUrl s' = Some (lit "blob:" ++ lit "7f3c") /\
    lit "blob:" ++ lit "7f3c" <> [] /\ errorMessage s' = None.
Proof.
  intros a w running finished env.
  apply (generateVideo_outcome w (lit "a") a None env
           (Some (lit "blob:" ++ lit "7f3c")) 0 a).
  - reflexivity.
  - left; reflexivity.
  - apply (video_ready env [running; running]
             (GeminiService.mkOperation true (Some (lit "https://v/1?x=1")))
             []).
    + repeat constructor; eexists; split; reflexivity.
    + reflexivity.
    + reflexivity.
    + reflexivity.
    + reflexivity.
    + reflexivity.
  - reflexivity.
  - reflexivity.
Defined.

(* ===================================================================== *)
(** ** The pipeline on too few frames *)
(* ===================================================================== *)

Lemma issueAll_run (model : str) (count : nat) (w : World) :
  GeminiService.issueAll model count w
  = (Return tt,
     mkWorld (store w)
       (trace w ++ repeat (GatewayCall (generateContent model)) count)).
Proof.
  revert w; induction count as [|n IH]; intros w; cbn [GeminiService.issueAll].
  - cbn. rewrite app_nil_r. now destruct w.
  - erewrite bind_return by reflexivity. rewrite IH. cbn.
    now rewrite <- app_assoc.
Qed.

Lemma settleAll_run gw (indices : list nat) (w : World) :
  GeminiService.settleAll gw indices w
  = (Return ((fun i => frameOf (gw i)) <$> indices),
     mkWorld (store w)
       (trace w ++ concat ((fun i => match gw i with
                                     | Rejects => [ConsoleError]
                                     | Resolves _ => []
                                     end) <$> indices))).
Proof.
  revert w; induction indices as [|i indices IH]; intros w;
    cbn [GeminiService.settleAll].
  - cbn. rewrite app_nil_r. now destruct w.
  - assert (Hone : GeminiService.frameResult (gw i) w
                   = (Return (frameOf (gw i)),
                      mkWorld (store w)
                        (trace w ++ match gw i with
                                    | Rejects => [ConsoleError]
                                    | Resolves _ => []
                                    end))).
    { unfold GeminiService.frameResult. destruct (gw i); run_monad;
        [rewrite app_nil_r; now destruct w | reflexivity]. }
    erewrite bind_return by exact Hone.
    erewrite bind_return by apply IH.
    cbn. now rewrite <- app_assoc.
Qed.

Lemma generateCharacterFrames_run sceneImage faceImage sceneDesc faceDesc
    poseDescription (count : nat) (model : str) gw (w : World) :
  GeminiService.generateCharacterFrames sceneImage faceImage sceneDesc
    faceDesc poseDescription count model (Resolves tt) gw w
  = (Return (synthesizedFrames gw count),
     mkWorld (store w) (trace w ++ synthesisEvents model gw count)).
Proof.
  unfold GeminiService.generateCharacterFrames.
  erewrite bind_return by reflexivity.
  erewrite bind_return by apply issueAll_run.
  erewrite bind_return by apply settleAll_run.
  assert (Homap : forall l : list nat,
    omap (fun f : option image => f) ((fun i => frameOf (gw i)) <$> l)
    = omap (fun i => frameOf (gw i)) l).
  { induction l as [|i l IH]; cbn; [reflexivity|].
    destruct (frameOf (gw i)); cbn; now rewrite IH. }
  unfold synthesizedFrames, synthesisEvents, mret, M_ret.
  cbn [store trace]. now rewrite Homap, <- app_assoc.
Qed.

(** The synthesis stage without a client: nothing is requested. *)
Lemma generateCharacterFrames_no_client sceneImage faceImage sceneDesc
    faceDesc poseDescription (count : nat) (model : str) gw (w : World) :
  GeminiService.generateCharacterFrames sceneImage faceImage sceneDesc
    faceDesc poseDescription count model Rejects gw w
  = (Throw Rejected, w).
Proof. destruct w. reflexivity. Qed.

(** A run of the pipeline that ends in the error handler: a client that
    cannot be constructed, an analysis that is rejected, or too few
    frames. *)
Lemma pipeline_error_run
    (w w1 : World) (env : App.PipelineEnv) (main face : str) keyEvents :
  mainImage (config (state (store w))) = Some main ->
  faceReference (config (state (store w))) = Some face ->
  JS.truthy main = true ->
  JS.truthy face = true ->
  (if negb (isApiKeySelected (state (store w)))
   then App.handleKeySelect (App.aistudio env) else mret tt) w
    = (Return tt, w1) ->
  trace w1 = trace w ++ keyEvents ->
  App.faceClient env = Rejects \/ App.faceAnalysis env = Rejects \/
  App.sceneClient env = Rejects \/ App.sceneAnalysis env = Rejects \/
  App.framesClient env = Rejects \/
  length (JS.split_comma_1 main
            :: synthesizedFrames (App.frameAnswers env) 9) < 2 ->
  exists w' events,
    App.invoke (fun snapshot =>
        App.startAnalysisAndGeneration snapshot env) w = (Return tt, w') /\
    state (store w')
      = with_step upload (with_step generating_frames (state (store w1))) /\
    trace w'
      = trace w ++ events
          ++ [ConsoleError;
              Alert (lit "An error occurred during generation. Please try again.")].
Proof.
  intros Hmain Hface Tmain Tface Hcred Htrace Hfail.
  unfold App.invoke, App.startAnalysisAndGeneration.
  rewrite Hmain, Hface, Tmain, Tface. cbn [negb orb].
  erewrite bind_return by exact Hcred.
  destruct w1 as [[a1 msg1 desc1 face1 scene1] trace1].
  cbn [store trace state] in *.
  step_return.
  unfold try_catch.
  step_return.
  pose (call := GatewayCall (generateContent (lit "gemini-2.5-flash-image"))).
  destruct (App.faceClient env) as [[]|].
  2: { erewrite bind_throw by reflexivity.
       eexists. exists keyEvents.
       split; [run_monad; reflexivity|]. split; [reflexivity|].
       cbn [trace store]. rewrite Htrace.
       repeat rewrite <- app_assoc. reflexivity. }
  destruct (App.faceAnalysis env) as [rf|].
  2: { erewrite bind_throw by reflexivity.
       eexists. exists (keyEvents ++ [call]).
       split; [run_monad; reflexivity|]. split; [reflexivity|].
       cbn [trace store]. rewrite Htrace. subst call.
       repeat rewrite <- app_assoc. reflexivity. }
  do 3 step_return.
  destruct (App.sceneClient env) as [[]|].
  2: { erewrite bind_throw by reflexivity.
       eexists. exists (keyEvents ++ [call]).
       split; [run_monad; reflexivity|]. split; [reflexivity|].
       cbn [trace store]. rewrite Htrace. subst call.
       repeat rewrite <- app_assoc. reflexivity. }
  destruct (App.sceneAnalysis env) as [rs|].
  2: { erewrite bind_throw by reflexivity.
       eexists. exists (keyEvents ++ [call; call]).
       split; [run_monad; reflexivity|]. split; [reflexivity|].
       cbn [trace store]. rewrite Htrace. subst call.
       repeat rewrite <- app_assoc. reflexivity. }
  do 4 step_return.
  destruct (App.framesClient env) as [[]|].
  2: { erewrite bind_throw by apply generateCharacterFrames_no_client.
       eexists. exists (keyEvents ++ [call; call]).
       split; [run_monad; reflexivity|]. split; [reflexivity|].
       cbn [trace store]. rewrite Htrace. subst call.
       repeat rewrite <- app_assoc. reflexivity. }
  erewrite bind_return by apply generateCharacterFrames_run.
  cbn [store trace state].
  assert (Hfew : (length (JS.split_comma_1 main
                    :: synthesizedFrames (App.frameAnswers env) 9) <? 2)
                 = true).
  { apply Nat.ltb_lt.
    destruct Hfail as [|[|[|[|[|]]]]]; [discriminate.. | auto]. }
  rewrite Hfew.
  eexists.
  exists (keyEvents ++ [call; call]
            ++ synthesisEvents
                 (App.modelName (selectedModel (config (state (store w)))))
                 (App.frameAnswers env) 9).
  split; [run_monad; reflexivity|]. split; [reflexivity|].
  cbn [trace store]. rewrite Htrace. subst call.
  repeat rewrite <- app_assoc. reflexivity.
Qed.

(** A run of the pipeline that gets at least two frames: the chain
    builder's scenes become the scene list and the step is [sequencing]. *)
Lemma pipeline_success_run
    (w : World) (env : App.PipelineEnv) (main face : str) rf rs :
  mainImage (config (state (store w))) = Some main ->
  faceReference (config (state (store w))) = Some face ->
  JS.truthy main = true ->
  JS.truthy face = true ->
  credential_ready (state (store w)) (App.aistudio env) ->
  App.faceClient env = Resolves tt ->
  App.faceAnalysis env = Resolves rf ->
  App.sceneClient env = Resolves tt ->
  App.sceneAnalysis env = Resolves rs ->
  App.framesClient env = Resolves tt ->
  2 <= length (JS.split_comma_1 main
                 :: synthesizedFrames (App.frameAnswers env) 9) ->
  exists w',
    App.invoke (fun snapshot =>
        App.startAnalysisAndGeneration snapshot env) w = (Return tt, w') /\
    step (state (store w')) = sequencing /\
    scenes_of w'
      = App.newScenes (App.randomUUID env)
          (JS.split_comma_1 main
             :: synthesizedFrames (App.frameAnswers env) 9).
Proof.
  intros Hmain Hface Tmain Tface Hready Hfc Hrf Hsc Hrs Hgc Hlen.
  destruct (credential_step (App.aistudio env) w Hready)
    as (w1 & keyEvents & Hcred & _).
  unfold App.invoke, App.startAnalysisAndGeneration.
  rewrite Hmain, Hface, Tmain, Tface, Hfc, Hrf, Hsc, Hrs, Hgc.
  cbn [negb orb].
  erewrite bind_return by exact Hcred.
  destruct w1 as [[a1 msg1 desc1 face1 scene1] trace1].
  step_return.
  unfold try_catch.
  do 8 step_return.
  erewrite bind_return by apply generateCharacterFrames_run.
  cbn [store trace state].
  assert (Hge : (length (JS.split_comma_1 main
                   :: synthesizedFrames (App.frameAnswers env) 9) <? 2)
                = false) by now apply Nat.ltb_ge.
  rewrite Hge.
  eexists. split; [run_monad; reflexivity|]. split; reflexivity.
Qed.

(** C5. With both reference images loaded and a ready credential, when the
    combined sequence (the original image followed by the synthesized
    frames) has fewer than two images, the pipeline ends in its error
    handler: a console error and the generation alert, the step back at
    [upload], the scene list as it was (none is created).  A run whose
    first gateway call is rejected ends the same way, in the same
    application state.  Both hold whether or not the clients of the three
    stages can be constructed. *)
Theorem too_few_frames_resets_pipeline
    (w : World) (env : App.PipelineEnv) (main face : str) :
  mainImage (config (state (store w))) = Some main ->
  faceReference (config (state (store w))) = Some face ->
  JS.truthy main = true ->
  JS.truthy face = true ->
  credential_ready (state (store w)) (App.aistudio env) ->
  length (JS.split_comma_1 main
            :: synthesizedFrames (App.frameAnswers env) 9) < 2 ->
  exists w' events w'' events',
    (App.invoke (fun snapshot =>
         App.startAnalysisAndGeneration snapshot env) w = (Return tt, w') /\
     step (state (store w')) = upload /\
     scenes_of w' = scenes_of w /\
     trace w'
       = trace w ++ events
           ++ [ConsoleError;
               Alert (lit "An error occurred during generation. Please try again.")])
    /\
    (App.invoke (fun snapshot =>
         App.startAnalysisAndGeneration snapshot (failing_gateway env)) w
       = (Return tt, w'') /\
     state (store w'') = state (store w') /\
     trace w''
       = trace w ++ events'
           ++ [ConsoleError;
               Alert (lit "An error occurred during generation. Please try again.")]).
Proof.
  intros Hmain Hface Tmain Tface Hready Hshort.
  destruct (credential_step (App.aistudio env) w Hready)
    as (w1 & keyEvents & Hcred & Hscenes & Hconfig & Htrace).
  destruct (pipeline_error_run w w1 env main face keyEvents
              Hmain Hface Tmain Tface Hcred Htrace)
    as (w' & events & Hrun & Hstate & Hevents); [do 5 right; exact Hshort|].
  destruct (pipeline_error_run w w1 (failing_gateway env) main face keyEvents
              Hmain Hface Tmain Tface Hcred Htrace)
    as (w'' & events' & Hrun' & Hstate' & Hevents');
    [right; left; reflexivity|].
  exists w', events, w'', events'.
  split; [|split; [exact Hrun' | split; [congruence | exact Hevents']]].
  split; [exact Hrun|].
  split; [now rewrite Hstate|].
  split; [|exact Hevents].
  unfold scenes_of in *. now rewrite Hstate.
Qed.

Lemma too_few_frames_resets_pipeline_witness :
  let w := Sample.world [] in
  let env := App.mkPipeline None (Resolves tt) (Sample.answer "A face.")
               (Resolves tt) (Sample.answer "A scene.") (Resolves tt)
               (fun k => if k <? 4 then Rejects else Sample.answer "no image")
               (fun _ => lit "uuid") in
  exists w' events w'' events',
    (App.invoke (fun snapshot =>
         App.startAnalysisAndGeneration snapshot env) w = (Return tt, w') /\
     step (state (store w')) = upload /\
     scenes_of w' = scenes_of w /\
     trace w'
       = trace w ++ events
           ++ [ConsoleError;
               Alert (lit "An error occurred during generation. Please try again.")])
    /\
    (App.invoke (fun snapshot =>
         App.startAnalysisAndGeneration snapshot (failing_gateway env)) w
       = (Return tt, w'') /\
     state (store w'') = state (store w') /\
     trace w''
       = trace w ++ events'
           ++ [ConsoleError;
               Alert (lit "An error occurred during generation. Please try again.")]).
Proof.
  intros w env.
  apply (too_few_frames_resets_pipeline w env
           (lit "data:image/jpeg;base64,AAAA")
           (lit "data:image/jpeg;base64,BBBB")).
  - reflexivity.
  - reflexivity.
  - reflexivity.
  - reflexivity.
  - left; reflexivity.
  - vm_compute. lia.
Defined.

(* ===================================================================== *)
(** ** Worked runs *)
(* ===================================================================== *)

(** A bare number, and a number with a unit, come out as the number. *)
Example duration_of_plain_answers :
  List.filter digitOrDot (lit "4.5") = lit "4.5" /\
  List.filter digitOrDot (lit " 4.5 seconds") = lit "4.5" /\
  List.filter digitOrDot (lit "12s") = lit "12".
Proof. repeat split. Qed.

(** Regenerating the end frame of the first of three scenes. *)
Example regenerate_first_of_three :
  let w := Sample.world [Sample.scene "a" 0 (lit "look up") [];
                         Sample.scene "b" 1 [] [];
                         Sample.scene "c" 2 [] []] in
  let w' := snd (App.invoke (fun snapshot =>
                   App.regenerateEndFrame snapshot (lit "a") (Resolves tt)
                     (Sample.picture "NEW")) w) in
  (fun s => (startImage s, endImage s, status s, generatedVideoUrl s))
    <$> scenes_of w'
  = [(Some (lit "frame"), Some (lit "NEW"), idle, None);
     (Some (lit "NEW"), Some (lit "frame'"), idle, None);
     (Some (lit "frame"), Some (lit "frame'"), complete,
      Some (lit "blob:old"))].
Proof. vm_compute. reflexivity. Qed.

(** A poll that is rejected: the scene is in error and keeps the video
    reference it had. *)
Example generateVideo_poll_rejected :
  let w := Sample.world [Sample.scene "a" 0 [] []] in
  let running := Resolves (GeminiService.mkOperation false None) in
  let env := GeminiService.mkVeo (Resolves tt) running [running; Rejects]
               (Resolves tt) (lit "7f3c") in
  let run := App.invoke (fun snapshot =>
               App.generateVideo snapshot (lit "a") None env) w in
  fst run = Return tt /\
  (fun s => (status s, errorMessage s, generatedVideoUrl s))
    <$> scenes_of (snd run)
  = [(error,
      Some (lit "Veo generation failed. Ensure billing is enabled."),
      Some (lit "blob:old"))].
Proof. vm_compute. split; reflexivity. Qed.

(** Answers that run out while the job is still running: the handler
    pauses and polls a third time, stays suspended on that poll, and the
    scene stays in [generating_video]. *)
Example generateVideo_still_polling :
  let w := Sample.world [Sample.scene "a" 0 [] []] in
  let running := Resolves (GeminiService.mkOperation false None) in
  let env := GeminiService.mkVeo (Resolves tt) running [running; running]
               (Resolves tt) (lit "7f3c") in
  let run := App.invoke (fun snapshot =>
               App.generateVideo snapshot (lit "a") None env) w in
  fst run = Pending /\
  status <$> scenes_of (snd run) = [generating_video] /\
  trace (snd run)
  = [GatewayCall (generateVideos (lit "veo-3.1-generate-preview"));
     Sleep 5000; GatewayCall getVideosOperation;
     Sleep 5000; GatewayCall getVideosOperation;
     Sleep 5000; GatewayCall getVideosOperation].
Proof. vm_compute. repeat split. Qed.

(** Nine frame requests of which two bring an image: three frames, two
    scenes. *)
Example pipeline_with_two_frames :
  let env := App.mkPipeline None (Resolves tt) (Sample.answer "A face.")
               (Resolves tt) (Sample.answer "A scene.") (Resolves tt)
               (fun k => if k <? 7 then Rejects else Sample.picture "F")
               (fun k => lit "scene-" ++ [N.of_nat (48 + k)]) in
  let w := mkWorld (with_state (with_step upload (state (store (Sample.world []))))
                      (store (Sample.world []))) [] in
  let run := App.invoke (fun snapshot =>
               App.startAnalysisAndGeneration snapshot env) w in
  fst run = Return tt /\
  step (state (store (snd run))) = sequencing /\
  (fun s => (id s, startImage s, endImage s)) <$> scenes_of (snd run)
  = [(lit "scene-0", Some (lit "AAAA"), Some (lit "F"));
     (lit "scene-1", Some (lit "F"), Some (lit "F"))].
Proof. vm_compute. repeat split. Qed.

(* ===================================================================== *)
(** ** The services only talk to the outside *)
(* ===================================================================== *)

Section IoOnly.

Context {A B : Type}.







End IoOnly.






(* ===================================================================== *)
(** ** The synthesis stage *)
(* ===================================================================== *)

Lemma length_omap_le {X Y} (f : X -> option Y) (l : list X) :
  length (omap f l) <= length l.
Proof.
  induction l as [|x l IH]; cbn; [lia|]. destruct (f x); cbn; lia.
Qed.

Lemma length_omap_all {X Y} (f : X -> option Y) (l : list X) :
  length (omap f l) = length l <-> Forall (fun x => is_Some (f x)) l.
Proof.
  induction l as [|x l IH]; cbn.
  - split; [constructor | reflexivity].
  - pose proof (length_omap_le f l). destruct (f x) eqn:E; cbn.
    + split.
      * intros H'. constructor; [rewrite E; eauto | apply IH; lia].
      * intros H'. apply Forall_cons in H' as [_ H']. apply IH in H'. lia.
    + split; [lia|]. intros H'. apply Forall_cons in H' as [[y Hy] _].
      congruence.
Qed.

Lemma gatewayCalls_app (l1 l2 : list Event) :
  gatewayCalls (l1 ++ l2) = gatewayCalls l1 + gatewayCalls l2.
Proof.
  unfold gatewayCalls. now rewrite List.filter_app, length_app.
Qed.

Lemma gatewayCalls_synthesis (model : str) gw (count : nat) :
  gatewayCalls (synthesisEvents model gw count) = count.
Proof.
  unfold synthesisEvents. rewrite gatewayCalls_app.
  assert (H1 : gatewayCalls (repeat (GatewayCall (generateContent model)) count)
               = count).
  { induction count as [|n IH]; [reflexivity|].
    unfold gatewayCalls in *. cbn. now rewrite IH. }
  assert (H2 : forall l : list nat,
    gatewayCalls (concat ((fun i => match gw i with
                                    | Rejects => [ConsoleError]
                                    | Resolves _ => []
                                    end) <$> l)) = 0).
  { induction l as [|i l IH]; [reflexivity|].
    rewrite fmap_cons. cbn [concat].
    rewrite gatewayCalls_app, IH. destruct (gw i); reflexivity. }
  rewrite H1, H2. lia.
Qed.

(** X1. The synthesis stage tolerates the failure of any of its requests,
    not that of its client.  With a client, whatever the [count] requests
    come to, it returns the frames of the requests that brought an inline
    part, in request order, so at most [count] of them, after exactly
    [count] gateway calls and without touching the store; all [count]
    frames come back exactly when every request brought one.  Without a
    client (the constructor throws outside every [try]) it throws before
    any request goes out and leaves the world as it was. *)
Theorem generateCharacterFrames_tolerates_failures
    (sceneImage faceImage : image) (sceneDesc faceDesc poseDescription : str)
    (count : nat) (model : str) (client : Outcome unit)
    (gw : nat -> Outcome GeminiService.ContentResponse) (w : World) :
  match client with
  | Resolves _ =>
      exists frames events,
        GeminiService.generateCharacterFrames sceneImage faceImage sceneDesc
          faceDesc poseDescription count model client gw w
        = (Return frames, mkWorld (store w) (trace w ++ events)) /\
        frames = omap (fun i => frameOf (gw i)) (seq 0 count) /\
        length frames <= count /\
        gatewayCalls events = count /\
        (length frames = count <->
         forall i, i < count -> is_Some (frameOf (gw i)))
  | Rejects =>
      GeminiService.generateCharacterFrames sceneImage faceImage sceneDesc
        faceDesc poseDescription count model client gw w
      = (Throw Rejected, w)
  end.
Proof.
  destruct client as [[]|]; [|apply generateCharacterFrames_no_client].
  exists (synthesizedFrames gw count), (synthesisEvents model gw count).
  split; [apply generateCharacterFrames_run|].
  split; [reflexivity|].
  unfold synthesizedFrames.
  pose proof (length_omap_le (fun i => frameOf (gw i)) (seq 0 count)) as Hle.
  pose proof (length_omap_all (fun i => frameOf (gw i)) (seq 0 count)) as Hall.
  rewrite length_seq in Hle, Hall.
  split; [exact Hle|]. split; [apply gatewayCalls_synthesis|].
  rewrite Hall, Forall_seq. split; intros H i Hi; apply H; lia.
Qed.

(* ===================================================================== *)
(** ** Guards of the handlers *)
(* ===================================================================== *)

Lemma blank_guard (script : str) :
  forallb JS.isWhiteSpace script = true ->
  negb (JS.truthy script) || (length (JS.trim script) =? 0) = true.
Proof.
  intros H. apply trim_blank in H. apply orb_true_iff; right.
  destruct (JS.trim script); [reflexivity | discriminate].
Qed.

Lemma forallb_filter_same {X} (p : X -> bool) (l : list X) :
  forallb p (List.filter p l) = true.
Proof.
  induction l as [|x l IH]; [reflexivity|]. cbn.
  destruct (p x) eqn:E; cbn; [now rewrite E|exact IH].
Qed.

(** X2. [estimateSpeakingDuration] never touches the store, and a failed
    gateway call never makes it throw.  On an empty or all-whitespace
    script it answers ["0s"] at once: no client is constructed and no
    gateway call goes out.  On any other script, with a client, it makes
    exactly one gateway call and its answer consists of digits and full
    stops only, whatever the gateway said and also when the call was
    rejected; without a client (the constructor throws ahead of the [try])
    it throws before any call and leaves the world as it was. *)
Theorem estimateSpeakingDuration_outcomes
    (script : str) (client : Outcome unit)
    (gw : Outcome GeminiService.ContentResponse) (w : World) :
  if forallb JS.isWhiteSpace script
  then GeminiService.estimateSpeakingDuration script client gw w
       = (Return (lit "0s"), w)
  else
    match client with
    | Resolves _ =>
        exists d events,
          GeminiService.estimateSpeakingDuration script client gw w
          = (Return d, mkWorld (store w) (trace w ++ events)) /\
          forallb digitOrDot d = true /\ gatewayCalls events = 1
    | Rejects =>
        GeminiService.estimateSpeakingDuration script client gw w
        = (Throw Rejected, w)
    end.
Proof.
  destruct (forallb JS.isWhiteSpace script) eqn:E.
  - unfold GeminiService.estimateSpeakingDuration.
    rewrite (blank_guard _ E). now destruct w.
  - destruct client as [[]|];
      [|apply estimateSpeakingDuration_no_client; exact E].
    destruct gw as [r|].
    + eexists; eexists.
      split; [apply estimateSpeakingDuration_resolves; exact E|].
      split; [apply forallb_filter_same | reflexivity].
    + eexists; eexists.
      split; [apply estimateSpeakingDuration_rejects; exact E|].
      split; reflexivity.
Qed.

Lemma find_None_findIndex (l : list SceneState) (i : str) :
  JS.find (fun s => JS.eqb (id s) i) l = None ->
  JS.findIndex (fun s => JS.eqb (id s) i) l = None.
Proof.
  rewrite find_findIndex.
  destruct (JS.findIndex _ l) as [k|] eqn:E; [|reflexivity].
  destruct (findIndex_Some _ _ _ E) as (x & Hx & _).
  cbn. rewrite Hx. discriminate.
Qed.

(** X3. A handler called with an identifier no scene carries does nothing:
    [analyzeDuration], [regenerateEndFrame] and [generateVideo] return with
    the world as it was, without a credential dialog or a gateway call,
    whatever the environment would have answered and whether or not a
    client could have been constructed. *)
Theorem unknown_scene_is_noop
    (w : World) (i : str) (client : Outcome unit)
    (gw : Outcome GeminiService.ContentResponse)
    (key : option (Outcome unit)) (env : GeminiService.VeoEnv) :
  JS.find (fun s => JS.eqb (id s) i) (scenes_of w) = None ->
  App.invoke (fun snapshot => App.analyzeDuration snapshot i client gw) w
    = (Return tt, w) /\
  App.invoke (fun snapshot => App.regenerateEndFrame snapshot i client gw) w
    = (Return tt, w) /\
  App.invoke (fun snapshot => App.generateVideo snapshot i key env) w
    = (Return tt, w).
Proof.
  intros Hfind. pose proof (find_None_findIndex _ _ Hfind) as Hindex.
  unfold scenes_of in *.
  unfold App.invoke, App.analyzeDuration, App.regenerateEndFrame,
    App.generateVideo.
  rewrite Hfind, Hindex. repeat split.
Qed.

Lemma unknown_scene_is_noop_witness :
  let w := Sample.world [Sample.scene "a" 0 (lit "wave") (lit "Hello.")] in
  let env := GeminiService.mkVeo (Resolves tt) Rejects [] Rejects [] in
  App.invoke (fun snapshot =>
      App.analyzeDuration snapshot (lit "b") (Resolves tt)
        (Sample.answer "4")) w
    = (Return tt, w) /\
  App.invoke (fun snapshot =>
      App.regenerateEndFrame snapshot (lit "b") (Resolves tt)
        (Sample.answer "4")) w
    = (Return tt, w) /\
  App.invoke (fun snapshot =>
      App.generateVideo snapshot (lit "b") (Some Rejects) env) w
    = (Return tt, w).
Proof.
  intros w env.
  apply (unknown_scene_is_noop w (lit "b") (Resolves tt) (Sample.answer "4")
           (Some Rejects) env).
  reflexivity.
Defined.

Lemma start_guard (w : World) (env : App.PipelineEnv) :
  App.startDisabled (state (store w)) = true ->
  App.invoke (fun snapshot =>
      App.startAnalysisAndGeneration snapshot env) w = (Return tt, w).
Proof.
  unfold App.startDisabled, App.invoke, App.startAnalysisAndGeneration.
  destruct (mainImage (config (state (store w)))) as [main|];
    [|reflexivity].
  destruct (faceReference (config (state (store w)))) as [face|];
    [|reflexivity].
  cbn [JS.truthy_opt]. intros ->. reflexivity.
Qed.

(** X4. The pipeline starts only with both reference images: while one of
    them is missing or empty, [startAnalysisAndGeneration] returns with the
    world as it was (no credential dialog, no gateway call, the step where
    it was); the handler's guard is the button's, so a click always does
    what the handler does; and once either image has been cleared through
    the uploader, starting does nothing. *)
Theorem pipeline_needs_both_images
    (w : World) (env : App.PipelineEnv) (key : App.ImageKey) :
  (App.startDisabled (state (store w)) = true ->
   App.invoke (fun snapshot =>
       App.startAnalysisAndGeneration snapshot env) w = (Return tt, w)) /\
  App.invoke (fun snapshot => App.clickStart snapshot env) w
  = App.invoke (fun snapshot =>
        App.startAnalysisAndGeneration snapshot env) w /\
  (forall cleared,
     App.handleImageUpload key None w = (Return tt, cleared) ->
     scenes_of cleared = scenes_of w /\
     App.invoke (fun snapshot =>
         App.startAnalysisAndGeneration snapshot env) cleared
     = (Return tt, cleared)).
Proof.
  split; [apply start_guard|]. split.
  - unfold App.invoke at 1. unfold App.clickStart.
    destruct (App.startDisabled (state (store w))) eqn:E; [|reflexivity].
    symmetry. now apply start_guard.
  - intros cleared [= <-]. split; [reflexivity|].
    apply start_guard. unfold App.startDisabled. cbn.
    destruct key; cbn; [reflexivity|]. apply orb_true_r.
Qed.

Lemma pipeline_needs_both_images_witness :
  let w := Sample.world [] in
  let env := App.mkPipeline None (Resolves tt) Rejects (Resolves tt) Rejects
               (Resolves tt) (fun _ => Rejects) (fun _ => []) in
  let cleared := snd (App.handleImageUpload App.key_faceReference None w) in
  scenes_of cleared = scenes_of w /\
  App.invoke (fun snapshot =>
      App.startAnalysisAndGeneration snapshot env) cleared
  = (Return tt, cleared).
Proof.
  intros w env cleared.
  apply (pipeline_needs_both_images w env App.key_faceReference).
  reflexivity.
Defined.

(* ===================================================================== *)
(** ** Regeneration, whatever the outcome *)
(* ===================================================================== *)

Section RegenerationCases.

Variable w : World.
Variable i : str.
Variable sceneIndex : nat.
Variable scene : SceneState.

Hypothesis found :
  JS.findIndex (fun s => JS.eqb (id s) i) (scenes_of w) = Some sceneIndex.
Hypothesis at_index : scenes_of w !! sceneIndex = Some scene.
Hypothesis prompted :
  forallb JS.isWhiteSpace (endFrameActionPrompt scene) = false.

(** Without both references the handler fails before it calls. *)
Lemma regenerateEndFrame_no_references_run client gw :
  ~ references_present (state (store w)) ->
  App.invoke (fun snapshot => App.regenerateEndFrame snapshot i client gw) w
  = (Return tt,
     mkWorld
       (with_state
          (App.mapScene i (with_isRegeneratingImage false)
             (App.mapScene i (with_isRegeneratingImage true)
                (state (store w))))
          (store w))
       (trace w
          ++ [ConsoleError;
              Alert (lit "Failed to regenerate image. Try again.")])).
Proof using found at_index prompted.
  intros Hrefs. unfold App.invoke, App.regenerateEndFrame.
  unfold scenes_of in found, at_index.
  rewrite found, at_index, (prompt_guard scene prompted).
  unfold references_present in Hrefs.
  destruct (mainImage (config (state (store w)))) as [main|];
    [destruct (faceReference (config (state (store w)))) as [face|]|].
  - exfalso. apply Hrefs. split; eauto.
  - run_monad. reflexivity.
  - run_monad. reflexivity.
Qed.

(** Without a client the handler fails before it calls. *)
Lemma regenerateEndFrame_no_client_run gw :
  App.invoke (fun snapshot => App.regenerateEndFrame snapshot i Rejects gw) w
  = (Return tt,
     mkWorld
       (with_state
          (App.mapScene i (with_isRegeneratingImage false)
             (App.mapScene i (with_isRegeneratingImage true)
                (state (store w))))
          (store w))
       (trace w
          ++ [ConsoleError;
              Alert (lit "Failed to regenerate image. Try again.")])).
Proof using found at_index prompted.
  unfold App.invoke, App.regenerateEndFrame.
  unfold scenes_of in found, at_index.
  rewrite found, at_index, (prompt_guard scene prompted).
  unfold GeminiService.regenerateSingleFrame.
  destruct (mainImage (config (state (store w)))) as [main|];
    [destruct (faceReference (config (state (store w)))) as [face|]|];
    run_monad; reflexivity.
Qed.

(** With both references and a client, a failed call: the events in
    full. *)
Lemma regenerateEndFrame_failure_trace gw :
  references_present (state (store w)) ->
  yields_no_image gw = true ->
  App.invoke (fun snapshot =>
      App.regenerateEndFrame snapshot i (Resolves tt) gw) w
  = (Return tt,
     mkWorld
       (with_state
          (App.mapScene i (with_isRegeneratingImage false)
             (App.mapScene i (with_isRegeneratingImage true)
                (state (store w))))
          (store w))
       (trace w
          ++ GatewayCall (generateContent
               (App.modelName (selectedModel (config (state (store w))))))
             :: match gw with
                | Rejects => [ConsoleError]
                | Resolves _ => []
                end
          ++ [ConsoleError;
              Alert (lit "Failed to regenerate image. Try again.")])).
Proof using found at_index prompted.
  intros [[main Hmain] [face Hface]] Hgw.
  unfold App.invoke, App.regenerateEndFrame.
  unfold scenes_of in found, at_index.
  rewrite found, at_index, (prompt_guard scene prompted), Hmain, Hface.
  unfold GeminiService.regenerateSingleFrame.
  destruct gw as [r|]; cbn [yields_no_image] in Hgw.
  - apply negb_true_iff in Hgw. run_monad. rewrite Hgw. cbn.
    rewrite <- ?app_assoc. reflexivity.
  - run_monad. reflexivity.
Qed.

End RegenerationCases.

Lemma references_present_dec (a : AppState) :
  references_present a \/ ~ references_present a.
Proof.
  unfold references_present.
  destruct (mainImage (config a)), (faceReference (config a)).
  - left; split; eauto.
  - right; intros [_ [y Hy]]; discriminate.
  - right; intros [[x Hx] _]; discriminate.
  - right; intros [[x Hx] _]; discriminate.
Qed.

Lemma yields_image_or_not (gw : Outcome GeminiService.ContentResponse) :
  yields_no_image gw = true \/ exists img, yields_image gw img.
Proof.
  destruct gw as [r|]; [|left; reflexivity]. cbn [yields_no_image].
  destruct (GeminiService.firstInlineData (GeminiService.parts r))
    as [[[|c img]|]|] eqn:E; cbn; auto.
  right. exists (c :: img), r. repeat split; [exact E | discriminate].
Qed.

(** The three ways a call of [regenerateEndFrame] can end: nothing
    happened; the flag went up and down around an alert; the chain was
    updated after one gateway call. *)
Lemma regenerateEndFrame_cases
    (w : World) (i : str) (client : Outcome unit)
    (gw : Outcome GeminiService.ContentResponse) :
  App.invoke (fun snapshot => App.regenerateEndFrame snapshot i client gw) w
    = (Return tt, w)
  \/ (exists events,
        gatewayCalls events <= 1 /\
        App.invoke (fun snapshot =>
            App.regenerateEndFrame snapshot i client gw) w
        = (Return tt,
           mkWorld
             (with_state
                (App.mapScene i (with_isRegeneratingImage false)
                   (App.mapScene i (with_isRegeneratingImage true)
                      (state (store w))))
                (store w))
             (trace w ++ events)))
  \/ (exists k img,
        JS.findIndex (fun s => JS.eqb (id s) i) (scenes_of w) = Some k /\
        App.invoke (fun snapshot =>
            App.regenerateEndFrame snapshot i client gw) w
        = (Return tt,
           mkWorld
             (with_state
                (App.chainUpdate k (Some img)
                   (App.mapScene i (with_isRegeneratingImage true)
                      (state (store w))))
                (store w))
             (trace w
                ++ [GatewayCall (generateContent
                      (App.modelName
                         (selectedModel (config (state (store w))))))]))).
Proof.
  destruct (JS.findIndex (fun s => JS.eqb (id s) i) (scenes_of w))
    as [k|] eqn:Hk.
  2:{ left. unfold App.invoke, App.regenerateEndFrame.
      unfold scenes_of in Hk. now rewrite Hk. }
  destruct (findIndex_Some _ _ _ Hk) as (scene & Hscene & _).
  destruct (forallb JS.isWhiteSpace (endFrameActionPrompt scene)) eqn:Hp.
  { left. apply trim_blank in Hp.
    unfold App.invoke, App.regenerateEndFrame.
    unfold scenes_of in Hk, Hscene. now rewrite Hk, Hscene, Hp. }
  destruct client as [[]|].
  2:{ right; left. eexists. split;
        [|apply (regenerateEndFrame_no_client_run w i k scene);
          assumption].
      cbn; lia. }
  destruct (references_present_dec (state (store w))) as [Hrefs|Hrefs].
  2:{ right; left. eexists. split;
        [|apply (regenerateEndFrame_no_references_run w i k scene);
          assumption].
      cbn; lia. }
  destruct (yields_image_or_not gw) as [Hno | [img Himg]].
  - right; left. eexists. split;
      [|apply (regenerateEndFrame_failure_trace w i k scene); assumption].
    destruct gw; cbn; lia.
  - right; right. exists k, img. split; [reflexivity|].
    now apply (regenerateEndFrame_success_run w i k scene).
Qed.

Lemma lookup_chainUpdate (k : nat) (img : image) (a : AppState) (j : nat) :
  scenes (App.chainUpdate k img a) !! j
  = (fun s =>
       if j =? k
       then with_status idle (with_generatedVideoUrl None
              (with_isRegeneratingImage false (with_endImage img s)))
       else if j =? k + 1
            then with_status idle (with_generatedVideoUrl None
                   (with_startImage img s))
            else s) <$> scenes a !! j.
Proof.
  destruct (Nat.eqb_spec j k) as [->|Hk].
  - apply lookup_chainUpdate_current.
  - destruct (Nat.eqb_spec j (k + 1)) as [->|Hk1].
    + destruct (Nat.lt_ge_cases (k + 1) (length (scenes a))) as [Hlt|Hge].
      * now apply lookup_chainUpdate_next.
      * rewrite !lookup_ge_None_2; [reflexivity | exact Hge |].
        now rewrite length_chainUpdate.
    + rewrite lookup_chainUpdate_other by auto.
      now destruct (scenes a !! j).
Qed.

Lemma chained_fmap (f : SceneState -> SceneState) (l : list SceneState) :
  (forall s, startImage (f s) = startImage s /\ endImage (f s) = endImage s) ->
  chained l -> chained (f <$> l).
Proof.
  intros Hf Hl j s' t'. rewrite !list_lookup_fmap.
  destruct (l !! j) as [s|] eqn:Hs; [|discriminate].
  destruct (l !! (j + 1)) as [t|] eqn:Ht; [|discriminate].
  cbn. intros [= <-] [= <-].
  destruct (Hf s) as [_ ->]. destruct (Hf t) as [-> _]. eauto.
Qed.

Lemma chained_chainUpdate (k : nat) (img : image) (a : AppState) :
  chained (scenes a) -> chained (scenes (App.chainUpdate k img a)).
Proof.
  intros Ha j s' t'. rewrite !lookup_chainUpdate.
  destruct (scenes a !! j) as [s|] eqn:Hs; [|discriminate].
  destruct (scenes a !! (j + 1)) as [t|] eqn:Ht; [|discriminate].
  cbn. intros [= <-] [= <-]. pose proof (Ha j s t Hs Ht) as Hst.
  destruct (Nat.eqb_spec j k) as [->|Hjk].
  - rewrite Nat.eqb_refl.
    destruct (Nat.eqb_spec (k + 1) k); [lia | reflexivity].
  - destruct (Nat.eqb_spec (j + 1) (k + 1)); [lia|].
    destruct (Nat.eqb_spec j (k + 1)), (Nat.eqb_spec (j + 1) k);
      try lia; exact Hst.
Qed.

Lemma mapScene_flag_images (i : str) (b : bool) (s : SceneState) :
  startImage (if JS.eqb (id s) i then with_isRegeneratingImage b s else s)
    = startImage s /\
  endImage (if JS.eqb (id s) i then with_isRegeneratingImage b s else s)
    = endImage s.
Proof. destruct (JS.eqb (id s) i); split; reflexivity. Qed.

(** X5. Whatever the gateway answers, whether or not a client can be
    constructed and whatever the state, a call of
    [regenerateEndFrame] returns (it neither throws nor blocks) after at
    most one gateway call; the scene list keeps its length, and no scene
    changes its identifier, index, texts, duration estimate, resolution,
    processing flag or error message; step, configuration and credential
    flag are as before. *)
Theorem regenerateEndFrame_always_returns
    (w : World) (i : str) (client : Outcome unit)
    (gw : Outcome GeminiService.ContentResponse) :
  exists w' events,
    App.invoke (fun snapshot =>
        App.regenerateEndFrame snapshot i client gw) w
      = (Return tt, w') /\
    trace w' = trace w ++ events /\
    gatewayCalls events <= 1 /\
    same_frame (state (store w)) (state (store w')) /\
    length (scenes_of w') = length (scenes_of w) /\
    forall j s, scenes_of w !! j = Some s ->
      exists s', scenes_of w' !! j = Some s' /\ same_but_frames s s'.
Proof.
  destruct (regenerateEndFrame_cases w i client gw)
    as [Hrun | [(events & Hcalls & Hrun) | (k & img & _ & Hrun)]].
  - exists w, []. rewrite app_nil_r.
    repeat split; [exact Hrun | cbn; lia |].
    intros j s Hs. exists s. repeat split. exact Hs.
  - eexists; exists events. split; [exact Hrun|].
    split; [reflexivity|]. split; [exact Hcalls|].
    split; [repeat split|].
    unfold scenes_of; cbn [store state with_state].
    split; [now rewrite !length_mapScene|].
    intros j s Hs. rewrite !lookup_mapScene, Hs.
    cbn [fmap option_fmap option_map].
    eexists. split; [reflexivity|].
    destruct (JS.eqb (id s) i) eqn:E; cbn [id with_isRegeneratingImage];
      rewrite ?E; repeat split.
  - eexists; eexists. split; [exact Hrun|].
    split; [reflexivity|]. split; [cbn; lia|].
    split; [repeat split|].
    unfold scenes_of; cbn [store state with_state].
    split; [now rewrite length_chainUpdate, length_mapScene|].
    intros j s Hs. rewrite lookup_chainUpdate, lookup_mapScene, Hs.
    cbn [fmap option_fmap option_map].
    eexists. split; [reflexivity|].
    destruct (JS.eqb (id s) i), (j =? k), (j =? k + 1); repeat split.
Qed.

Lemma regenerateEndFrame_always_returns_witness :
  let a := Sample.scene "a" 0 (lit "look up") (lit "Hello.") in
  let w := Sample.world [a; Sample.scene "b" 1 [] []] in
  exists w' s',
    App.invoke (fun snapshot =>
        App.regenerateEndFrame snapshot (lit "a") (Resolves tt)
          (Sample.picture "NEW")) w
      = (Return tt, w') /\
    scenes_of w' !! 0 = Some s' /\ same_but_frames a s'.
Proof.
  intros a w.
  destruct (regenerateEndFrame_always_returns w (lit "a") (Resolves tt)
              (Sample.picture "NEW"))
    as (w' & events & Hrun & _ & _ & _ & _ & Hscenes).
  destruct (Hscenes 0 a eq_refl) as (s' & Hs' & Hsame).
  exists w', s'. auto.
Defined.

(** X6. Regeneration keeps the frame chain: if every scene ends on the
    image the next one starts with before a call of [regenerateEndFrame],
    the same holds after it, whatever the gateway answered and whether or
    not a client could be constructed. *)
Theorem regenerateEndFrame_preserves_chain
    (w : World) (i : str) (client : Outcome unit)
    (gw : Outcome GeminiService.ContentResponse) :
  chained (scenes_of w) ->
  chained (scenes_of
             (snd (App.invoke (fun snapshot =>
                     App.regenerateEndFrame snapshot i client gw) w))).
Proof.
  intros Hchain.
  destruct (regenerateEndFrame_cases w i client gw)
    as [Hrun | [(events & _ & Hrun) | (k & img & _ & Hrun)]];
    rewrite Hrun; cbn [snd]; [exact Hchain | |];
    unfold scenes_of in *; cbn [store state with_state].
  - unfold App.mapScene; cbn [scenes with_scenes].
    do 2 (apply chained_fmap; [apply mapScene_flag_images|]). exact Hchain.
  - apply chained_chainUpdate.
    unfold App.mapScene; cbn [scenes with_scenes].
    apply chained_fmap; [apply mapScene_flag_images | exact Hchain].
Qed.

Lemma regenerateEndFrame_preserves_chain_witness :
  let a := Sample.scene "a" 0 (lit "look up") [] in
  let b := with_startImage (Some (lit "frame'")) (Sample.scene "b" 1 [] []) in
  let w := Sample.world [a; b] in
  chained (scenes_of
             (snd (App.invoke (fun snapshot =>
                     App.regenerateEndFrame snapshot (lit "a") (Resolves tt)
                       (Sample.picture "NEW")) w))).
Proof.
  intros a b w.
  apply (regenerateEndFrame_preserves_chain w (lit "a") (Resolves tt)
           (Sample.picture "NEW")).
  intros [|[|j]] s t; cbn; try discriminate.
  intros [= <-] [= <-]. reflexivity.
Defined.

(** X7. A scene whose start or end image is not what it was before a call
    of [regenerateEndFrame] has no generated video and status idle after
    it: no video outlives a change of its frames. *)
Theorem changed_image_clears_video
    (w : World) (i : str) (client : Outcome unit)
    (gw : Outcome GeminiService.ContentResponse)
    (j : nat) (s s' : SceneState) :
  scenes_of w !! j = Some s ->
  scenes_of (snd (App.invoke (fun snapshot =>
                    App.regenerateEndFrame snapshot i client gw) w)) !! j
    = Some s' ->
  startImage s' <> startImage s \/ endImage s' <> endImage s ->
  generatedVideoUrl s' = None /\ status s' = idle.
Proof.
  intros Hs.
  destruct (regenerateEndFrame_cases w i client gw)
    as [Hrun | [(events & _ & Hrun) | (k & img & _ & Hrun)]];
    rewrite Hrun; cbn [snd]; unfold scenes_of in *;
    cbn [store state with_state].
  - rewrite Hs. intros [= <-] [H|H]; congruence.
  - rewrite !lookup_mapScene, Hs. cbn. intros [= <-].
    destruct (JS.eqb (id s) i) eqn:E; cbn [id with_isRegeneratingImage];
      rewrite ?E; cbn; intros [H|H]; congruence.
  - rewrite lookup_chainUpdate, lookup_mapScene, Hs. cbn. intros [= <-].
    destruct (JS.eqb (id s) i), (j =? k), (j =? k + 1); cbn;
      try (split; reflexivity); intros [H|H]; congruence.
Qed.

Lemma changed_image_clears_video_witness :
  let a := Sample.scene "a" 0 (lit "look up") [] in
  let b := Sample.scene "b" 1 [] [] in
  let w := Sample.world [a; b] in
  let s' := with_status idle (with_generatedVideoUrl None
              (with_startImage (Some (lit "NEW")) b)) in
  generatedVideoUrl s' = None /\ status s' = idle.
Proof.
  intros a b w s'.
  apply (changed_image_clears_video w (lit "a") (Resolves tt)
           (Sample.picture "NEW") 1 b s').
  - reflexivity.
  - reflexivity.
  - left. discriminate.
Defined.

(** X8. When a reference image is missing from the configuration, a
    regeneration with a usable prompt fails before it calls the gateway:
    the only events are the console error and the alert, whatever the
    gateway would have answered and whether or not a client could have
    been constructed, and every scene is as before except that
    the scenes with the identifier have [isRegeneratingImage] cleared. *)
Theorem regenerateEndFrame_without_references
    (w : World) (i : str) (scene : SceneState)
    (client : Outcome unit) (gw : Outcome GeminiService.ContentResponse)
    (j : nat) (s : SceneState) :
  JS.find (fun s => JS.eqb (id s) i) (scenes_of w) = Some scene ->
  forallb JS.isWhiteSpace (endFrameActionPrompt scene) = false ->
  ~ references_present (state (store w)) ->
  scenes_of w !! j = Some s ->
  exists w',
    App.invoke (fun snapshot =>
        App.regenerateEndFrame snapshot i client gw) w
      = (Return tt, w') /\
    trace w'
      = trace w ++ [ConsoleError;
                    Alert (lit "Failed to regenerate image. Try again.")] /\
    scenes_of w' !! j
      = Some (if JS.eqb (id s) i
              then with_isRegeneratingImage false s else s).
Proof.
  intros Hfind Hprompt Hrefs Hs.
  destruct (find_Some_findIndex _ _ _ Hfind) as (k & Hk & Hscene).
  eexists. split;
    [apply (regenerateEndFrame_no_references_run w i k scene); assumption|].
  split; [reflexivity|].
  unfold scenes_of in *; cbn [store state with_state].
  rewrite !lookup_mapScene, Hs. cbn [fmap option_fmap option_map].
  destruct (JS.eqb (id s) i) eqn:E; cbn [id with_isRegeneratingImage];
    rewrite E; [f_equal; now destruct s | reflexivity].
Qed.

Lemma regenerateEndFrame_without_references_witness :
  let a := Sample.scene "a" 0 (lit "look up") [] in
  let w0 := Sample.world [a] in
  let w := mkWorld
             (with_state
                (with_config (with_mainImage None (config (state (store w0))))
                   (state (store w0)))
                (store w0)) [] in
  exists w',
    App.invoke (fun snapshot =>
        App.regenerateEndFrame snapshot (lit "a") (Resolves tt)
          (Sample.picture "NEW")) w
      = (Return tt, w') /\
    trace w'
      = trace w ++ [ConsoleError;
                    Alert (lit "Failed to regenerate image. Try again.")] /\
    scenes_of w' !! 0
      = Some (if JS.eqb (id a) (lit "a")
              then with_isRegeneratingImage false a else a).
Proof.
  intros a w0 w.
  apply (regenerateEndFrame_without_references w (lit "a") a (Resolves tt)
           (Sample.picture "NEW") 0 a).
  - reflexivity.
  - reflexivity.
  - intros [[x Hx] _]. discriminate.
  - reflexivity.
Defined.

Lemma distinct_ids (l : list SceneState) (j k : nat) (s x : SceneState) :
  NoDup (id <$> l) -> l !! j = Some s -> l !! k = Some x -> j <> k ->
  id s <> id x.
Proof.
  intros Hnd Hs Hx Hjk E. apply Hjk.
  apply (NoDup_lookup (id <$> l) j k (id s) Hnd).
  - now rewrite list_lookup_fmap, Hs.
  - now rewrite list_lookup_fmap, Hx, E.
Qed.

(** X9. With pairwise distinct scene identifiers, a successful
    regeneration on the scene at [sceneIndex] changes two scenes at most:
    every scene at another position than [sceneIndex] and [sceneIndex + 1]
    is exactly as before, scene [sceneIndex] keeps its start image and
    scene [sceneIndex + 1] its end image. *)
Theorem regenerateEndFrame_touches_two_scenes
    (w : World) (sceneIndex : nat) (scene : SceneState)
    (gw : Outcome GeminiService.ContentResponse) (img : str) :
  NoDup (id <$> scenes_of w) ->
  scenes_of w !! sceneIndex = Some scene ->
  forallb JS.isWhiteSpace (endFrameActionPrompt scene) = false ->
  references_present (state (store w)) ->
  yields_image gw img ->
  exists w',
    App.invoke (fun snapshot =>
        App.regenerateEndFrame snapshot (id scene) (Resolves tt) gw) w
      = (Return tt, w') /\
    (forall j, j <> sceneIndex -> j <> sceneIndex + 1 ->
       scenes_of w' !! j = scenes_of w !! j) /\
    startImage <$> scenes_of w' !! sceneIndex = Some (startImage scene) /\
    endImage <$> scenes_of w' !! (sceneIndex + 1)
      = endImage <$> scenes_of w !! (sceneIndex + 1).
Proof.
  intros Hnd Hscene Hprompt Hrefs Hgw.
  pose proof (findIndex_unique _ _ _ Hnd Hscene) as Hk.
  eexists. split;
    [exact (regenerateEndFrame_success_run w (id scene) sceneIndex scene
              Hk Hscene Hprompt gw img Hrefs Hgw)|].
  unfold scenes_of in *; cbn [store state with_state].
  assert (Hother : forall j s, scenes (state (store w)) !! j = Some s ->
            j <> sceneIndex -> JS.eqb (id s) (id scene) = false).
  { intros j s Hs Hj. apply eqb_neq. eapply distinct_ids; eauto. }
  split; [|split].
  - intros j Hj Hj1. rewrite lookup_chainUpdate, lookup_mapScene.
    destruct (scenes (state (store w)) !! j) as [s|] eqn:Hs; [|reflexivity].
    cbn. rewrite (Hother j s Hs Hj).
    destruct (Nat.eqb_spec j sceneIndex); [lia|].
    destruct (Nat.eqb_spec j (sceneIndex + 1)); [lia | reflexivity].
  - rewrite lookup_chainUpdate, lookup_mapScene, Hscene. cbn.
    rewrite Nat.eqb_refl, eqb_refl. reflexivity.
  - rewrite lookup_chainUpdate, lookup_mapScene.
    destruct (scenes (state (store w)) !! (sceneIndex + 1)) as [t|] eqn:Ht;
      [|reflexivity].
    cbn. rewrite (Hother _ t Ht) by lia.
    destruct (Nat.eqb_spec (sceneIndex + 1) sceneIndex); [lia|].
    rewrite Nat.eqb_refl. reflexivity.
Qed.

Lemma regenerateEndFrame_touches_two_scenes_witness :
  let a := Sample.scene "a" 0 [] [] in
  let b := Sample.scene "b" 1 (lit "wave") [] in
  let c := Sample.scene "c" 2 [] [] in
  let d := Sample.scene "d" 3 [] [] in
  let w := Sample.world [a; b; c; d] in
  exists w',
    App.invoke (fun snapshot =>
        App.regenerateEndFrame snapshot (id b) (Resolves tt)
          (Sample.picture "NEW")) w
      = (Return tt, w') /\
    (forall j, j <> 1 -> j <> 1 + 1 ->
       scenes_of w' !! j = scenes_of w !! j) /\
    startImage <$> scenes_of w' !! 1 = Some (startImage b) /\
    endImage <$> scenes_of w' !! (1 + 1) = endImage <$> scenes_of w !! (1 + 1).
Proof.
  intros a b c d w.
  apply (regenerateEndFrame_touches_two_scenes w 1 b (Sample.picture "NEW")
           (lit "NEW")).
  - apply (bool_decide_unpack _). vm_compute. exact I.
  - reflexivity.
  - reflexivity.
  - split; eexists; reflexivity.
  - eexists; repeat split. discriminate.
Defined.

(* ===================================================================== *)
(** ** Duration analysis, whatever the outcome *)
(* ===================================================================== *)

(** X10. Whatever the gateway answers, whether or not a client can be
    constructed and whatever the state, a call of
    [analyzeDuration] returns after at most one gateway call; it writes
    nothing but [recommendedDuration] and [isProcessing], and those only on
    scenes with the given identifier (so no status, image or video
    changes); with a client, a duration it stores consists of digits and
    full stops only, and the scene it is stored on is no longer
    processing; without one, the scene is no longer processing and keeps
    the estimate it had. *)
Theorem analyzeDuration_always_returns
    (w : World) (i : str) (client : Outcome unit)
    (gw : Outcome GeminiService.ContentResponse) :
  exists w' events,
    App.invoke (fun snapshot => App.analyzeDuration snapshot i client gw) w
      = (Return tt, w') /\
    trace w' = trace w ++ events /\
    gatewayCalls events <= 1 /\
    same_frame (state (store w)) (state (store w')) /\
    length (scenes_of w') = length (scenes_of w) /\
    forall j s, scenes_of w !! j = Some s ->
      exists s',
        scenes_of w' !! j = Some s' /\
        same_but_duration s s' /\
        (s' = s \/
         id s = i /\ isProcessing s' = false /\
         match client with
         | Resolves _ =>
             exists d, recommendedDuration s' = Some d /\
                       forallb digitOrDot d = true
         | Rejects => recommendedDuration s' = recommendedDuration s
         end).
Proof.
  destruct (JS.find (fun s => JS.eqb (id s) i) (scenes_of w))
    as [scene|] eqn:Hfind.
  2:{ exists w, []. rewrite app_nil_r.
      split; [unfold App.invoke, App.analyzeDuration;
              unfold scenes_of in Hfind; now rewrite Hfind|].
      repeat split; [cbn; lia|].
      intros j s Hs. exists s. split; [exact Hs|].
      split; [now destruct s | now left]. }
  destruct (forallb JS.isWhiteSpace (script scene)) eqn:Hblank.
  { exists w, []. rewrite app_nil_r.
    split; [apply trim_blank in Hblank;
            unfold App.invoke, App.analyzeDuration;
            unfold scenes_of in Hfind; now rewrite Hfind, Hblank|].
    repeat split; [cbn; lia|].
    intros j s Hs. exists s. split; [exact Hs|].
    split; [now destruct s | now left]. }
  destruct client as [[]|].
  - eexists; eexists.
    split; [apply (analyzeDuration_run w i scene gw Hfind Hblank)|].
    split; [reflexivity|].
    split; [destruct gw; cbn; lia|].
    split; [repeat split|].
    unfold scenes_of; cbn [store state with_state].
    split; [now rewrite !length_mapScene|].
    intros j s Hs. rewrite !lookup_mapScene, Hs.
    cbn [fmap option_fmap option_map].
    eexists. split; [reflexivity|].
    destruct (JS.eqb (id s) i) eqn:E; cbn [id with_isProcessing]; rewrite E.
    + split; [now destruct s|]. right. apply eqb_eq in E.
      split; [exact E|]. split; [reflexivity|].
      eexists. split; [reflexivity|].
      destruct gw; [apply forallb_filter_same | reflexivity].
    + split; [now destruct s | now left].
  - eexists; exists [].
    split; [apply (analyzeDuration_no_client_run w i scene gw Hfind Hblank)|].
    split; [cbn [trace]; now rewrite app_nil_r|].
    split; [cbn; lia|].
    split; [repeat split|].
    unfold scenes_of; cbn [store state with_state].
    split; [now rewrite !length_mapScene|].
    intros j s Hs. rewrite !lookup_mapScene, Hs.
    cbn [fmap option_fmap option_map].
    eexists. split; [reflexivity|].
    destruct (JS.eqb (id s) i) eqn:E; cbn [id with_isProcessing]; rewrite E.
    + split; [now destruct s|]. right. apply eqb_eq in E.
      split; [exact E|]. split; reflexivity.
    + split; [now destruct s | now left].
Qed.

Lemma analyzeDuration_always_returns_witness :
  let a := Sample.scene "a" 0 [] (lit "Hello.") in
  let w := Sample.world [a; Sample.scene "b" 1 [] []] in
  exists w' s',
    App.invoke (fun snapshot =>
        App.analyzeDuration snapshot (lit "a") (Resolves tt)
          (Sample.answer "4.5")) w
      = (Return tt, w') /\
    scenes_of w' !! 0 = Some s' /\ same_but_duration a s'.
Proof.
  intros a w.
  destruct (analyzeDuration_always_returns w (lit "a") (Resolves tt)
              (Sample.answer "4.5"))
    as (w' & events & Hrun & _ & _ & _ & _ & Hscenes).
  destruct (Hscenes 0 a eq_refl) as (s' & Hs' & Hsame & _).
  exists w', s'. auto.
Defined.

(* ===================================================================== *)
(** ** Video generation, whatever the outcome *)
(* ===================================================================== *)

Lemma credential_rejected_step (key : option (Outcome unit)) (w : World) :
  ~ credential_ready (state (store w)) key ->
  (if negb (isApiKeySelected (state (store w)))
   then App.handleKeySelect key else mret tt) w
  = (Throw Rejected, mkWorld (store w) (trace w ++ [SelectKeyDialog])).
Proof.
  unfold credential_ready. intros Hnot.
  destruct (isApiKeySelected (state (store w))); [exfalso; auto|].
  destruct key as [[[]|]|]; try (exfalso; apply Hnot; right; discriminate).
  reflexivity.
Qed.






Lemma pollUntilDone_pending answers :
  forall operation (w : World),
    GeminiService.done operation = false ->
    Forall still_running answers ->
    exists events,
      GeminiService.pollUntilDone operation answers w
      = (Pending, mkWorld (store w) (trace w ++ events)).
Proof.
  induction answers as [|a answers IH]; intros operation w Hop Hall;
    cbn [GeminiService.pollUntilDone]; rewrite Hop.
  - exists [Sleep 5000; GatewayCall getVideosOperation].
    run_monad. reflexivity.
  - apply Forall_cons in Hall as [(op & -> & Hrun) Hall].
    destruct (IH op
                (mkWorld (store w)
                   (trace w ++ [Sleep 5000; GatewayCall getVideosOperation]))
                Hrun Hall) as (events & Hev).
    exists ([Sleep 5000; GatewayCall getVideosOperation] ++ events).
    run_monad. cbn [store trace app] in Hev. rewrite Hev.
    now rewrite <- app_assoc.
Qed.

Lemma generateVeoSegment_pending a b c d e f g env (w : World) :
  GeminiService.client env = Resolves tt ->
  Forall still_running (answers env) ->
  exists events,
    GeminiService.generateVeoSegment a b c d e f g env w
    = (Pending, mkWorld (store w) (trace w ++ events)).
Proof.
  unfold answers. intros Hclient Hall.
  apply Forall_cons in Hall as [(op & Hsub & Hrun) Hall].
  destruct (pollUntilDone_pending (GeminiService.polls env) op
              (mkWorld (store w)
                 (trace w ++ [GatewayCall (generateVideos
                                 (lit "veo-3.1-generate-preview"))]))
              Hrun Hall) as (events & Hev).
  exists (GatewayCall (generateVideos (lit "veo-3.1-generate-preview"))
            :: events).
  unfold GeminiService.generateVeoSegment. rewrite Hclient, Hsub.
  run_monad. cbn [store trace] in Hev. rewrite Hev.
  cbn [store trace]. now rewrite <- app_assoc.
Qed.

(** X12. With a client, while every answer of the gateway reports the job
    still running, [generateVideo] stays suspended: the scene is in [generating_video]
    with no error message, its card shows the button disabled and labelled
    as generating, and a click on that button does nothing, so no second
    job is submitted for the scene. *)
Theorem generateVideo_blocks_while_running
    (w : World) (i : str) (scene : SceneState)
    (key : option (Outcome unit)) (env : GeminiService.VeoEnv)
    (j : nat) (s : SceneState) :
  JS.find (fun s => JS.eqb (id s) i) (scenes_of w) = Some scene ->
  credential_ready (state (store w)) key ->
  GeminiService.client env = Resolves tt ->
  Forall still_running (answers env) ->
  scenes_of w !! j = Some s ->
  id s = i ->
  exists w' s',
    App.invoke (fun snapshot => App.generateVideo snapshot i key env) w
      = (Pending, w') /\
    scenes_of w' !! j = Some s' /\
    status s' = generating_video /\ errorMessage s' = None /\
    generatedVideoUrl s' = generatedVideoUrl s /\
    SceneCard.generateDisabled (SceneCard.render s') = true /\
    SceneCard.generateLabel (SceneCard.render s') = lit "Generating..." /\
    forall key' env',
      App.invoke (fun snapshot =>
          App.clickGenerate snapshot s' key' env') w' = (Return tt, w').
Proof.
  intros Hfind Hready Hclient Hall Hs Hid.
  destruct (credential_step key w Hready)
    as (w1 & keyEvents & Hcred & Hscenes & _ & _).
  unfold App.invoke at 1. unfold App.generateVideo.
  unfold scenes_of in Hfind. rewrite Hfind.
  erewrite bind_return by exact Hcred.
  erewrite bind_return by reflexivity.
  unfold try_catch.
  match goal with
  | |- context [mbind _ _ ?w2] =>
      destruct (generateVeoSegment_pending
                  (startImage scene) (endImage scene)
                  (movementDescription scene) (expressionDescription scene)
                  (script scene) (contextDesc (store w))
                  (targetResolution scene) env w2 Hclient Hall)
        as (events & Hrun)
  end.
  unfold mbind, M_bind. rewrite Hrun.
  eexists; exists (with_errorMessage None (with_status generating_video s)).
  split; [reflexivity|].
  split.
  { unfold scenes_of in *; cbn [store state with_state].
    rewrite lookup_mapScene, Hscenes, Hs. cbn.
    apply eqb_eq in Hid. now rewrite Hid. }
  repeat split.
  - cbn. now rewrite orb_true_r.
  - intros key' env'. unfold App.invoke, App.clickGenerate. cbn.
    now rewrite orb_true_r.
Qed.

Lemma generateVideo_blocks_while_running_witness :
  let a := Sample.scene "a" 0 [] [] in
  let w := Sample.world [a] in
  let running := Resolves (GeminiService.mkOperation false None) in
  let env := GeminiService.mkVeo (Resolves tt) running [running; running]
               (Resolves tt) [] in
  exists w' s',
    App.invoke (fun snapshot =>
        App.generateVideo snapshot (lit "a") None env) w = (Pending, w') /\
    scenes_of w' !! 0 = Some s' /\
    status s' = generating_video /\ errorMessage s' = None /\
    generatedVideoUrl s' = generatedVideoUrl a /\
    SceneCard.generateDisabled (SceneCard.render s') = true /\
    SceneCard.generateLabel (SceneCard.render s') = lit "Generating..." /\
    forall key' env',
      App.invoke (fun snapshot =>
          App.clickGenerate snapshot s' key' env') w' = (Return tt, w').
Proof.
  intros a w running env.
  apply (generateVideo_blocks_while_running w (lit "a") a None env 0 a).
  - reflexivity.
  - left; reflexivity.
  - reflexivity.
  - repeat constructor; eexists; split; reflexivity.
  - reflexivity.
  - reflexivity.
Defined.

Lemma pollEvents_snoc (n : nat) :
  pollEvents n ++ [Sleep 5000; GatewayCall getVideosOperation]
  = pollEvents (S n).
Proof. induction n as [|n IH]; cbn; [reflexivity | now rewrite IH]. Qed.

Lemma pollUntilDone_trace waiting :
  forall operation o rest (w : World),
    GeminiService.done operation = false ->
    Forall still_running waiting ->
    ~ still_running o ->
    GeminiService.pollUntilDone operation (waiting ++ o :: rest) w
    = (settled o,
       mkWorld (store w) (trace w ++ pollEvents (S (length waiting)))).
Proof.
  induction waiting as [|a waiting IH]; intros operation o rest w Hop Hall Ho.
  - cbn [app GeminiService.pollUntilDone]. rewrite Hop.
    destruct o as [op|]; run_monad; [|reflexivity].
    destruct rest; cbn; destruct (GeminiService.done op) eqn:E;
      try reflexivity; exfalso; apply Ho; exists op; auto.
  - apply Forall_cons in Hall as [(op & -> & Hrun) Hall].
    cbn [app GeminiService.pollUntilDone]. rewrite Hop.
    run_monad.
    rewrite (IH op o rest _ Hrun Hall Ho). cbn [store trace length].
    now rewrite <- app_assoc.
Qed.

(** X13. With a client, a video job is polled once for every answer that
    reports it still running, each poll after a pause of five seconds, and not again
    once an answer reports it done: after the submission and [n] such
    answers the events are the submission, [n] pause-and-poll pairs and,
    only when the finished job carries a video reference, the download.
    The result is the object URL, [null] without a reference, or the
    rejection of the download, logged and thrown on. *)
Theorem generateVeoSegment_polls_until_done
    (startImage endImage : image) (movement expression script context : str)
    (resolution : Resolution) (env : GeminiService.VeoEnv)
    (waiting : list (Outcome GeminiService.Operation))
    (op : GeminiService.Operation)
    (rest : list (Outcome GeminiService.Operation)) (w : World) :
  GeminiService.client env = Resolves tt ->
  Forall still_running waiting ->
  answers env = waiting ++ Resolves op :: rest ->
  GeminiService.done op = true ->
  GeminiService.generateVeoSegment startImage endImage movement expression
    script context resolution env w
  = (if JS.truthy_opt (GeminiService.videoUri op)
     then match GeminiService.download env with
          | Resolves _ =>
              Return (Some (lit "blob:" ++ GeminiService.objectUrlId env))
          | Rejects => Throw Rejected
          end
     else Return None,
     mkWorld (store w)
       (trace w
          ++ GatewayCall (generateVideos (lit "veo-3.1-generate-preview"))
             :: pollEvents (length waiting)
          ++ if JS.truthy_opt (GeminiService.videoUri op)
             then GatewayCall fetchVideo
                    :: match GeminiService.download env with
                       | Resolves _ => []
                       | Rejects => [ConsoleError]
                       end
             else [])).
Proof.
  intros Hclient Hall Hans Hdone.
  pose proof (done_not_running op Hdone) as Hop.
  unfold GeminiService.generateVeoSegment. rewrite Hclient.
  erewrite bind_return by reflexivity. unfold try_catch.
  unfold answers in Hans.
  assert (Hjob :
    (operation ← await_gateway
                   (generateVideos (lit "veo-3.1-generate-preview"))
                   (GeminiService.submission env);
     GeminiService.pollUntilDone operation (GeminiService.polls env)) w
    = (Return op,
       mkWorld (store w)
         (trace w
            ++ GatewayCall (generateVideos (lit "veo-3.1-generate-preview"))
               :: pollEvents (length waiting)))).
  { destruct waiting as [|a waiting]; cbn [app] in Hans;
      injection Hans as Hsub Hpolls; rewrite Hsub.
    - run_monad. destruct (GeminiService.polls env); cbn; now rewrite Hdone.
    - apply Forall_cons in Hall as [(op0 & -> & Hrun) Hall].
      rewrite Hpolls. run_monad.
      rewrite (pollUntilDone_trace waiting op0 (Resolves op) rest _
                 Hrun Hall Hop).
      cbn [store trace settled length]. now rewrite <- app_assoc. }
  rewrite bind_assoc.
  erewrite bind_return by exact Hjob.
  destruct (JS.truthy_opt (GeminiService.videoUri op)); cbn [negb].
  - destruct (GeminiService.download env) as [[]|]; run_monad;
      rewrite <- ?app_assoc; reflexivity.
  - run_monad. rewrite <- ?app_assoc. cbn. now rewrite app_nil_r.
Qed.

Lemma generateVeoSegment_polls_until_done_witness :
  let running := Resolves (GeminiService.mkOperation false None) in
  let op := GeminiService.mkOperation true (Some (lit "https://v/1?x=1")) in
  let env := GeminiService.mkVeo (Resolves tt) running
               [running; Resolves op; running] (Resolves tt) (lit "7f3c") in
  let w := Sample.world [] in
  GeminiService.generateVeoSegment (Some (lit "s")) (Some (lit "e")) [] [] []
    [] res_4k env w
  = (Return (Some (lit "blob:" ++ lit "7f3c")),
     mkWorld (store w)
       [GatewayCall (generateVideos (lit "veo-3.1-generate-preview"));
        Sleep 5000; GatewayCall getVideosOperation;
        Sleep 5000; GatewayCall getVideosOperation;
        GatewayCall fetchVideo]).
Proof.
  intros running op env w.
  apply (generateVeoSegment_polls_until_done (Some (lit "s"))
           (Some (lit "e")) [] [] [] [] res_4k env [running; running] op
           [running] w).
  - reflexivity.
  - repeat constructor; eexists; split; reflexivity.
  - reflexivity.
  - reflexivity.
Defined.

(** X14. When no credential is selected and the selection dialog fails,
    [generateVideo] on a scene of the list and [startAnalysisAndGeneration]
    with both images loaded throw before they change anything: the store
    is as before (no status, no step changed) and the dialog is the only
    event, so no gateway call went out. *)
Theorem rejected_credential_dialog_aborts
    (w : World) (i : str) (scene : SceneState)
    (env : GeminiService.VeoEnv) (penv : App.PipelineEnv) :
  isApiKeySelected (state (store w)) = false ->
  JS.find (fun s => JS.eqb (id s) i) (scenes_of w) = Some scene ->
  App.startDisabled (state (store w)) = false ->
  App.aistudio penv = Some Rejects ->
  App.invoke (fun snapshot =>
      App.generateVideo snapshot i (Some Rejects) env) w
    = (Throw Rejected, mkWorld (store w) (trace w ++ [SelectKeyDialog])) /\
  App.invoke (fun snapshot =>
      App.startAnalysisAndGeneration snapshot penv) w
    = (Throw Rejected, mkWorld (store w) (trace w ++ [SelectKeyDialog])).
Proof.
  intros Hkey Hfind Hstart Hdialog.
  assert (Hnot : ~ credential_ready (state (store w)) (Some Rejects)).
  { intros [H|H]; [congruence | now apply H]. }
  split.
  - unfold App.invoke, App.generateVideo.
    unfold scenes_of in Hfind. rewrite Hfind.
    erewrite bind_throw by (apply credential_rejected_step; exact Hnot).
    reflexivity.
  - unfold App.invoke, App.startAnalysisAndGeneration.
    unfold App.startDisabled in Hstart.
    destruct (mainImage (config (state (store w)))) as [main|];
      [|discriminate].
    destruct (faceReference (config (state (store w)))) as [face|];
      [|cbn in Hstart; rewrite orb_true_r in Hstart; discriminate].
    cbn [JS.truthy_opt] in Hstart. rewrite Hstart, Hdialog.
    erewrite bind_throw by (apply credential_rejected_step; exact Hnot).
    reflexivity.
Qed.

Lemma rejected_credential_dialog_aborts_witness :
  let w0 := Sample.world [Sample.scene "a" 0 [] []] in
  let w := mkWorld
             (with_state (with_isApiKeySelected false (state (store w0)))
                (store w0)) [] in
  let env := GeminiService.mkVeo (Resolves tt) Rejects [] Rejects [] in
  let penv := App.mkPipeline (Some Rejects) (Resolves tt) Rejects
                (Resolves tt) Rejects (Resolves tt) (fun _ => Rejects)
                (fun _ => []) in
  App.invoke (fun snapshot =>
      App.generateVideo snapshot (lit "a") (Some Rejects) env) w
    = (Throw Rejected, mkWorld (store w) (trace w ++ [SelectKeyDialog])) /\
  App.invoke (fun snapshot =>
      App.startAnalysisAndGeneration snapshot penv) w
    = (Throw Rejected, mkWorld (store w) (trace w ++ [SelectKeyDialog])).
Proof.
  intros w0 w env penv.
  apply (rejected_credential_dialog_aborts w (lit "a")
           (Sample.scene "a" 0 [] []) env penv); reflexivity.
Defined.

(* ===================================================================== *)
(** ** The pipeline on enough frames *)
(* ===================================================================== *)

Lemma credential_step_quiet (key : option (Outcome unit)) (w : World) :
  credential_ready (state (store w)) key ->
  exists w1 events,
    (if negb (isApiKeySelected (state (store w)))
     then App.handleKeySelect key else mret tt) w = (Return tt, w1) /\
    trace w1 = trace w ++ events /\ gatewayCalls events = 0.
Proof.
  intros Hready.
  destruct (isApiKeySelected (state (store w))) eqn:E; cbn [negb].
  - exists w, []. rewrite app_nil_r. repeat split.
  - destruct Hready as [Hsel | Hkey]; [congruence|].
    unfold App.handleKeySelect, GeminiService.requestApiKey.
    destruct key as [[[]|]|]; [| congruence |].
    + eexists; exists [SelectKeyDialog].
      split; [run_monad; reflexivity | repeat split].
    + eexists; exists [].
      split; [run_monad; reflexivity | rewrite app_nil_r; repeat split].
Qed.

Lemma chained_newScenes uuid (frames : list image) :
  chained (App.newScenes uuid frames).
Proof.
  intros j s t Hs Ht.
  assert (Hj : j + 1 < length frames - 1).
  { apply lookup_lt_Some in Ht. now rewrite length_newScenes in Ht. }
  rewrite lookup_newScenes in Hs by lia.
  rewrite lookup_newScenes in Ht by lia.
  injection Hs as <-. injection Ht as <-. reflexivity.
Qed.

(** X15. With both images loaded, a ready credential, a client for each
    of the three stages, both analyses answered and at least one
    synthesized frame, the pipeline returns in
    step [sequencing] after exactly eleven gateway calls (two analyses and
    nine frame requests, whatever [numFrames] says).  There is one scene
    per synthesized frame, between one and nine; the scenes form a chain
    that starts at the payload of the uploaded image; each scene carries
    its position as index and the identifier drawn for it, and is idle
    without a video; both analysis caches are non-empty and the context
    description is built from them. *)
Theorem pipeline_reaches_sequencing
    (w : World) (env : App.PipelineEnv) (main face : str)
    (rf rs : GeminiService.ContentResponse) :
  mainImage (config (state (store w))) = Some main ->
  faceReference (config (state (store w))) = Some face ->
  JS.truthy main = true ->
  JS.truthy face = true ->
  credential_ready (state (store w)) (App.aistudio env) ->
  App.faceClient env = Resolves tt ->
  App.faceAnalysis env = Resolves rf ->
  App.sceneClient env = Resolves tt ->
  App.sceneAnalysis env = Resolves rs ->
  App.framesClient env = Resolves tt ->
  1 <= length (synthesizedFrames (App.frameAnswers env) 9) ->
  exists w' events,
    App.invoke (fun snapshot =>
        App.startAnalysisAndGeneration snapshot env) w = (Return tt, w') /\
    trace w' = trace w ++ events /\
    gatewayCalls events = 11 /\
    step (state (store w')) = sequencing /\
    length (scenes_of w')
      = length (synthesizedFrames (App.frameAnswers env) 9) /\
    length (scenes_of w') <= 9 /\
    chained (scenes_of w') /\
    (forall j s, scenes_of w' !! j = Some s ->
       index s = j /\ id s = App.randomUUID env j /\
       status s = idle /\ generatedVideoUrl s = None) /\
    startImage <$> scenes_of w' !! 0 = Some (JS.split_comma_1 main) /\
    faceFeaturesCache (store w') <> [] /\
    sceneFeaturesCache (store w') <> [] /\
    contextDesc (store w')
      = lit "Scene: " ++ sceneFeaturesCache (store w') ++ lit ". Face: "
          ++ faceFeaturesCache (store w').
Proof.
  intros Hmain Hface Tmain Tface Hready Hfc Hrf Hsc Hrs Hgc Hlen.
  destruct (credential_step_quiet (App.aistudio env) w Hready)
    as (w1 & keyEvents & Hcred & Htrace & Hquiet).
  pose (call := GatewayCall (generateContent (lit "gemini-2.5-flash-image"))).
  pose (frames := synthesizedFrames (App.frameAnswers env) 9).
  pose (model := App.modelName (selectedModel (config (state (store w))))).
  exists (mkWorld
            (mkStore
               (with_scenes
                  (App.newScenes (App.randomUUID env)
                     (JS.split_comma_1 main :: frames))
                  (with_step sequencing
                     (with_step generating_frames (state (store w1)))))
               (lit "Generating 4K Keyframes using "
                  ++ match selectedModel (config (state (store w))) with
                     | gemini_3_pro_image_preview => lit "Gemini 3 Pro"
                     | gemini_2_5_flash_image => lit "Gemini 2.5"
                     end ++ lit "...")
               (lit "Scene: "
                  ++ JS.or_else (GeminiService.text rs)
                       (lit "Cinematic scene description.")
                  ++ lit ". Face: "
                  ++ JS.or_else (GeminiService.text rf)
                       (lit "Detailed face reference."))
               (JS.or_else (GeminiService.text rf)
                  (lit "Detailed face reference."))
               (JS.or_else (GeminiService.text rs)
                  (lit "Cinematic scene description.")))
            (trace w ++ keyEvents ++ [call; call]
               ++ synthesisEvents model (App.frameAnswers env) 9)).
  exists (keyEvents ++ [call; call]
            ++ synthesisEvents model (App.frameAnswers env) 9).
  assert (Hframes : length frames <= 9).
  { unfold frames, synthesizedFrames.
    pose proof (length_omap_le (fun i => frameOf (App.frameAnswers env i))
                  (seq 0 9)) as H.
    now rewrite length_seq in H. }
  split.
  { unfold App.invoke, App.startAnalysisAndGeneration.
    rewrite Hmain, Hface, Tmain, Tface, Hfc, Hrf, Hsc, Hrs, Hgc.
    cbn [negb orb].
    erewrite bind_return by exact Hcred.
    destruct w1 as [[a1 msg1 desc1 face1 scene1] trace1].
    cbn [store trace state] in *.
    step_return.
    unfold try_catch.
    do 8 step_return.
    erewrite bind_return by apply generateCharacterFrames_run.
    cbn [store trace state].
    assert (Hge : (length (JS.split_comma_1 main
                     :: synthesizedFrames (App.frameAnswers env) 9) <? 2)
                  = false) by (apply Nat.ltb_ge; cbn [length]; lia).
    rewrite Hge. run_monad. rewrite Htrace. subst call frames model.
    repeat rewrite <- app_assoc. reflexivity. }
  split; [reflexivity|].
  split.
  { rewrite !gatewayCalls_app, Hquiet, gatewayCalls_synthesis. reflexivity. }
  split; [reflexivity|].
  unfold scenes_of; cbn [store state scenes with_scenes faceFeaturesCache
    sceneFeaturesCache contextDesc].
  split; [rewrite length_newScenes; cbn [length]; fold frames; lia|].
  split; [rewrite length_newScenes; cbn [length]; lia|].
  split; [apply chained_newScenes|].
  split.
  { intros j s Hs.
    assert (Hj : j < length (JS.split_comma_1 main :: frames) - 1).
    { apply lookup_lt_Some in Hs. now rewrite length_newScenes in Hs. }
    rewrite lookup_newScenes in Hs by exact Hj.
    injection Hs as <-. repeat split. }
  split.
  { rewrite lookup_newScenes by (cbn [length]; fold frames in Hlen; lia).
    reflexivity. }
  split; [apply truthy_nonempty, or_else_truthy; reflexivity|].
  split; [apply truthy_nonempty, or_else_truthy; reflexivity|].
  reflexivity.
Qed.

Lemma pipeline_reaches_sequencing_witness :
  let w0 := Sample.world [] in
  let w := mkWorld (with_state (with_step upload (state (store w0)))
                      (store w0)) [] in
  let rf := GeminiService.mkResponse (Some (lit "A face.")) [] in
  let rs := GeminiService.mkResponse None [] in
  let env := App.mkPipeline None (Resolves tt) (Resolves rf)
               (Resolves tt) (Resolves rs) (Resolves tt)
               (fun k => if k <? 7 then Rejects else Sample.picture "F")
               (fun k => lit "scene-" ++ [N.of_nat (48 + k)]) in
  exists w' events,
    App.invoke (fun snapshot =>
        App.startAnalysisAndGeneration snapshot env) w = (Return tt, w') /\
    trace w' = trace w ++ events /\
    gatewayCalls events = 11 /\
    step (state (store w')) = sequencing /\
    length (scenes_of w')
      = length (synthesizedFrames (App.frameAnswers env) 9) /\
    length (scenes_of w') <= 9 /\
    chained (scenes_of w') /\
    (forall j s, scenes_of w' !! j = Some s ->
       index s = j /\ id s = App.randomUUID env j /\
       status s = idle /\ generatedVideoUrl s = None) /\
    startImage <$> scenes_of w' !! 0
      = Some (JS.split_comma_1 (lit "data:image/jpeg;base64,AAAA")) /\
    faceFeaturesCache (store w') <> [] /\
    sceneFeaturesCache (store w') <> [] /\
    contextDesc (store w')
      = lit "Scene: " ++ sceneFeaturesCache (store w') ++ lit ". Face: "
          ++ faceFeaturesCache (store w').
Proof.
  intros w0 w rf rs env.
  apply (pipeline_reaches_sequencing w env
           (lit "data:image/jpeg;base64,AAAA")
           (lit "data:image/jpeg;base64,BBBB") rf rs);
    try reflexivity.
  - left; reflexivity.
  - vm_compute. lia.
Defined.

(* ===================================================================== *)
(** ** Director controls *)
(* ===================================================================== *)

(** X16. The editors of movement, expression, action prompt and
    resolution each write their own field and nothing else: on a scene
    with the given identifier the field takes the new value and every
    other field (the duration estimate, the video and the status among
    them) is as before; a scene with another identifier is unchanged. *)
Theorem director_edits_write_one_field
    (w : World) (i text : str) (resolution : Resolution)
    (j : nat) (s : SceneState) :
  scenes_of w !! j = Some s ->
  exists m e p r,
    scenes_of (snd (App.updateMovement i text w)) !! j = Some m /\
    scenes_of (snd (App.updateExpression i text w)) !! j = Some e /\
    scenes_of (snd (App.updateActionPrompt i text w)) !! j = Some p /\
    scenes_of (snd (App.updateResolution i resolution w)) !! j = Some r /\
    with_movementDescription (movementDescription s) m = s /\
    with_expressionDescription (expressionDescription s) e = s /\
    with_endFrameActionPrompt (endFrameActionPrompt s) p = s /\
    with_targetResolution (targetResolution s) r = s /\
    if JS.eqb (id s) i
    then movementDescription m = text /\ expressionDescription e = text /\
         endFrameActionPrompt p = text /\ targetResolution r = resolution
    else m = s /\ e = s /\ p = s /\ r = s.
Proof.
  intros Hs. unfold scenes_of in *.
  unfold App.updateMovement, App.updateExpression, App.updateActionPrompt,
    App.updateResolution, App.setState, modifyStore.
  cbn [snd store state with_state].
  rewrite !lookup_mapScene, Hs. cbn [fmap option_fmap option_map].
  do 4 eexists. do 4 (split; [reflexivity|]).
  destruct (JS.eqb (id s) i); destruct s; repeat split.
Qed.

Lemma director_edits_write_one_field_witness :
  let a := Sample.scene "a" 0 [] (lit "Hello.") in
  let w := Sample.world [a] in
  exists m e p r,
    scenes_of (snd (App.updateMovement (lit "a") (lit "nod") w)) !! 0
      = Some m /\
    scenes_of (snd (App.updateExpression (lit "a") (lit "nod") w)) !! 0
      = Some e /\
    scenes_of (snd (App.updateActionPrompt (lit "a") (lit "nod") w)) !! 0
      = Some p /\
    scenes_of (snd (App.updateResolution (lit "a") res_4k w)) !! 0
      = Some r /\
    with_movementDescription (movementDescription a) m = a /\
    with_expressionDescription (expressionDescription a) e = a /\
    with_endFrameActionPrompt (endFrameActionPrompt a) p = a /\
    with_targetResolution (targetResolution a) r = a /\
    if JS.eqb (id a) (lit "a")
    then movementDescription m = lit "nod" /\
         expressionDescription e = lit "nod" /\
         endFrameActionPrompt p = lit "nod" /\ targetResolution r = res_4k
    else m = a /\ e = a /\ p = a /\ r = a.
Proof.
  intros a w.
  apply (director_edits_write_one_field w (lit "a") (lit "nod") res_4k 0 a).
  reflexivity.
Defined.

Lemma applyEdit_run (i : str) (e : Edit) (w : World) :
  applyEdit i e w
  = (Return tt,
     mkWorld (with_state (App.mapScene i (editUpdater e) (state (store w)))
                (store w))
       (trace w)).
Proof. destruct e; reflexivity. Qed.

Lemma applyEdit_twice (i j : str) (e1 e2 : Edit) (w : World) :
  (applyEdit i e1;; applyEdit j e2) w
  = (Return tt,
     mkWorld
       (with_state
          (App.mapScene j (editUpdater e2)
             (App.mapScene i (editUpdater e1) (state (store w))))
          (store w))
       (trace w)).
Proof.
  erewrite bind_return by apply applyEdit_run.
  rewrite applyEdit_run. reflexivity.
Qed.

Lemma mapScene_ext (i j : str) (f g h : SceneState -> SceneState)
    (a : AppState) :
  (forall s,
     (if JS.eqb (id (if JS.eqb (id s) i then f s else s)) j
      then g (if JS.eqb (id s) i then f s else s)
      else (if JS.eqb (id s) i then f s else s))
     = h s) ->
  App.mapScene j g (App.mapScene i f a)
  = with_scenes (h <$> scenes a) a.
Proof.
  intros H. unfold App.mapScene, with_scenes.
  cbn [scenes step config isApiKeySelected].
  f_equal. rewrite <- list_fmap_compose.
  apply list_fmap_ext. intros _ s _. apply H.
Qed.

(** X17. Edits compose independently of their order: two edits from
    different controls, or to scenes with different identifiers, leave the
    same world whichever comes first; and of two edits from the same
    control to the same identifier the second one wins. *)
Theorem edits_commute
    (w : World) (i j : str) (e1 e2 : Edit) :
  (editKind e1 <> editKind e2 \/ i <> j ->
   (applyEdit i e1;; applyEdit j e2) w = (applyEdit j e2;; applyEdit i e1) w)
  /\
  (editKind e1 = editKind e2 ->
   (applyEdit i e1;; applyEdit i e2) w = applyEdit i e2 w).
Proof.
  split.
  - intros Hdiff. rewrite !applyEdit_twice.
    rewrite (mapScene_ext i j (editUpdater e1) (editUpdater e2)
               (fun s =>
                  if JS.eqb (id s) j
                  then editUpdater e2
                         (if JS.eqb (id s) i then editUpdater e1 s else s)
                  else if JS.eqb (id s) i then editUpdater e1 s else s)).
    2:{ intros s. destruct (JS.eqb (id s) i) eqn:Ei; [|reflexivity].
        now destruct e1. }
    rewrite (mapScene_ext j i (editUpdater e2) (editUpdater e1)
               (fun s =>
                  if JS.eqb (id s) j
                  then editUpdater e2
                         (if JS.eqb (id s) i then editUpdater e1 s else s)
                  else if JS.eqb (id s) i then editUpdater e1 s else s));
      [reflexivity|].
    intros s.
    destruct (JS.eqb (id s) i) eqn:Ei, (JS.eqb (id s) j) eqn:Ej;
      destruct e1, e2; cbn [editUpdater id with_script
        with_recommendedDuration with_movementDescription
        with_expressionDescription with_endFrameActionPrompt
        with_targetResolution];
      rewrite ?Ei, ?Ej; try reflexivity;
      exfalso; apply eqb_eq in Ei, Ej; destruct Hdiff as [H|H];
      solve [apply H; reflexivity | apply H; congruence].
  - intros Hsame. rewrite applyEdit_twice, applyEdit_run.
    rewrite (mapScene_ext i i (editUpdater e1) (editUpdater e2)
               (fun s => if JS.eqb (id s) i then editUpdater e2 s else s));
      [reflexivity|].
    intros s.
    destruct (JS.eqb (id s) i) eqn:Ei;
      destruct e1, e2; try discriminate Hsame;
      cbn [editUpdater id with_script with_recommendedDuration
        with_movementDescription with_expressionDescription
        with_endFrameActionPrompt with_targetResolution];
      rewrite ?Ei; reflexivity.
Qed.

Lemma edits_commute_witness :
  let w := Sample.world [Sample.scene "a" 0 [] []; Sample.scene "b" 1 [] []] in
  (applyEdit (lit "a") (EditScript (lit "Hi."));;
   applyEdit (lit "a") (EditResolution res_4k)) w
  = (applyEdit (lit "a") (EditResolution res_4k);;
     applyEdit (lit "a") (EditScript (lit "Hi."))) w
  /\
  (applyEdit (lit "b") (EditMovement (lit "nod"));;
   applyEdit (lit "b") (EditMovement (lit "wave"))) w
  = applyEdit (lit "b") (EditMovement (lit "wave")) w.
Proof.
  intros w. split.
  - apply (edits_commute w (lit "a") (lit "a") (EditScript (lit "Hi."))
             (EditResolution res_4k)).
    left. cbn. lia.
  - apply (edits_commute w (lit "b") (lit "b") (EditMovement (lit "nod"))
             (EditMovement (lit "wave"))).
    reflexivity.
Defined.

(* ===================================================================== *)
(** ** What the card shows *)
(* ===================================================================== *)

(** The scene list after [generateVideo], by the verdict of the gateway. *)
Lemma generateVideo_verdict_scenes
    (w : World) (i : str) (scene : SceneState)
    (key : option (Outcome unit)) (env : GeminiService.VeoEnv)
    (verdict : option str) :
  JS.find (fun s => JS.eqb (id s) i) (scenes_of w) = Some scene ->
  credential_ready (state (store w)) key ->
  GatewayVerdict env verdict ->
  exists w',
    App.invoke (fun snapshot => App.generateVideo snapshot i key env) w
      = (Return tt, w') /\
    scenes_of w'
    = (fun s =>
         if JS.eqb (id s) i
         then match verdict with
              | Some url =>
                  with_generatedVideoUrl (Some url)
                    (with_status complete
                       (with_errorMessage None
                          (with_status generating_video s)))
              | None =>
                  with_errorMessage
                    (Some (lit "Veo generation failed. Ensure billing is enabled."))
                    (with_status error
                       (with_errorMessage None
                          (with_status generating_video s)))
              end
         else s) <$> scenes_of w.
Proof.
  intros Hfind Hready Hverdict.
  destruct (credential_step key w Hready)
    as (w1 & keyEvents & Hcred & Hscenes & _ & _).
  unfold App.invoke, App.generateVideo.
  unfold scenes_of in Hfind. rewrite Hfind.
  erewrite bind_return by exact Hcred.
  erewrite bind_return by reflexivity.
  unfold try_catch.
  assert (Hmap : forall f g : SceneState -> SceneState,
    (forall s, id (g s) = id s) ->
    scenes (App.mapScene i f (App.mapScene i g (state (store w1))))
    = (fun s => if JS.eqb (id s) i then f (g s) else s) <$> scenes_of w).
  { intros f g Hg. unfold App.mapScene; cbn [scenes with_scenes].
    unfold scenes_of in Hscenes. rewrite Hscenes, <- list_fmap_compose.
    apply list_fmap_ext. intros _ s _. cbn.
    destruct (JS.eqb (id s) i) eqn:E; [now rewrite Hg, E | now rewrite E]. }
  match goal with
  | |- context [mbind _ _ ?w2] =>
      destruct (generateVeoSegment_verdict env verdict
                  (startImage scene) (endImage scene)
                  (movementDescription scene) (expressionDescription scene)
                  (script scene) (contextDesc (store w))
                  (targetResolution scene) w2 Hverdict)
        as (result & events & Hrun & Hresult)
  end.
  destruct verdict as [url|].
  - subst result. erewrite bind_return by exact Hrun.
    assert (Hurl : JS.truthy_opt (Some url) = true)
      by (inversion Hverdict; reflexivity).
    rewrite Hurl. cbn [negb].
    eexists. split; [run_monad; reflexivity|].
    unfold scenes_of at 1; cbn [store state with_state].
    now apply (Hmap (fun s => with_generatedVideoUrl (Some url)
                                (with_status complete s))
                 (fun s => with_errorMessage None
                             (with_status generating_video s))).
  - assert (Herr :
      scenes (App.mapScene i
                (fun s => with_errorMessage
                   (Some (lit "Veo generation failed. Ensure billing is enabled."))
                   (with_status error s))
                (App.mapScene i
                   (fun s => with_errorMessage None
                               (with_status generating_video s))
                   (state (store w1))))
      = (fun s =>
           if JS.eqb (id s) i
           then with_errorMessage
                  (Some (lit "Veo generation failed. Ensure billing is enabled."))
                  (with_status error
                     (with_errorMessage None
                        (with_status generating_video s)))
           else s) <$> scenes_of w)
      by now apply (Hmap (fun s => with_errorMessage
                  (Some (lit "Veo generation failed. Ensure billing is enabled."))
                  (with_status error s))
               (fun s => with_errorMessage None
                           (with_status generating_video s))).
    destruct Hresult as [-> | [e ->]].
    + erewrite bind_return by exact Hrun. cbn [JS.truthy_opt negb].
      eexists. split; [run_monad; reflexivity|].
      unfold scenes_of at 1; cbn [store state with_state]. exact Herr.
    + erewrite bind_throw by exact Hrun.
      eexists. split; [run_monad; reflexivity|].
      unfold scenes_of at 1; cbn [store state with_state]. exact Herr.
Qed.

(** X18. What the card shows once [generateVideo] has returned.  After a
    delivered video: the player on the new reference, the button labelled
    for regeneration, no error note.  After a gateway failure: the error
    note with the fixed message, and the player still on the video the
    scene had before, if it had one.  In both cases the button responds
    again unless an analysis or a regeneration is under way, so the
    generation can be retried. *)
Theorem card_after_generateVideo
    (w : World) (i : str) (scene : SceneState)
    (key : option (Outcome unit)) (env : GeminiService.VeoEnv)
    (verdict : option str) (j : nat) (s : SceneState) :
  JS.find (fun s => JS.eqb (id s) i) (scenes_of w) = Some scene ->
  credential_ready (state (store w)) key ->
  GatewayVerdict env verdict ->
  scenes_of w !! j = Some s ->
  id s = i ->
  exists w' s',
    App.invoke (fun snapshot => App.generateVideo snapshot i key env) w
      = (Return tt, w') /\
    scenes_of w' !! j = Some s' /\
    SceneCard.generateDisabled (SceneCard.render s')
      = isProcessing s || isRegeneratingImage s /\
    match verdict with
    | Some url =>
        SceneCard.videoPanel (SceneCard.render s') = SceneCard.Player url /\
        SceneCard.generateLabel (SceneCard.render s')
          = lit "Regenerate Video" /\
        SceneCard.errorNote (SceneCard.render s') = None
    | None =>
        SceneCard.errorNote (SceneCard.render s')
          = Some (lit "Veo generation failed. Ensure billing is enabled.") /\
        SceneCard.videoPanel (SceneCard.render s')
          = match generatedVideoUrl s with
            | Some old =>
                if JS.truthy old then SceneCard.Player old
                else SceneCard.ReadyToGenerate
            | None => SceneCard.ReadyToGenerate
            end
    end.
Proof.
  intros Hfind Hready Hverdict Hs Hid.
  destruct (generateVideo_verdict_scenes w i scene key env verdict
              Hfind Hready Hverdict) as (w' & Hrun & Hscenes).
  exists w'. eexists. split; [exact Hrun|].
  rewrite Hscenes, list_lookup_fmap, Hs. cbn [fmap option_fmap option_map].
  apply eqb_eq in Hid. rewrite Hid.
  split; [reflexivity|].
  destruct verdict as [url|].
  - assert (Hurl : JS.truthy url = true).
    { inversion Hverdict. reflexivity. }
    cbn. rewrite Hurl, orb_false_r. repeat split.
  - cbn. rewrite orb_false_r. repeat split.
Qed.

Lemma card_after_generateVideo_witness :
  let a := Sample.scene "a" 0 [] [] in
  let w := Sample.world [a] in
  let env := GeminiService.mkVeo (Resolves tt) Rejects [] (Resolves tt) [] in
  exists w' s',
    App.invoke (fun snapshot =>
        App.generateVideo snapshot (lit "a") None env) w = (Return tt, w') /\
    scenes_of w' !! 0 = Some s' /\
    SceneCard.generateDisabled (SceneCard.render s')
      = isProcessing a || isRegeneratingImage a /\
    SceneCard.errorNote (SceneCard.render s')
      = Some (lit "Veo generation failed. Ensure billing is enabled.") /\
    SceneCard.videoPanel (SceneCard.render s')
      = match generatedVideoUrl a with
        | Some old =>
            if JS.truthy old then SceneCard.Player old
            else SceneCard.ReadyToGenerate
        | None => SceneCard.ReadyToGenerate
        end.
Proof.
  intros a w env.
  apply (card_after_generateVideo w (lit "a") a None env None 0 a).
  - reflexivity.
  - left; reflexivity.
  - apply submission_error. reflexivity.
  - reflexivity.
  - reflexivity.
Defined.

Lemma find_unique (l : list SceneState) (j : nat) (s : SceneState) :
  NoDup (id <$> l) -> l !! j = Some s ->
  JS.find (fun x => JS.eqb (id x) (id s)) l = Some s.
Proof.
  intros Hnd Hs. rewrite find_findIndex, (findIndex_unique l j s Hnd Hs).
  exact Hs.
Qed.

Lemma truthy_trim_not_blank (t : str) :
  JS.truthy (JS.trim t) = true -> forallb JS.isWhiteSpace t = false.
Proof.
  intros H. destruct (forallb JS.isWhiteSpace t) eqn:E; [|reflexivity].
  apply trim_blank in E. congruence.
Qed.

(** X19. The buttons and the handlers agree.  With pairwise distinct
    identifiers, both references loaded and a client, a click on
    "Check Timing" or
    on "Regenerate Frame" of a scene's card returns; it makes exactly one
    gateway call when the button is enabled and none (and no other event)
    when it is disabled: through an enabled button the handler never ends
    in its silent no-op. *)
Theorem enabled_button_makes_one_call
    (w : World) (j : nat) (s : SceneState)
    (gw : Outcome GeminiService.ContentResponse) :
  NoDup (id <$> scenes_of w) ->
  scenes_of w !! j = Some s ->
  references_present (state (store w)) ->
  exists wa ea wr er,
    App.invoke (fun snapshot =>
        App.clickAnalyze snapshot s (Resolves tt) gw) w
      = (Return tt, wa) /\
    trace wa = trace w ++ ea /\
    gatewayCalls ea
      = (if SceneCard.analyzeDisabled (SceneCard.render s) then 0 else 1) /\
    (SceneCard.analyzeDisabled (SceneCard.render s) = true -> wa = w) /\
    App.invoke (fun snapshot =>
        App.clickRegenerate snapshot s (Resolves tt) gw) w
      = (Return tt, wr) /\
    trace wr = trace w ++ er /\
    gatewayCalls er
      = (if SceneCard.regenerateDisabled (SceneCard.render s) then 0 else 1) /\
    (SceneCard.regenerateDisabled (SceneCard.render s) = true -> wr = w).
Proof.
  intros Hnd Hs Hrefs.
  pose proof (find_unique _ _ _ Hnd Hs) as Hfind.
  pose proof (findIndex_unique _ _ _ Hnd Hs) as Hindex.
  assert (Ha : exists wa ea,
    App.invoke (fun snapshot =>
        App.clickAnalyze snapshot s (Resolves tt) gw) w
      = (Return tt, wa) /\
    trace wa = trace w ++ ea /\
    gatewayCalls ea
      = (if SceneCard.analyzeDisabled (SceneCard.render s) then 0 else 1) /\
    (SceneCard.analyzeDisabled (SceneCard.render s) = true -> wa = w)).
  { unfold App.invoke, App.clickAnalyze.
    destruct (SceneCard.analyzeDisabled (SceneCard.render s)) eqn:E.
    - exists w, []. rewrite app_nil_r. repeat split.
    - cbn in E. apply orb_false_iff in E as [E _].
      apply negb_false_iff, truthy_trim_not_blank in E.
      eexists; eexists.
      split; [apply (analyzeDuration_run w (id s) s gw Hfind E)|].
      split; [reflexivity|]. split; [|discriminate].
      destruct gw; reflexivity. }
  assert (Hr : exists wr er,
    App.invoke (fun snapshot =>
        App.clickRegenerate snapshot s (Resolves tt) gw) w
      = (Return tt, wr) /\
    trace wr = trace w ++ er /\
    gatewayCalls er
      = (if SceneCard.regenerateDisabled (SceneCard.render s) then 0 else 1) /\
    (SceneCard.regenerateDisabled (SceneCard.render s) = true -> wr = w)).
  { unfold App.invoke, App.clickRegenerate.
    destruct (SceneCard.regenerateDisabled (SceneCard.render s)) eqn:E.
    - exists w, []. rewrite app_nil_r. repeat split.
    - cbn in E. apply orb_false_iff in E as [_ E].
      apply negb_false_iff, truthy_trim_not_blank in E.
      destruct (yields_image_or_not gw) as [Hno | [img Himg]].
      + eexists; eexists.
        split; [apply (regenerateEndFrame_failure_trace w (id s) j s
                         Hindex Hs E gw Hrefs Hno)|].
        split; [reflexivity|]. split; [|discriminate].
        destruct gw; reflexivity.
      + eexists; eexists.
        split; [apply (regenerateEndFrame_success_run w (id s) j s
                         Hindex Hs E gw img Hrefs Himg)|].
        split; [reflexivity|]. split; [reflexivity | discriminate]. }
  destruct Ha as (wa & ea & Ha1 & Ha2 & Ha3 & Ha4).
  destruct Hr as (wr & er & Hr1 & Hr2 & Hr3 & Hr4).
  exists wa, ea, wr, er. auto 10.
Qed.

Lemma enabled_button_makes_one_call_witness :
  let a := Sample.scene "a" 0 (lit "look up") [] in
  let w := Sample.world [a; Sample.scene "b" 1 [] []] in
  exists wa ea wr er,
    App.invoke (fun snapshot =>
        App.clickAnalyze snapshot a (Resolves tt) (Sample.picture "NEW")) w
      = (Return tt, wa) /\
    trace wa = trace w ++ ea /\
    gatewayCalls ea
      = (if SceneCard.analyzeDisabled (SceneCard.render a) then 0 else 1) /\
    (SceneCard.analyzeDisabled (SceneCard.render a) = true -> wa = w) /\
    App.invoke (fun snapshot =>
        App.clickRegenerate snapshot a (Resolves tt)
          (Sample.picture "NEW")) w
      = (Return tt, wr) /\
    trace wr = trace w ++ er /\
    gatewayCalls er
      = (if SceneCard.regenerateDisabled (SceneCard.render a) then 0 else 1) /\
    (SceneCard.regenerateDisabled (SceneCard.render a) = true -> wr = w).
Proof.
  intros a w.
  apply (enabled_button_makes_one_call w 0 a (Sample.picture "NEW")).
  - apply (bool_decide_unpack _). vm_compute. exact I.
  - reflexivity.
  - split; eexists; reflexivity.
Defined.

Lemma afterComma_payload (prefix payload : str) :
  Forall (fun c => c <> 44%N) prefix ->
  JS.afterComma (prefix ++ 44%N :: payload) = Some payload.
Proof.
  induction 1 as [|c prefix Hc _ IH]; cbn; [reflexivity|].
  destruct (N.eqb_spec c 44); [contradiction | exact IH].
Qed.

Lemma untilComma_all (payload : str) :
  Forall (fun c => c <> 44%N) payload -> JS.untilComma payload = payload.
Proof.
  induction 1 as [|c payload Hc _ IH]; cbn; [reflexivity|].
  destruct (N.eqb_spec c 44); [contradiction | now rewrite IH].
Qed.

Lemma afterComma_none (t : str) :
  Forall (fun c => c <> 44%N) t -> JS.afterComma t = None.
Proof.
  induction 1 as [|c t Hc _ IH]; cbn; [reflexivity|].
  destruct (N.eqb_spec c 44); [contradiction | exact IH].
Qed.

(** X20. Data URLs round-trip: of a text [prefix,payload] whose prefix and
    payload hold no comma the handlers take exactly the payload, and of a
    text without comma they take [undefined]; so the image source a card
    shows for a scene decodes to that scene's image, whenever the image
    holds no comma (as base64 text does not). *)
Theorem data_url_round_trip
    (prefix payload : str) (s : SceneState) :
  Forall (fun c => c <> 44%N) prefix ->
  Forall (fun c => c <> 44%N) payload ->
  JS.split_comma_1 (prefix ++ lit "," ++ payload) = Some payload /\
  JS.split_comma_1 payload = None /\
  (startImage s = Some payload ->
   JS.split_comma_1 (SceneCard.startSrc (SceneCard.render s))
   = Some payload) /\
  (endImage s = Some payload ->
   JS.split_comma_1 (SceneCard.endSrc (SceneCard.render s)) = Some payload).
Proof.
  intros Hprefix Hpayload.
  assert (Hsplit : forall p, Forall (fun c => c <> 44%N) p ->
            JS.split_comma_1 (p ++ 44%N :: payload) = Some payload).
  { intros p Hp. unfold JS.split_comma_1.
    rewrite (afterComma_payload p payload Hp). cbn.
    now rewrite (untilComma_all payload Hpayload). }
  assert (Hmime : Forall (fun c => c <> 44%N) (lit "data:image/jpeg;base64")).
  { apply Forall_forall. intros c Hc. vm_compute in Hc.
    repeat (apply elem_of_cons in Hc as [-> | Hc]; [discriminate|]).
    now apply elem_of_nil in Hc. }
  split; [exact (Hsplit prefix Hprefix)|].
  split; [unfold JS.split_comma_1; now rewrite afterComma_none|].
  split; intros Himg; cbn [SceneCard.render SceneCard.startSrc
    SceneCard.endSrc]; rewrite Himg; cbn [SceneCard.template];
    exact (Hsplit _ Hmime).
Qed.

Lemma data_url_round_trip_witness :
  let s := Sample.scene "a" 0 [] [] in
  JS.split_comma_1 (lit "data:image/png;base64" ++ lit "," ++ lit "frame")
    = Some (lit "frame") /\
  JS.split_comma_1 (lit "frame") = None /\
  (startImage s = Some (lit "frame") ->
   JS.split_comma_1 (SceneCard.startSrc (SceneCard.render s))
   = Some (lit "frame")) /\
  (endImage s = Some (lit "frame") ->
   JS.split_comma_1 (SceneCard.endSrc (SceneCard.render s))
   = Some (lit "frame")).
Proof.
  intros s.
  apply (data_url_round_trip (lit "data:image/png;base64") (lit "frame") s).
  - apply (bool_decide_unpack _). vm_compute. exact I.
  - apply (bool_decide_unpack _). vm_compute. exact I.
Defined.

(** X21. What the card shows once [analyzeDuration], with a client, has
    returned on a scene with a usable script: the button reads "Check Timing" again, and
    the badge and the note give the stored duration followed by ["s"] when
    it is not empty, else the badge falls back to the format label and no
    note is shown.  After a rejected gateway call the card thus shows a
    target of 8 seconds. *)
Theorem duration_badge_after_analysis
    (w : World) (i : str) (scene : SceneState)
    (gw : Outcome GeminiService.ContentResponse)
    (j : nat) (s : SceneState) :
  JS.find (fun s => JS.eqb (id s) i) (scenes_of w) = Some scene ->
  forallb JS.isWhiteSpace (script scene) = false ->
  scenes_of w !! j = Some s ->
  id s = i ->
  exists w' s' d,
    App.invoke (fun snapshot =>
        App.analyzeDuration snapshot i (Resolves tt) gw) w
      = (Return tt, w') /\
    scenes_of w' !! j = Some s' /\
    recommendedDuration s' = Some d /\
    SceneCard.analyzeLabel (SceneCard.render s') = lit "Check Timing" /\
    SceneCard.badge (SceneCard.render s')
      = (if JS.truthy d then lit "AI Target: " ++ d ++ lit "s"
         else lit "9:16 Vertical") /\
    SceneCard.durationNote (SceneCard.render s')
      = (if JS.truthy d
         then Some (lit "Estimated video duration: " ++ d ++ lit "s")
         else None) /\
    match gw with
    | Rejects => SceneCard.badge (SceneCard.render s') = lit "AI Target: 8s"
    | Resolves r =>
        d = List.filter digitOrDot (default [] (GeminiService.text r))
    end.
Proof.
  intros Hfind Hscript Hs Hid.
  eexists; eexists; eexists.
  split; [apply (analyzeDuration_run w i scene gw Hfind Hscript)|].
  unfold scenes_of in *; cbn [store state with_state].
  rewrite !lookup_mapScene, Hs. cbn [fmap option_fmap option_map].
  apply eqb_eq in Hid. rewrite Hid. cbn [id with_isProcessing]. rewrite Hid.
  split; [reflexivity|]. split; [reflexivity|].
  destruct gw as [r|]; repeat split.
Qed.

Lemma duration_badge_after_analysis_witness :
  let a := Sample.scene "a" 0 [] (lit "Good evening.") in
  let w := Sample.world [a] in
  exists w' s' d,
    App.invoke (fun snapshot =>
        App.analyzeDuration snapshot (lit "a") (Resolves tt) Rejects) w
      = (Return tt, w') /\
    scenes_of w' !! 0 = Some s' /\
    recommendedDuration s' = Some d /\
    SceneCard.analyzeLabel (SceneCard.render s') = lit "Check Timing" /\
    SceneCard.badge (SceneCard.render s')
      = (if JS.truthy d then lit "AI Target: " ++ d ++ lit "s"
         else lit "9:16 Vertical") /\
    SceneCard.durationNote (SceneCard.render s')
      = (if JS.truthy d
         then Some (lit "Estimated video duration: " ++ d ++ lit "s")
         else None) /\
    SceneCard.badge (SceneCard.render s') = lit "AI Target: 8s".
Proof.
  intros a w.
  apply (duration_badge_after_analysis w (lit "a") a Rejects 0 a);
    reflexivity.
Defined.

(* ===================================================================== *)
(** ** Late results and edits made meanwhile *)
(* ===================================================================== *)

Lemma editUpdater_id (e : Edit) (s : SceneState) : id (editUpdater e s) = id s.
Proof. destruct e; reflexivity. Qed.

Lemma app_state_eq (a b : AppState) :
  step a = step b -> config a = config b ->
  isApiKeySelected a = isApiKeySelected b -> scenes a = scenes b -> a = b.
Proof. destruct a, b; cbn; intros; subst; reflexivity. Qed.

(** X22. The state updaters with which [regenerateEndFrame] and
    [generateVideo] deliver their results act on the state of the moment
    and commute with every edit of the director controls: an edit made
    while the gateway call was under way is kept, whichever of the two
    updaters runs first, and the delivered images, video and status are
    the same. *)
Theorem late_results_keep_edits
    (a : AppState) (k : nat) (img : image) (i v url : str) (e : Edit) :
  App.chainUpdate k img (App.mapScene i (editUpdater e) a)
    = App.mapScene i (editUpdater e) (App.chainUpdate k img a) /\
  App.mapScene v (fun s => with_generatedVideoUrl (Some url)
                             (with_status complete s))
    (App.mapScene i (editUpdater e) a)
  = App.mapScene i (editUpdater e)
      (App.mapScene v (fun s => with_generatedVideoUrl (Some url)
                                  (with_status complete s)) a) /\
  App.mapScene v (fun s =>
      with_errorMessage
        (Some (lit "Veo generation failed. Ensure billing is enabled."))
        (with_status error s))
    (App.mapScene i (editUpdater e) a)
  = App.mapScene i (editUpdater e)
      (App.mapScene v (fun s =>
         with_errorMessage
           (Some (lit "Veo generation failed. Ensure billing is enabled."))
           (with_status error s)) a).
Proof.
  split; [|split].
  - apply app_state_eq; try reflexivity.
    apply list_eq. intros j.
    rewrite lookup_chainUpdate, !lookup_mapScene, lookup_chainUpdate.
    destruct (scenes a !! j) as [s|]; [|reflexivity].
    cbn [fmap option_fmap option_map]. f_equal.
    destruct (JS.eqb (id s) i) eqn:E, (j =? k), (j =? k + 1);
      cbn [id with_status with_generatedVideoUrl with_isRegeneratingImage
           with_endImage with_startImage];
      rewrite ?E; try reflexivity; destruct e; reflexivity.
  - apply app_state_eq; try reflexivity.
    apply list_eq. intros j. rewrite !lookup_mapScene.
    destruct (scenes a !! j) as [s|]; [|reflexivity].
    cbn [fmap option_fmap option_map]. f_equal.
    destruct (JS.eqb (id s) i) eqn:Ei, (JS.eqb (id s) v) eqn:Ev;
      rewrite ?editUpdater_id;
      cbn [id with_status with_generatedVideoUrl];
      rewrite ?Ei, ?Ev; try reflexivity; destruct e; reflexivity.
  - apply app_state_eq; try reflexivity.
    apply list_eq. intros j. rewrite !lookup_mapScene.
    destruct (scenes a !! j) as [s|]; [|reflexivity].
    cbn [fmap option_fmap option_map]. f_equal.
    destruct (JS.eqb (id s) i) eqn:Ei, (JS.eqb (id s) v) eqn:Ev;
      rewrite ?editUpdater_id;
      cbn [id with_status with_errorMessage];
      rewrite ?Ei, ?Ev; try reflexivity; destruct e; reflexivity.
Qed.

(** X23. A duration estimate that arrives late is stored on whatever
    script the scene has by then: when the script of a scene is edited
    while its analysis is under way (after the processing flag went up and
    before the result is delivered), the scene ends with the new script,
    the estimate computed for the old one, and the flag cleared; the reset
    that [updateScript] made is overwritten. *)
Theorem late_duration_overwrites_reset
    (a : AppState) (i text d : str) (j : nat) (s : SceneState) :
  scenes a !! j = Some s ->
  id s = i ->
  exists s',
    scenes
      (App.mapScene i
         (fun s => with_isProcessing false
                     (with_recommendedDuration (Some d) s))
         (App.mapScene i (editUpdater (EditScript text))
            (App.mapScene i (with_isProcessing true) a))) !! j = Some s' /\
    script s' = text /\
    recommendedDuration s' = Some d /\
    isProcessing s' = false /\
    with_script (script s)
      (with_recommendedDuration (recommendedDuration s)
         (with_isProcessing (isProcessing s) s')) = s.
Proof.
  intros Hs Hid. apply eqb_eq in Hid.
  rewrite !lookup_mapScene, Hs. cbn [fmap option_fmap option_map].
  rewrite Hid.
  do 2 (cbn [id with_isProcessing editUpdater with_script
             with_recommendedDuration]; rewrite Hid).
  eexists. split; [reflexivity|]. repeat split. now destruct s.
Qed.

Lemma late_duration_overwrites_reset_witness :
  let s := Sample.scene "a" 0 [] (lit "Good evening.") in
  let a := state (store (Sample.world [s])) in
  exists s',
    scenes
      (App.mapScene (lit "a")
         (fun s => with_isProcessing false
                     (with_recommendedDuration (Some (lit "2.5")) s))
         (App.mapScene (lit "a") (editUpdater (EditScript (lit "Hi.")))
            (App.mapScene (lit "a") (with_isProcessing true) a))) !! 0
      = Some s' /\
    script s' = lit "Hi." /\
    recommendedDuration s' = Some (lit "2.5") /\
    isProcessing s' = false /\
    with_script (script s)
      (with_recommendedDuration (recommendedDuration s)
         (with_isProcessing (isProcessing s) s')) = s.
Proof.
  intros s a.
  apply (late_duration_overwrites_reset a (lit "a") (lit "Hi.") (lit "2.5")
           0 s); reflexivity.
Defined.
